(** * Dune Weaver: the pattern execution engine

    A shallow embedding of [modules/core/pattern_manager.py]: the theta-rho
    file parser, the schedule gate, the control plane (stop, pause, resume,
    status), the single-file runner with its batch handshake, and the
    playlist runner; followed by the properties of the specification that
    concern them.

    Python floats are IEEE binary64 numbers and are modelled by Rocq's
    primitive floats; Python text is modelled by [string], a character
    being a code point below 256. *)

From Stdlib Require Import List String Ascii Bool Arith PeanoNat Lia ZArith.
From Stdlib Require Import DecimalString Permutation.
From Stdlib Require Import Uint63 Floats.
Import ListNotations.

Local Open Scope string_scope.
Local Open Scope list_scope.
Local Open Scope nat_scope.

(* ================================================================== *)
(** * Text: the [str] methods used by the parser *)

Module PyStr.

(** [str.isspace] on the code points below 256: TAB, LF, VT, FF, CR, the
    four separators FS GS RS US, the blank, NEL and the no-break space. *)
Definition is_space (c : ascii) : bool :=
  let n := nat_of_ascii c in
  ((9 <=? n) && (n <=? 13)) || ((28 <=? n) && (n <=? 32))
  || (n =? 133) || (n =? 160).

(** [s.lstrip()]. *)
Fixpoint lstrip (s : string) : string :=
  match s with
  | EmptyString => EmptyString
  | String c r => if is_space c then lstrip r else s
  end.

(** [s.rstrip()]. *)
Fixpoint rstrip (s : string) : string :=
  match s with
  | EmptyString => EmptyString
  | String c r =>
      match rstrip r with
      | EmptyString => if is_space c then EmptyString else String c EmptyString
      | r' => String c r'
      end
  end.

(** [s.strip()]. *)
Definition strip (s : string) : string := lstrip (rstrip s).

(** [s.split()]: the maximal runs of characters that are not white space.
    [push c r tokens] puts [c] in front of the tokens of [r]: it extends
    the first token when [r] starts inside one, and starts a token of its
    own otherwise. *)
Definition push (c : ascii) (r : string) (tokens : list string) : list string :=
  match r, tokens with
  | String c' _, t :: ts =>
      if is_space c' then String c EmptyString :: t :: ts
      else String c t :: ts
  | _, ts => String c EmptyString :: ts
  end.

Fixpoint split (s : string) : list string :=
  match s with
  | EmptyString => []
  | String c r => if is_space c then split r else push c r (split r)
  end.

(** [s.startswith(p)]. *)
Definition startswith (s p : string) : bool := String.prefix p s.

(** [not s], the truth value of a string negated: true on the empty string. *)
Definition is_empty (s : string) : bool :=
  match s with EmptyString => true | _ => false end.

(** [s.lower()] on the letters A to Z. *)
Definition lower_char (c : ascii) : ascii :=
  let n := nat_of_ascii c in
  if (65 <=? n) && (n <=? 90) then ascii_of_nat (n + 32) else c.

Fixpoint lower (s : string) : string :=
  match s with
  | EmptyString => EmptyString
  | String c r => String (lower_char c) (lower r)
  end.

End PyStr.

(* ================================================================== *)
(** * Numbers: reading a token as a float *)

Module PyFloat.

(** The builtin [float] applied to a token is a parameter of the parser
    below.  [float_of_literal] reads the plain literals the worked examples
    need: an optional sign followed by [inf], [infinity], [nan] (in any
    case) or by decimal digits with an optional fraction, of at most 15
    digits in all, for which one correctly rounded division gives the
    nearest binary64 number.  The builtin accepts more (exponents, digit
    separators, longer literals); the general statements hold for every
    reader. *)

Definition digit_of (c : ascii) : option N :=
  let n := nat_of_ascii c in
  if (48 <=? n) && (n <=? 57) then Some (N.of_nat (n - 48)) else None.

(** Reads a run of digits: the number so far, how many digits were read,
    and what follows them. *)
Fixpoint read_digits (s : string) (acc : N) (count : nat) : N * nat * string :=
  match s with
  | EmptyString => (acc, count, EmptyString)
  | String c r =>
      match digit_of c with
      | Some d => read_digits r (10 * acc + d)%N (S count)
      | None => (acc, count, s)
      end
  end.

Fixpoint pow10 (k : nat) : float :=
  match k with
  | O => PrimFloat.one
  | S k' => PrimFloat.mul (pow10 k') (PrimFloat.of_uint63 10)
  end.

Definition float_of_N (m : N) : float :=
  PrimFloat.of_uint63 (Uint63.of_Z (Z.of_N m)).

Definition unsigned_literal (s : string) : option float :=
  let l := PyStr.lower s in
  if String.eqb l "inf" || String.eqb l "infinity" then Some PrimFloat.infinity
  else if String.eqb l "nan" then Some PrimFloat.nan
  else
    let '(m1, n1, rest) := read_digits s 0%N 0 in
    match rest with
    | EmptyString =>
        if (1 <=? n1) && (n1 <=? 15) then Some (float_of_N m1) else None
    | String "." frac =>
        let '(m, n2, rest') := read_digits frac m1 0 in
        if PyStr.is_empty rest' && (1 <=? n1 + n2) && (n1 + n2 <=? 15)
        then Some (PrimFloat.div (float_of_N m) (pow10 n2))
        else None
    | _ => None
    end.

Definition float_of_literal (s : string) : option float :=
  match s with
  | String "+" r => unsigned_literal r
  | String "-" r => option_map PrimFloat.opp (unsigned_literal r)
  | _ => unsigned_literal s
  end.

End PyFloat.

(* ================================================================== *)
(** * The theta-rho file parser *)

(** A point [(theta, rho)]. *)
Definition point : Type := float * float.

(** What opening and reading a file can do.  [open] raises
    [FileNotFoundError] ([NotFound]) or another exception ([OpenError]);
    the iteration over the lines delivers all of them ([Text]) or raises
    after delivering some ([ReadError]). *)
Inductive file_outcome : Type :=
| NotFound
| OpenError
| ReadError (delivered : list string)
| Text (lines : list string).

Section Parser.

(** The builtin [float] on a token: [None] stands for [ValueError]. *)
Variable to_float : string -> option float.

(** [theta, rho = map(float, tokens)]: the tokens are converted one by one
    as the unpacking asks for them; a token that is not a float, too few
    values and too many values all raise [ValueError] ([None]). *)
Definition unpack_two_floats (tokens : list string) : option point :=
  match tokens with
  | [] => None
  | a :: rest =>
      match to_float a with
      | None => None
      | Some theta =>
          match rest with
          | [] => None
          | b :: rest' =>
              match to_float b with
              | None => None
              | Some rho =>
                  match rest' with
                  | [] => Some (theta, rho)
                  | _ :: _ => None
                  end
              end
          end
      end
  end.

(** The body of [for line in file]. *)
Definition parse_line (coordinates : list point) (line : string) : list point :=
  let line := PyStr.strip line in
  if PyStr.is_empty line || PyStr.startswith line "#" then coordinates
  else
    match unpack_two_floats (PyStr.split line) with
    | Some (theta, rho) => coordinates ++ [(theta, rho)]
    | None => coordinates
    end.

Definition read_coordinates (lines : list string) : list point :=
  fold_left parse_line lines [].

(** The normalization step at the end of [parse_theta_rho_file]. *)
Definition normalize (coordinates : list point) : list point :=
  match coordinates with
  | [] => coordinates
  | (first_theta, _) :: _ =>
      map (fun p : point => (PrimFloat.sub (fst p) first_theta, snd p)) coordinates
  end.

(** [parse_theta_rho_file]: both exception handlers return the coordinates
    collected so far, as they are; only a file read to its end reaches the
    normalization. *)
Definition parse_theta_rho_file (f : file_outcome) : list point :=
  match f with
  | NotFound => []
  | OpenError => []
  | ReadError delivered => read_coordinates delivered
  | Text lines => normalize (read_coordinates lines)
  end.

End Parser.

(* ================================================================== *)
(** * The engine: shared state, collaborators, concurrency *)

(** ** Time of day

    [datetime.time] values compare as the tuples
    [(hour, minute, second, microsecond)]. *)
Record time_of_day : Type := mkTime {
  hour : nat;
  minute : nat;
  second : nat;
  microsecond : nat
}.

Definition then_compare (c : comparison) (rest : comparison) : comparison :=
  match c with Eq => rest | _ => c end.

Definition time_compare (a b : time_of_day) : comparison :=
  then_compare (Nat.compare (hour a) (hour b))
    (then_compare (Nat.compare (minute a) (minute b))
       (then_compare (Nat.compare (second a) (second b))
          (Nat.compare (microsecond a) (microsecond b)))).

Definition time_le (a b : time_of_day) : bool :=
  match time_compare a b with Gt => false | _ => true end.

Definition time_lt (a b : time_of_day) : bool :=
  match time_compare a b with Lt => true | _ => false end.

(** The microseconds since midnight. *)
Definition microseconds (t : time_of_day) : N :=
  (((N.of_nat (hour t) * 60 + N.of_nat (minute t)) * 60 + N.of_nat (second t))
   * 1000000 + N.of_nat (microsecond t))%N.

(** [schedule_hours]: [None], or the pair [(start_time, end_time)]. *)
Definition schedule : Type := option (time_of_day * time_of_day).

(** ** The global variables of the module *)
Record ExecutionState : Type := mkState {
  stop_requested : bool;
  pause_requested : bool;
  current_playing_file : option string;
  execution_progress : option (nat * nat);
  current_playing_index : option nat;
  current_playlist : option (list string);
  is_clearing : bool
}.

Definition set_stop_requested (b : bool) (s : ExecutionState) : ExecutionState :=
  mkState b (pause_requested s) (current_playing_file s) (execution_progress s)
    (current_playing_index s) (current_playlist s) (is_clearing s).

Definition set_pause_requested (b : bool) (s : ExecutionState) : ExecutionState :=
  mkState (stop_requested s) b (current_playing_file s) (execution_progress s)
    (current_playing_index s) (current_playlist s) (is_clearing s).

Definition set_current_playing_file (f : option string) (s : ExecutionState)
  : ExecutionState :=
  mkState (stop_requested s) (pause_requested s) f (execution_progress s)
    (current_playing_index s) (current_playlist s) (is_clearing s).

Definition set_execution_progress (p : option (nat * nat)) (s : ExecutionState)
  : ExecutionState :=
  mkState (stop_requested s) (pause_requested s) (current_playing_file s) p
    (current_playing_index s) (current_playlist s) (is_clearing s).

Definition set_current_playing_index (i : option nat) (s : ExecutionState)
  : ExecutionState :=
  mkState (stop_requested s) (pause_requested s) (current_playing_file s)
    (execution_progress s) i (current_playlist s) (is_clearing s).

Definition set_current_playlist (l : option (list string)) (s : ExecutionState)
  : ExecutionState :=
  mkState (stop_requested s) (pause_requested s) (current_playing_file s)
    (execution_progress s) (current_playing_index s) l (is_clearing s).

Definition set_is_clearing (b : bool) (s : ExecutionState) : ExecutionState :=
  mkState (stop_requested s) (pause_requested s) (current_playing_file s)
    (execution_progress s) (current_playing_index s) (current_playlist s) b.

(** ** What the engine does to the outside, in the order it happens *)
Inductive event : Type :=
| SendBatch (batch : list point)            (* send_coordinate_batch(batch) returned *)
| SendCommand (command reply : string)      (* send_command(command) returned reply *)
| ResetTheta                                (* reset_theta() returned *)
| TransportFailure                          (* a transport call raised *)
| Sleep (seconds : nat)                     (* time.sleep(seconds) returned *)
| StateReport (s : ExecutionState)          (* mqtt_handler.update_state, from this status *)
| StatusSnapshot (s : ExecutionState)       (* get_execution_status() read by a client *)
| SpawnWaiter (window : time_of_day * time_of_day).  (* Thread(wait_for_start_time).start() *)

Definition is_transport (e : event) : bool :=
  match e with
  | SendBatch _ | SendCommand _ _ | ResetTheta | TransportFailure => true
  | _ => false
  end.

(** The calls made on the transport, in order. *)
Definition transport_calls (t : list event) : list event := filter is_transport t.

(** ** What other threads do while a run is in progress

    The HTTP and MQTT threads call the control plane, the clock goes on,
    and each thread started by [schedule_checker] runs its loop. *)
Inductive activity : Type :=
| CallStop
| CallPause
| CallResume
| CallStatus
| ClockShows (t : time_of_day)
| WaiterIterates (k : nat).

(** ** The world a run executes in

    The replies of the device and the I/O errors of the transport are
    given by [device] and [faults]; the calls made on the transport, and
    what else the engine shows to the outside, are recorded in [trace].

    A run is preempted, that is other threads get to act, while it is
    inside a blocking call (a transport call, [time.sleep], the file read,
    [pause_condition.wait]), at the top of each iteration of the batch
    loop and of the playlist loop, and between the two assignments that
    clear the current file and the progress at the end of a run;
    [interference] lists what they do at the successive preemptions. *)
Record world : Type := mkWorld {
  st : ExecutionState;
  notifications : nat;                  (* calls of pause_condition.notify_all so far *)
  waiters : list (time_of_day * time_of_day); (* live wait_for_start_time threads *)
  mqtt_enabled : bool;                  (* mqtt_handler and mqtt_handler.is_enabled *)
  trace : list event;
  clock : time_of_day;                  (* datetime.now().time() *)
  files : string -> file_outcome;
  device : list string;                 (* replies to the successive commands, then silence *)
  faults : list bool;                   (* whether the successive transport calls raise *)
  interference : list (list activity);
  entropy : list nat                    (* the draws of the random generator *)
}.

Definition with_st (f : ExecutionState -> ExecutionState) (w : world) : world :=
  mkWorld (f (st w)) (notifications w) (waiters w) (mqtt_enabled w) (trace w)
    (clock w) (files w) (device w) (faults w) (interference w) (entropy w).

Definition with_notifications (n : nat) (w : world) : world :=
  mkWorld (st w) n (waiters w) (mqtt_enabled w) (trace w)
    (clock w) (files w) (device w) (faults w) (interference w) (entropy w).

Definition with_waiters (l : list (time_of_day * time_of_day)) (w : world) : world :=
  mkWorld (st w) (notifications w) l (mqtt_enabled w) (trace w)
    (clock w) (files w) (device w) (faults w) (interference w) (entropy w).

Definition with_trace (t : list event) (w : world) : world :=
  mkWorld (st w) (notifications w) (waiters w) (mqtt_enabled w) t
    (clock w) (files w) (device w) (faults w) (interference w) (entropy w).

Definition with_clock (t : time_of_day) (w : world) : world :=
  mkWorld (st w) (notifications w) (waiters w) (mqtt_enabled w) (trace w)
    t (files w) (device w) (faults w) (interference w) (entropy w).

Definition with_device (d : list string) (w : world) : world :=
  mkWorld (st w) (notifications w) (waiters w) (mqtt_enabled w) (trace w)
    (clock w) (files w) d (faults w) (interference w) (entropy w).

Definition with_faults (l : list bool) (w : world) : world :=
  mkWorld (st w) (notifications w) (waiters w) (mqtt_enabled w) (trace w)
    (clock w) (files w) (device w) l (interference w) (entropy w).

Definition with_interference (l : list (list activity)) (w : world) : world :=
  mkWorld (st w) (notifications w) (waiters w) (mqtt_enabled w) (trace w)
    (clock w) (files w) (device w) (faults w) l (entropy w).

Definition with_entropy (l : list nat) (w : world) : world :=
  mkWorld (st w) (notifications w) (waiters w) (mqtt_enabled w) (trace w)
    (clock w) (files w) (device w) (faults w) (interference w) l.

Definition log (e : event) (w : world) : world := with_trace (trace w ++ [e]) w.

(** [pause_condition.notify_all()]. *)
Definition notify_all (w : world) : world :=
  with_notifications (S (notifications w)) w.

(* ------------------------------------------------------------------ *)
(** ** Status and control plane *)

Definition get_execution_status (w : world) : ExecutionState := st w.

(** [_update_mqtt_state]: the handler, when there is an enabled one, is
    given values computed from [get_execution_status()]. *)
Definition _update_mqtt_state (w : world) : world :=
  if mqtt_enabled w then log (StateReport (get_execution_status w)) w else w.

Definition stop_execution (w : world) : world :=
  let w := notify_all (with_st (set_pause_requested false) w) in
  let w := with_st (set_stop_requested true) w in
  let w := with_st (set_current_playing_index None) w in
  let w := with_st (set_current_playlist None) w in
  let w := with_st (set_is_clearing false) w in
  let w := with_st (set_current_playing_file None) w in
  let w := with_st (set_execution_progress None) w in
  _update_mqtt_state w.

Definition pause_execution (w : world) : world :=
  _update_mqtt_state (with_st (set_pause_requested true) w).

Definition resume_execution (w : world) : world :=
  _update_mqtt_state (notify_all (with_st (set_pause_requested false) w)).

(* ------------------------------------------------------------------ *)
(** ** The schedule gate *)

(** [start_time <= now < end_time]. *)
Definition within (window : time_of_day * time_of_day) (now : time_of_day) : bool :=
  time_le (fst window) now && time_lt now (snd window).

Definition schedule_checker (schedule_hours : schedule) (w : world) : world :=
  match schedule_hours with
  | None => w
  | Some window =>
      let now := clock w in
      if within window now then
        notify_all (with_st (set_pause_requested false) w)
      else
        let w := with_st (set_pause_requested true) w in
        log (SpawnWaiter window) (with_waiters (waiters w ++ [window]) w)
  end.

Fixpoint remove_nth {A : Type} (k : nat) (l : list A) : list A :=
  match l, k with
  | [], _ => []
  | _ :: r, O => r
  | x :: r, S k' => x :: remove_nth k' r
  end.

(** One iteration of the loop of [wait_for_start_time], run by the [k]-th
    live thread: it ends when the pause is over or the window has opened,
    and sleeps 30 seconds otherwise. *)
Definition wait_for_start_time_iteration (k : nat) (w : world) : world :=
  match nth_error (waiters w) k with
  | None => w
  | Some window =>
      if pause_requested (st w) then
        if within window (clock w) then
          with_waiters (remove_nth k (waiters w))
            (notify_all (with_st (set_pause_requested false) w))
        else w
      else with_waiters (remove_nth k (waiters w)) w
  end.

(* ------------------------------------------------------------------ *)
(** ** Preemption *)

Definition act (w : world) (a : activity) : world :=
  match a with
  | CallStop => stop_execution w
  | CallPause => pause_execution w
  | CallResume => resume_execution w
  | CallStatus => log (StatusSnapshot (get_execution_status w)) w
  | ClockShows t => with_clock t w
  | WaiterIterates k => wait_for_start_time_iteration k w
  end.

Definition preempt (w : world) : world :=
  match interference w with
  | [] => w
  | acts :: later => fold_left act acts (with_interference later w)
  end.

(* ------------------------------------------------------------------ *)
(** ** Computations of the runner thread *)

Inductive result (A : Type) : Type :=
| Ret (a : A) (w : world)       (* returned *)
| Raise (w : world)             (* an exception propagates *)
| Blocked (w : world)           (* waits on the condition for ever *)
| OutOfFuel.                    (* the bound on the loops was reached *)

Arguments Ret {A} a w.
Arguments Raise {A} w.
Arguments Blocked {A} w.
Arguments OutOfFuel {A}.

Definition M (A : Type) : Type := world -> result A.

Definition ret {A : Type} (a : A) : M A := fun w => Ret a w.

Definition bind {A B : Type} (m : M A) (k : A -> M B) : M B :=
  fun w =>
    match m w with
    | Ret a w' => k a w'
    | Raise w' => Raise w'
    | Blocked w' => Blocked w'
    | OutOfFuel => OutOfFuel
    end.

Declare Scope run_scope.
Delimit Scope run_scope with run.
Notation "x <- m ;; k" := (bind m (fun x => k))
  (at level 61, m at next level, right associativity) : run_scope.
Notation "m ;; k" := (bind m (fun _ => k))
  (at level 61, right associativity) : run_scope.

(** A step of the runner that neither blocks nor raises. *)
Definition step (f : world -> world) : M unit := fun w => Ret tt (f w).

(** The next entry of a script: no fault, and no reply (the empty
    string), once it is exhausted. *)
Definition next_fault (w : world) : bool * world :=
  match faults w with
  | [] => (false, w)
  | b :: later => (b, with_faults later w)
  end.

Definition next_reply (w : world) : string * world :=
  match device w with
  | [] => (EmptyString, w)
  | r :: later => (r, with_device later w)
  end.

(** Modelled from the spec: [send_command] of
    [modules/serial/serial_manager.py], which is not among the sources; a
    synchronous request that returns the reply of the device, or raises on
    an I/O error. *)
Definition send_command (command : string) : M string :=
  fun w =>
    let w := preempt w in
    let '(fails, w) := next_fault w in
    if fails then Raise (log TransportFailure w)
    else
      let '(reply, w) := next_reply w in
      Ret reply (log (SendCommand command reply) w).

(** Modelled from the spec: [send_coordinate_batch] of
    [modules/serial/serial_manager.py], which is not among the sources; it
    sends the points and returns, or raises on an I/O error. *)
Definition send_coordinate_batch (batch : list point) : M unit :=
  fun w =>
    let w := preempt w in
    let '(fails, w) := next_fault w in
    if fails then Raise (log TransportFailure w)
    else Ret tt (log (SendBatch batch) w).

(** Modelled from the spec: [reset_theta] of
    [modules/serial/serial_manager.py], which is not among the sources; it
    returns, or raises on an I/O error. *)
Definition reset_theta : M unit :=
  fun w =>
    let w := preempt w in
    let '(fails, w) := next_fault w in
    if fails then Raise (log TransportFailure w)
    else Ret tt (log ResetTheta w).

(** [time.sleep(seconds)]. *)
Definition sleep (seconds : nat) : M unit :=
  fun w => Ret tt (log (Sleep seconds) (preempt w)).

(** [pause_condition.wait()], called when [notify_all] had been called
    [epoch] times: returns once it has been called again. *)
Fixpoint wait (fuel : nat) (epoch : nat) : M unit :=
  fun w =>
    match fuel with
    | O => OutOfFuel
    | S fuel' =>
        match interference w with
        | [] => Blocked w
        | _ :: _ =>
            let w' := preempt w in
            if epoch <? notifications w' then Ret tt w' else wait fuel' epoch w'
        end
    end.

(* ------------------------------------------------------------------ *)
(** ** Randomness: [random.shuffle] and [random.choice] *)

(** [randbelow(n)], from the next draw. *)
Definition randbelow (n : nat) : M nat :=
  fun w =>
    match entropy w with
    | [] => Ret 0 w
    | r :: later => Ret (r mod n) (with_entropy later w)
    end.

Fixpoint set_nth {A : Type} (k : nat) (x : A) (l : list A) : list A :=
  match l, k with
  | [], _ => []
  | _ :: r, O => x :: r
  | y :: r, S k' => y :: set_nth k' x r
  end.

(** [x[i], x[j] = x[j], x[i]]. *)
Definition swap {A : Type} (i j : nat) (l : list A) : list A :=
  match nth_error l i, nth_error l j with
  | Some a, Some b => set_nth j a (set_nth i b l)
  | _, _ => l
  end.

(** [random.shuffle(x)]: for [i] from [len(x) - 1] down to [1], swap
    [x[i]] with [x[randbelow(i + 1)]]. *)
Fixpoint shuffle_from {A : Type} (i : nat) (l : list A) : M (list A) :=
  match i with
  | O => ret l
  | S i' => bind (randbelow (S i)) (fun j => shuffle_from i' (swap i j l))
  end.

Definition random_shuffle {A : Type} (l : list A) : M (list A) :=
  shuffle_from (List.length l - 1) l.

(** [random.choice(seq)] on a sequence that is not empty. *)
Definition random_choice {A : Type} (default : A) (l : list A) : M A :=
  bind (randbelow (List.length l)) (fun j => ret (nth j l default)).

(* ------------------------------------------------------------------ *)
(** ** The runners *)

Local Open Scope run_scope.

Definition CLEAR_PATTERNS : list (string * string) :=
  [ ("clear_from_in",  "./patterns/clear_from_in.thr");
    ("clear_from_out", "./patterns/clear_from_out.thr");
    ("clear_sideway",  "./patterns/clear_sideway.thr") ].

(** [d.get(key, default)] on a dictionary kept in insertion order. *)
Fixpoint dict_get (d : list (string * string)) (key default : string) : string :=
  match d with
  | [] => default
  | (k, v) :: r => if String.eqb k key then v else dict_get r key default
  end.

Definition get_clear_pattern_file (pattern_name : string) : M string :=
  if String.eqb pattern_name "random"
  then random_choice EmptyString (map snd CLEAR_PATTERNS)
  else ret (dict_get CLEAR_PATTERNS pattern_name
              (dict_get CLEAR_PATTERNS "clear_from_in" EmptyString)).

Definition batch_size : nat := 10.

(** [l[i:j]]. *)
Definition slice {A : Type} (l : list A) (i j : nat) : list A :=
  firstn (j - i) (skipn i l).

(** [range(0, stop, step)] for a positive [step]. *)
Definition range_by (stop step : nat) : list nat :=
  map (fun k => k * step) (seq 0 ((stop + step - 1) / step)).

(** How a loop body ends when it can leave the function. *)
Inductive exit : Type :=
| Completed       (* the end of the function was reached *)
| Stopped.        (* a [return] under [if stop_requested] was taken *)

Section Runner.

Variable to_float : string -> option float.

(** The [with pause_condition: while pause_requested: ...] block. *)
Fixpoint pause_gate (fuel : nat) : M unit :=
  fun w =>
    match fuel with
    | O => OutOfFuel
    | S fuel' =>
        if pause_requested (st w) then
          let w := _update_mqtt_state w in
          (wait fuel' (notifications w) ;; pause_gate fuel') w
        else Ret tt w
    end.

(** The [while True] loop that offers one batch to the device. *)
Fixpoint handshake (fuel : nat) (schedule_hours : schedule)
    (batch : list point) (i total_coordinates : nat) : M unit :=
  match fuel with
  | O => fun _ => OutOfFuel
  | S fuel' =>
      step (schedule_checker schedule_hours) ;;
      response <- send_command "R" ;;
      if String.eqb response "R" then
        send_coordinate_batch batch ;;
        step (with_st (set_execution_progress
                         (Some (i + batch_size, total_coordinates))))
      else handshake fuel' schedule_hours batch i total_coordinates
  end.

(** The [for i in range(0, total_coordinates, batch_size)] loop, over the
    values of [i] still to come. *)
Fixpoint stream_batches (fuel : nat) (schedule_hours : schedule)
    (coordinates : list point) (total_coordinates : nat) (offsets : list nat)
    : M unit :=
  match offsets with
  | [] => ret tt
  | i :: later =>
      fun w =>
        let w := preempt w in
        if stop_requested (st w) then Ret tt w
        else
          (pause_gate fuel ;;
           let batch := slice coordinates i (i + batch_size) in
           if i =? 0 then
             send_coordinate_batch batch ;;
             step (with_st (set_execution_progress
                              (Some (i + batch_size, total_coordinates)))) ;;
             stream_batches fuel schedule_hours coordinates total_coordinates later
           else
             handshake fuel schedule_hours batch i total_coordinates ;;
             stream_batches fuel schedule_hours coordinates total_coordinates later) w
  end.

(** [try: body; except Exception: (logged); finally: cleanup]. *)
Definition try_finally (body : M unit) (cleanup : world -> world) : M unit :=
  fun w =>
    match body w with
    | Ret _ w' => Ret tt (cleanup w')
    | Raise w' => Ret tt (cleanup w')
    | Blocked w' => Blocked w'
    | OutOfFuel => OutOfFuel
    end.

(** The statements that end a run, in the rejection branch and in the
    [finally] clause.  The two assignments are separate statements and no
    lock is held: the other threads can act between them. *)
Definition clear_current (w : world) : world :=
  let w := with_st (set_current_playing_file None) w in
  let w := preempt w in
  let w := with_st (set_execution_progress None) w in
  _update_mqtt_state w.

(** The first statements of [run_theta_rho_file]. *)
Definition begin_run (file_path : string) (w : world) : world :=
  let w := with_st (set_stop_requested false) w in
  let w := with_st (set_current_playing_file (Some file_path)) w in
  let w := with_st (set_execution_progress (Some (0, 0))) w in
  _update_mqtt_state w.

Definition run_theta_rho_file (fuel : nat) (file_path : string)
    (schedule_hours : schedule) : M unit :=
  fun w =>
    let w := begin_run file_path w in
    let w := preempt w in
    let coordinates := parse_theta_rho_file to_float (files w file_path) in
    let total_coordinates := List.length coordinates in
    if total_coordinates <? 2 then Ret tt (clear_current w)
    else
      try_finally
        (step (with_st (set_execution_progress (Some (0, total_coordinates)))) ;;
         stream_batches fuel schedule_hours coordinates total_coordinates
           (range_by total_coordinates batch_size) ;;
         reset_theta ;;
         _ <- send_command "FINISHED" ;;
         ret tt)
        clear_current w.

(** The truth value of [clear_pattern]: [None] and the empty string are false. *)
Definition truthy (clear_pattern : option string) : bool :=
  match clear_pattern with
  | None => false
  | Some s => negb (PyStr.is_empty s)
  end.

(** The body of [for idx, path in enumerate(file_paths)], over the items
    still to come; [n] is [len(file_paths)].  The result tells whether the
    pass ran to its end or a [return] was taken. *)
Fixpoint play_items (fuel : nat) (n : nat) (pause_time : nat)
    (clear_pattern : option string) (schedule_hours : schedule)
    (idx : nat) (items : list string) : M exit :=
  match items with
  | [] => ret Completed
  | path :: later =>
      fun w =>
        let w := preempt w in
        let w := with_st (set_current_playing_index (Some idx)) w in
        let w := schedule_checker schedule_hours w in
        if stop_requested (st w) then Ret Stopped w
        else
          let clearing : M exit :=
            if truthy clear_pattern then
              fun w =>
                if stop_requested (st w) then Ret Stopped w
                else
                  (clear_file_path <-
                     get_clear_pattern_file
                       (match clear_pattern with Some s => s | None => EmptyString end) ;;
                   step (with_st (set_is_clearing true)) ;;
                   run_theta_rho_file fuel clear_file_path schedule_hours ;;
                   step (with_st (set_is_clearing false)) ;;
                   ret Completed) w
            else ret Completed in
          (e <- clearing ;;
           match e with
           | Stopped => ret Stopped
           | Completed =>
               (fun w =>
                  if negb (stop_requested (st w))
                  then run_theta_rho_file fuel path schedule_hours w
                  else Ret tt w) ;;
               fun w =>
                 if idx <? n - 1 then
                   if stop_requested (st w) then Ret Stopped w
                   else
                     ((if 0 <? pause_time then sleep pause_time else ret tt) ;;
                      play_items fuel n pause_time clear_pattern schedule_hours
                        (S idx) later) w
                 else
                   play_items fuel n pause_time clear_pattern schedule_hours
                     (S idx) later w
           end) w
  end.

(** [random.shuffle(file_paths)] works in place, and [current_playlist]
    refers to the same list as long as it has not been cleared: it shows
    the new order too. *)
Definition reshuffle (file_paths : list string) : M (list string) :=
  shuffled <- random_shuffle file_paths ;;
  fun w =>
    match current_playlist (st w) with
    | Some _ => Ret shuffled (with_st (set_current_playlist (Some shuffled)) w)
    | None => Ret shuffled w
    end.

(** The [while True] loop over the passes, followed by the end of the
    function. *)
Fixpoint play_passes (fuel : nat) (passes : nat) (file_paths : list string)
    (pause_time : nat) (clear_pattern : option string) (run_mode : string)
    (shuffle : bool) (schedule_hours : schedule) : M exit :=
  match passes with
  | O => fun _ => OutOfFuel
  | S passes' =>
      e <- play_items fuel (List.length file_paths) pause_time clear_pattern
             schedule_hours 0 file_paths ;;
      match e with
      | Stopped => ret Stopped
      | Completed =>
          if String.eqb run_mode "indefinite" then
            (if 0 <? pause_time then sleep pause_time else ret tt) ;;
            file_paths' <- (if shuffle then reshuffle file_paths else ret file_paths) ;;
            play_passes fuel passes' file_paths' pause_time clear_pattern run_mode
              shuffle schedule_hours
          else
            reset_theta ;;
            _ <- send_command "FINISHED" ;;
            ret Completed
      end
  end.

Definition run_theta_rho_files (fuel : nat) (file_paths : list string)
    (pause_time : nat) (clear_pattern : option string) (run_mode : string)
    (shuffle : bool) (schedule_hours : schedule) : M exit :=
  step (with_st (set_stop_requested false)) ;;
  file_paths <- (if shuffle then random_shuffle file_paths else ret file_paths) ;;
  step (with_st (set_current_playlist (Some file_paths))) ;;
  play_passes fuel fuel file_paths pause_time clear_pattern run_mode shuffle
    schedule_hours.

End Runner.

(* ================================================================== *)
(** * The MQTT side: what is published about the engine *)

(** ** Python values and dictionaries *)

(** The values found in the status of the engine. *)
Inductive value : Type :=
| VNone
| VBool (b : bool)
| VInt (n : nat)
| VStr (s : string)
| VStrs (l : list string)
| VProgress (p : nat * nat).

Definition of_option {A : Type} (f : A -> value) (o : option A) : value :=
  match o with Some a => f a | None => VNone end.

(** The truth value of a value. *)
Definition truth (v : value) : bool :=
  match v with
  | VNone => false
  | VBool b => b
  | VInt n => negb (n =? 0)
  | VStr s => negb (PyStr.is_empty s)
  | VStrs l => match l with [] => false | _ => true end
  | VProgress _ => true
  end.

(** [d[key]], [None] standing for [KeyError]. *)
Fixpoint py_lookup {V : Type} (d : list (string * V)) (key : string) : option V :=
  match d with
  | [] => None
  | (k, v) :: r => if String.eqb k key then Some v else py_lookup r key
  end.

(** [d.get(key, default)]. *)
Definition py_get {V : Type} (d : list (string * V)) (key : string) (default : V) : V :=
  match py_lookup d key with Some v => v | None => default end.

(** [len(v)], [None] standing for [TypeError]. *)
Definition py_len (v : value) : option nat :=
  match v with
  | VStr s => Some (String.length s)
  | VStrs l => Some (List.length l)
  | VProgress _ => Some 2
  | _ => None
  end.

(** The dictionary returned by [get_execution_status]. *)
Definition status_dict (s : ExecutionState) : list (string * value) :=
  [ ("stop_requested", VBool (stop_requested s));
    ("pause_requested", VBool (pause_requested s));
    ("current_playing_file", of_option VStr (current_playing_file s));
    ("execution_progress", of_option VProgress (execution_progress s));
    ("current_playing_index", of_option VInt (current_playing_index s));
    ("current_playlist", of_option VStrs (current_playlist s));
    ("is_clearing", VBool (is_clearing s)) ].

(** ** Text *)

(** [s.split(sep)] for a separator of one character. *)
Fixpoint split_on (sep : ascii) (s : string) : list string :=
  match s with
  | EmptyString => [EmptyString]
  | String a r =>
      if Ascii.eqb a sep then EmptyString :: split_on sep r
      else match split_on sep r with
           | t :: ts => String a t :: ts
           | [] => [String a EmptyString]
           end
  end.

(** [s[n:]]. *)
Fixpoint drop (n : nat) (s : string) : string :=
  match n, s with
  | O, _ => s
  | S n', String _ r => drop n' r
  | S _, EmptyString => EmptyString
  end.

Definition backslash : ascii := ascii_of_nat 92.

(** The name under which [update_state] publishes a file that plays. *)
Definition published_name (current_file : string) : string :=
  if PyStr.startswith current_file "./patterns/"
  then drop (String.length "./patterns/") current_file
  else last (split_on backslash (last (split_on "/" current_file) EmptyString))
         EmptyString.

(** ** Messages *)

(** What [json.dumps] is applied to. *)
#[warnings="-register-all"] Inductive json : Type :=
| JNull
| JBool (b : bool)
| JNum (n : nat)
| JStr (s : string)
| JArr (items : list json)
| JObj (fields : list (string * json)).

Definition json_of_value (v : value) : json :=
  match v with
  | VNone => JNull
  | VBool b => JBool b
  | VInt n => JNum n
  | VStr s => JStr s
  | VStrs l => JArr (map JStr l)
  | VProgress (a, b) => JArr [JNum a; JNum b]
  end.

Inductive payload : Type :=
| Plain (text : string)
| Dumps (j : json).        (* json.dumps(j) *)

(** [client.publish(topic, payload, retain=retain)]. *)
Record message : Type := mkMessage {
  topic : string;
  body : payload;
  retain : bool
}.

(** ** The handler *)

(** The fields of [MQTTHandler] that [update_state] and
    [setup_ha_discovery] read and write, and what the client was asked to
    publish. *)
Record MQTTHandler : Type := mkHandler {
  broker : option string;          (* os.getenv('MQTT_BROKER') *)
  discovery_prefix : string;
  device_name : string;
  device_id : string;
  current_file : string;
  is_running_state : bool;
  serial_state : string;
  patterns : list string;
  published : list message
}.

(** The property [is_enabled]: [bool(self.broker)]. *)
Definition is_enabled (h : MQTTHandler) : bool :=
  match broker h with
  | Some b => negb (PyStr.is_empty b)
  | None => false
  end.

Definition current_file_topic (h : MQTTHandler) : string :=
  device_id h ++ "/state/current_file".

Definition running_state_topic (h : MQTTHandler) : string :=
  device_id h ++ "/state/running".

Definition serial_state_topic (h : MQTTHandler) : string :=
  device_id h ++ "/state/serial".

Definition pattern_select_topic (h : MQTTHandler) : string :=
  device_id h ++ "/pattern/set".

Definition pattern_state_topic (h : MQTTHandler) : string :=
  pattern_select_topic h ++ "/state".

Definition patterns_topic (h : MQTTHandler) : string :=
  device_id h ++ "/state/patterns".

Definition playlist_topic (h : MQTTHandler) : string :=
  device_id h ++ "/state/playlist".

Definition publish (t : string) (b : payload) (r : bool) (h : MQTTHandler)
  : MQTTHandler :=
  mkHandler (broker h) (discovery_prefix h) (device_name h) (device_id h)
    (current_file h) (is_running_state h) (serial_state h) (patterns h)
    (published h ++ [mkMessage t b r]).

Definition set_current_file (f : string) (h : MQTTHandler) : MQTTHandler :=
  mkHandler (broker h) (discovery_prefix h) (device_name h) (device_id h)
    f (is_running_state h) (serial_state h) (patterns h) (published h).

Definition set_is_running_state (b : bool) (h : MQTTHandler) : MQTTHandler :=
  mkHandler (broker h) (discovery_prefix h) (device_name h) (device_id h)
    (current_file h) b (serial_state h) (patterns h) (published h).

Definition set_serial_state (s : string) (h : MQTTHandler) : MQTTHandler :=
  mkHandler (broker h) (discovery_prefix h) (device_name h) (device_id h)
    (current_file h) (is_running_state h) s (patterns h) (published h).

Definition set_patterns (l : list string) (h : MQTTHandler) : MQTTHandler :=
  mkHandler (broker h) (discovery_prefix h) (device_name h) (device_id h)
    (current_file h) (is_running_state h) (serial_state h) l (published h).

(** [_publish_discovery]. *)
Definition _publish_discovery (component config_type : string) (config : json)
    (h : MQTTHandler) : MQTTHandler :=
  if negb (is_enabled h) then h
  else
    publish (discovery_prefix h ++ "/" ++ component ++ "/" ++ device_id h ++ "/"
               ++ config_type ++ "/config")
      (Dumps config) true h.

Definition base_device (h : MQTTHandler) : json :=
  JObj [ ("identifiers", JArr [JStr (device_id h)]);
         ("name", JStr (device_name h));
         ("model", JStr "Dune Weaver");
         ("manufacturer", JStr "DIY") ].

(** The state topic that three of the playlist sensors are given: a plain
    string in the source, not a formatted one. *)
Definition unformatted_playlist_topic : string := "{self.device_id}/state/playlist".

Definition setup_ha_discovery (h : MQTTHandler) : MQTTHandler :=
  if negb (is_enabled h) then h
  else
    let h := _publish_discovery "sensor" "serial_state"
      (JObj [ ("name", JStr (device_name h ++ " Serial state"));
              ("unique_id", JStr (device_id h ++ "_serial_state"));
              ("state_topic", JStr (serial_state_topic h));
              ("device", base_device h);
              ("icon", JStr "mdi:machine");
              ("entity_category", JStr "diagnostic") ]) h in
    let h := _publish_discovery "binary_sensor" "running_state"
      (JObj [ ("name", JStr (device_name h ++ " State"));
              ("unique_id", JStr (device_id h ++ "_running_state"));
              ("state_topic", JStr (running_state_topic h));
              ("device", base_device h);
              ("icon", JStr "mdi:machine");
              ("entity_category", JStr "diagnostic") ]) h in
    let h := _publish_discovery "select" "pattern"
      (JObj [ ("name", JStr (device_name h ++ " Pattern"));
              ("unique_id", JStr (device_id h ++ "_pattern"));
              ("command_topic", JStr (pattern_select_topic h));
              ("state_topic", JStr (pattern_state_topic h));
              ("options", JArr (map JStr (patterns h)));
              ("device", base_device h);
              ("icon", JStr "mdi:draw") ]) h in
    let h := _publish_discovery "sensor" "pattern_list"
      (JObj [ ("name", JStr (device_name h ++ " Available Patterns"));
              ("unique_id", JStr (device_id h ++ "_pattern_list"));
              ("state_topic", JStr (patterns_topic h));
              ("device", base_device h);
              ("icon", JStr "mdi:file-multiple");
              ("entity_category", JStr "diagnostic") ]) h in
    let h := _publish_discovery "binary_sensor" "playlist_active"
      (JObj [ ("name", JStr (device_name h ++ " Playlist Active"));
              ("unique_id", JStr (device_id h ++ "_playlist_active"));
              ("state_topic", JStr unformatted_playlist_topic);
              ("value_template", JStr "{{ value_json.active }}");
              ("device", base_device h);
              ("icon", JStr "mdi:playlist-play");
              ("entity_category", JStr "diagnostic") ]) h in
    let h := _publish_discovery "sensor" "playlist_index"
      (JObj [ ("name", JStr (device_name h ++ " Playlist Index"));
              ("unique_id", JStr (device_id h ++ "_playlist_index"));
              ("state_topic", JStr unformatted_playlist_topic);
              ("value_template", JStr "{{ value_json.current_index }}");
              ("device", base_device h);
              ("icon", JStr "mdi:playlist-music");
              ("entity_category", JStr "diagnostic") ]) h in
    let h := _publish_discovery "sensor" "playlist_total"
      (JObj [ ("name", JStr (device_name h ++ " Playlist Total Files"));
              ("unique_id", JStr (device_id h ++ "_playlist_total"));
              ("state_topic", JStr unformatted_playlist_topic);
              ("value_template", JStr "{{ value_json.total_files }}");
              ("device", base_device h);
              ("icon", JStr "mdi:playlist-music");
              ("entity_category", JStr "diagnostic") ]) h in
    _publish_discovery "binary_sensor" "clearing_pattern"
      (JObj [ ("name", JStr (device_name h ++ " Clearing Pattern"));
              ("unique_id", JStr (device_id h ++ "_clearing_pattern"));
              ("state_topic", JStr (playlist_topic h));
              ("value_template", JStr "{{ value_json.is_clearing }}");
              ("device", base_device h);
              ("icon", JStr "mdi:eraser");
              ("entity_category", JStr "diagnostic") ]) h.

(** The keyword arguments of [update_state]; [None] is Python's [None]. *)
Record arguments : Type := mkArguments {
  arg_is_running : option bool;
  arg_current_file : option string;
  arg_patterns : option (list string);
  arg_serial : option string;
  arg_playlist : option (list (string * value))
}.

(** [set(a) != set(b)] on lists of strings. *)
Definition subset (a b : list string) : bool :=
  forallb (fun x => existsb (String.eqb x) b) a.

Definition sets_differ (a b : list string) : bool :=
  negb (subset a b && subset b a).

(** How [update_state] ends: it returns, or an exception ([KeyError],
    [TypeError]) leaves it after part of its work. *)
Inductive outcome : Type :=
| Done (h : MQTTHandler)
| Failed (h : MQTTHandler).

(** The last block of [update_state]: the playlist message.  The truth
    value of a dictionary is that it has a key. *)
Definition publish_playlist (playlist : list (string * value)) (h : MQTTHandler)
  : outcome :=
  match playlist with
  | [] =>
      Done (publish (playlist_topic h)
              (Dumps (JObj [ ("active", JBool false);
                             ("current_index", JNull);
                             ("total_files", JNum 0);
                             ("is_clearing", JBool false);
                             ("files", JArr []) ])) true h)
  | _ :: _ =>
      match py_lookup playlist "files" with
      | None => Failed h
      | Some files =>
          match py_len files with
          | None => Failed h
          | Some total =>
              Done (publish (playlist_topic h)
                      (Dumps (JObj [ ("active", JBool true);
                                     ("current_index",
                                      json_of_value (py_get playlist "current_index" (VInt 0)));
                                     ("total_files", JNum total);
                                     ("is_clearing",
                                      json_of_value (py_get playlist "is_clearing" (VBool false)));
                                     ("files",
                                      json_of_value (py_get playlist "files" (VStrs []))) ]))
                      true h)
          end
      end
  end.

(** The blocks of [update_state], one for each argument that is not
    [None], in the order of the source. *)

Definition update_is_running (is_running : option bool) (h : MQTTHandler)
  : MQTTHandler :=
  match is_running with
  | Some is_running =>
      publish (running_state_topic h) (Plain (if is_running then "ON" else "OFF"))
        true (set_is_running_state is_running h)
  | None => h
  end.

Definition update_current_file (current_file : option string) (h : MQTTHandler)
  : MQTTHandler :=
  match current_file with
  | Some file =>
      if negb (PyStr.is_empty file) then
        let file_name := published_name file in
        let h := set_current_file file_name h in
        let h := publish (current_file_topic h) (Plain file_name) true h in
        publish (pattern_state_topic h) (Plain file_name) true h
      else
        let h := publish (current_file_topic h) (Plain EmptyString) true h in
        publish (pattern_state_topic h) (Plain EmptyString) true h
  | None => h
  end.

Definition update_patterns (patterns' : option (list string)) (h : MQTTHandler)
  : MQTTHandler :=
  match patterns' with
  | Some l =>
      if sets_differ l (patterns h) then
        let h := set_patterns l h in
        let h := publish (patterns_topic h) (Dumps (JArr (map JStr l))) true h in
        setup_ha_discovery h
      else h
  | None => h
  end.

Definition update_serial (serial : option string) (h : MQTTHandler)
  : MQTTHandler :=
  match serial with
  | Some serial =>
      publish (serial_state_topic h) (Plain serial) true
        (set_serial_state serial h)
  | None => h
  end.

Definition update_playlist (playlist : option (list (string * value)))
    (h : MQTTHandler) : outcome :=
  match playlist with
  | Some playlist => publish_playlist playlist h
  | None => Done h
  end.

Definition update_state (a : arguments) (h : MQTTHandler) : outcome :=
  if negb (is_enabled h) then Done h
  else
    let h := update_is_running (arg_is_running a) h in
    let h := update_current_file (arg_current_file a) h in
    let h := update_patterns (arg_patterns a) h in
    let h := update_serial (arg_serial a) h in
    update_playlist (arg_playlist a) h.

(** The path that [on_message] gives to [run_pattern] for the pattern
    selected on the topic of the selection. *)
Definition selected_path (pattern_name : string) : string :=
  "patterns/" ++ pattern_name.

(** ** What the engine reports *)

(** The arguments that [_update_mqtt_state] gives to [update_state], from
    the status of the engine and the list of pattern files. *)
Definition report_arguments (s : ExecutionState) (pattern_files : list string)
  : arguments :=
  let status := status_dict s in
  let playlist_info :=
    if truth (py_get status "current_playlist" VNone) then
      Some [ ("files", py_get status "current_playlist" VNone);
             ("current_index", py_get status "current_playing_index" (VInt 0));
             ("is_clearing", py_get status "is_clearing" (VBool false)) ]
    else None in
  mkArguments
    (Some (negb (stop_requested s || pause_requested s)))
    (match py_get status "current_playing_file" (VStr EmptyString) with
     | VStr f => Some f
     | _ => None
     end)
    (Some pattern_files)
    None
    playlist_info.

(** [_update_mqtt_state] with the handler [h], when there is one and it is
    enabled. *)
Definition publish_report (s : ExecutionState) (pattern_files : list string)
    (h : MQTTHandler) : outcome :=
  if is_enabled h then update_state (report_arguments s pattern_files) h
  else Done h.

(** [get_mqtt_state] of [modules/mqtt/utils.py]: the fields it computes
    from the status of the engine. *)
Definition get_mqtt_state (s : ExecutionState) : bool * string :=
  let status := status_dict s in
  let is_running := py_get status "is_running" (VBool false) in
  let current_file := py_get status "current_file" (VStr EmptyString) in
  (truth is_running,
   match current_file with VStr f => f | _ => EmptyString end).

(* ================================================================== *)
(** * Vocabulary of the properties *)

(** The state every call of [stop_execution] ends in. *)
Definition stopped_state : ExecutionState :=
  mkState true false None None None None false.

(** The specification's classification of the lines of a file.  A blank
    line has nothing but white space; a comment line starts with [#]; a
    valid line splits into exactly two tokens that are both floats. *)
Fixpoint is_blank (line : string) : bool :=
  match line with
  | EmptyString => true
  | String c r => PyStr.is_space c && is_blank r
  end.

Definition is_comment (line : string) : bool := PyStr.startswith line "#".

Definition two_float_tokens (to_float : string -> option float) (line : string)
  : option point :=
  match PyStr.split line with
  | [a; b] =>
      match to_float a, to_float b with
      | Some theta, Some rho => Some (theta, rho)
      | _, _ => None
      end
  | _ => None
  end.

Definition is_valid (to_float : string -> option float) (line : string) : bool :=
  match two_float_tokens to_float line with Some _ => true | None => false end.

(** The points of the valid lines, in the order of the lines. *)
Definition valid_points (to_float : string -> option float) (lines : list string)
  : list point :=
  flat_map (fun line => match two_float_tokens to_float line with
                        | Some p => [p]
                        | None => []
                        end) lines.

(** The shift applied by the normalization, given the first raw theta. *)
Definition shift_theta (first_theta : float) (p : point) : point :=
  (PrimFloat.sub (fst p) first_theta, snd p).

Definition origin : point := (PrimFloat.zero, PrimFloat.zero).

(** Between [w] and [w'] the files, the device, the faults to come and the
    calls made on the transport are the same. *)
Record undisturbed (w w' : world) : Prop := mkUndisturbed {
  same_files : files w' = files w;
  same_device : device w' = device w;
  same_faults : faults w' = faults w;
  same_calls : transport_calls (trace w') = transport_calls (trace w)
}.

(** A world in which no other thread acts and no transport call fails. *)
Definition quiet_world (n : nat) (ws : list (time_of_day * time_of_day)) (m : bool)
    (c : time_of_day) (f : string -> file_outcome) (e : list nat)
    (s : ExecutionState) (t : list event) (d : list string) : world :=
  mkWorld s n ws m t c f d [] [] e.

(** ** Worked examples: a table with a few pattern files *)

Definition idle : ExecutionState := mkState false false None None None None false.

Definition noon : time_of_day := mkTime 12 0 0 0.

(** [k] lines ["1 0.5"], ["2 0.5"], ... *)
Definition pattern_lines (k : nat) : list string :=
  map (fun i => (NilZero.string_of_uint (Nat.to_uint i) ++ " 0.5")%string) (seq 1 k).

Definition star_thr : string := "./patterns/star.thr".

Definition dot_thr : string := "./patterns/dot.thr".

Definition torn_thr : string := "./patterns/torn.thr".

(** A pattern of 25 points, one of 5 points, a file whose read fails after
    three lines, and no other file. *)
Definition sample_files (path : string) : file_outcome :=
  if String.eqb path star_thr then Text (pattern_lines 25)
  else if String.eqb path dot_thr then Text (pattern_lines 5)
  else if String.eqb path torn_thr then ReadError (pattern_lines 3)
  else NotFound.

(** An idle engine at noon, in front of a device that will give the
    replies [d], with other threads that will do [i]. *)
Definition sample_world (d : list string) (i : list (list activity)) : world :=
  mkWorld idle 0 [] true [] noon sample_files d [] i [].

Definition star : list point :=
  parse_theta_rho_file PyFloat.float_of_literal (sample_files star_thr).

Definition dot : list point :=
  parse_theta_rho_file PyFloat.float_of_literal (sample_files dot_thr).

(** The states that [get_execution_status] showed to the clients. *)
Fixpoint snapshots (t : list event) : list ExecutionState :=
  match t with
  | [] => []
  | StatusSnapshot s :: r => s :: snapshots r
  | _ :: r => snapshots r
  end.

(** The world a computation returned in. *)
Definition final_world {A : Type} (r : result A) : option world :=
  match r with Ret _ w => Some w | _ => None end.

(** An engine on which [stop_execution] has been called. *)
Definition stopped_world (d : list string) (i : list (list activity)) : world :=
  stop_execution (sample_world d i).

(** The invariant of the specification on a status: a progress is shown
    only together with a current file. *)
Definition consistent (s : ExecutionState) : bool :=
  match execution_progress s, current_playing_file s with
  | Some _, None => false
  | _, _ => true
  end.

(** What a state report or a status read shows is consistent. *)
Definition observation_ok (e : event) : bool :=
  match e with
  | StateReport s | StatusSnapshot s => consistent s
  | _ => true
  end.

Definition is_stop (a : activity) : bool :=
  match a with CallStop => true | _ => false end.

(** No call of [stop_execution] among what the other threads will do. *)
Definition no_stop (i : list (list activity)) : bool :=
  forallb (forallb (fun a => negb (is_stop a))) i.

(** A run is streaming a file, nobody will call stop, and all that was
    shown so far was consistent. *)
Definition playing (w : world) : Prop :=
  no_stop (interference w) = true
  /\ forallb observation_ok (trace w) = true
  /\ current_playing_file (st w) <> None.

Definition holds_after {A : Type} (P : world -> Prop) (r : result A) : Prop :=
  match r with
  | Ret _ w | Raise w | Blocked w => P w
  | OutOfFuel => True
  end.

Definition preserves {A : Type} (P : world -> Prop) (m : M A) : Prop :=
  forall w, P w -> holds_after P (m w).



(** The activity reads or reports the state of the engine. *)
Definition observes (a : activity) : bool :=
  match a with
  | CallStop | CallPause | CallResume | CallStatus => true
  | ClockShows _ | WaiterIterates _ => false
  end.

(** The world in which the rejection branch or the [finally] clause of a
    run begins: after the start of the run when it is rejected, after the
    [try] block, left normally or by an exception, otherwise; [None] when
    the run does not get there. *)
Definition before_clearing (to_float : string -> option float) (fuel : nat)
    (file_path : string) (schedule_hours : schedule) (w : world) : option world :=
  let w := preempt (begin_run file_path w) in
  let coordinates := parse_theta_rho_file to_float (files w file_path) in
  let total_coordinates := List.length coordinates in
  if total_coordinates <? 2 then Some w
  else
    match (step (with_st (set_execution_progress (Some (0, total_coordinates)))) ;;
           stream_batches fuel schedule_hours coordinates total_coordinates
             (range_by total_coordinates batch_size) ;;
           reset_theta ;;
           _ <- send_command "FINISHED" ;;
           ret tt)%run w with
    | Ret _ w' | Raise w' => Some w'
    | Blocked _ | OutOfFuel => None
    end.

(** The world between the two assignments that end a run, once the other
    threads have acted there. *)
Definition closing_window (w : world) : world :=
  preempt (with_st (set_current_playing_file None) w).

(** What the other threads logged between the two assignments. *)
Definition window_events (w : world) : list event :=
  skipn (List.length (trace w)) (trace (closing_window w)).

(** ** Vocabulary of the further properties *)

(** No call in the list raised. *)
Definition no_failure (calls : list event) : Prop := ~ In TransportFailure calls.

(** What a computation started in [w] added to the calls on the transport:
    calls that did not raise when it returned, calls that did not raise
    followed by the one that raised when it raised. *)
Definition calls_after {A : Type} (w : world) (r : result A) : Prop :=
  match r with
  | Ret _ w' =>
      exists new,
        transport_calls (trace w') = transport_calls (trace w) ++ new
        /\ no_failure new
  | Raise w' =>
      exists new,
        transport_calls (trace w') = transport_calls (trace w) ++ new ++ [TransportFailure]
        /\ no_failure new
  | Blocked _ | OutOfFuel => True
  end.

Definition fails_last {A : Type} (m : M A) : Prop := forall w, calls_after w (m w).

(** A computation that makes no call on the transport and does not raise. *)
Definition calm {A : Type} (m : M A) : Prop :=
  forall w,
    match m w with
    | Ret _ w' | Blocked w' => undisturbed w w'
    | Raise _ => False
    | OutOfFuel => True
    end.

(** The replies read by the polls of one handshake: those before the
    first ["R"], and what is left of the script after it; [None] when no
    reply is ["R"]. *)
Fixpoint await_ack (device : list string) : option (list string * list string) :=
  match device with
  | [] => None
  | r :: d =>
      if String.eqb r "R" then Some ([], d)
      else match await_ack d with
           | Some (pre, rest) => Some (r :: pre, rest)
           | None => None
           end
  end.

(** The calls that stream the batches at [offsets] to a device that gives
    the replies [device], and the replies left: the batch at offset 0 is
    sent at once, every other batch after the polls of its handshake. *)
Fixpoint planned_calls (coordinates : list point) (offsets : list nat)
    (device : list string) : option (list event * list string) :=
  match offsets with
  | [] => Some ([], device)
  | i :: later =>
      let batch := slice coordinates i (i + batch_size) in
      if i =? 0 then
        match planned_calls coordinates later device with
        | Some (calls, rest) => Some (SendBatch batch :: calls, rest)
        | None => None
        end
      else
        match await_ack device with
        | None => None
        | Some (pre, remaining) =>
            match planned_calls coordinates later remaining with
            | Some (calls, rest) =>
                Some (map (SendCommand "R") pre
                        ++ [SendCommand "R" "R"; SendBatch batch] ++ calls, rest)
            | None => None
            end
        end
  end.

(** The batches sent, in order. *)
Fixpoint sent_batches (t : list event) : list (list point) :=
  match t with
  | [] => []
  | SendBatch b :: r => b :: sent_batches r
  | _ :: r => sent_batches r
  end.

(** No stop is requested or will be, and no call on the transport will
    raise. *)
Definition steady (w : world) : Prop :=
  stop_requested (st w) = false
  /\ no_stop (interference w) = true
  /\ faults w = [].

(** From a steady world the computation does not raise, and it ends in a
    steady world. *)
Definition safe {A : Type} (m : M A) : Prop :=
  forall w, steady w ->
    match m w with
    | Ret _ w' => steady w'
    | Raise _ => False
    | Blocked _ | OutOfFuel => True
    end.

(** The computation lets no exception out. *)
Definition never_raises {A : Type} (m : M A) : Prop :=
  forall w w', m w <> Raise w'.

(** ** Vocabulary of the properties of the MQTT side *)

(** A handler as [__init__] leaves it with a broker configured and the
    defaults of the environment. *)
Definition sample_handler : MQTTHandler :=
  mkHandler (Some "broker.local") "homeassistant" "Sand Table" "dune_weaver"
    EmptyString false EmptyString [] [].

(** The last character of a text. *)
Fixpoint last_char (s : string) : option ascii :=
  match s with
  | EmptyString => None
  | String c r =>
      match last_char r with
      | Some d => Some d
      | None => Some c
      end
  end.

(** The character occurs in the text. *)
Fixpoint contains (c : ascii) (s : string) : bool :=
  match s with
  | EmptyString => false
  | String a r => Ascii.eqb a c || contains c r
  end.

(** [h] with the messages [new] published after its own. *)
Definition with_published (new : list message) (h : MQTTHandler) : MQTTHandler :=
  mkHandler (broker h) (discovery_prefix h) (device_name h) (device_id h)
    (current_file h) (is_running_state h) (serial_state h) (patterns h)
    (published h ++ new).

(** What a report of the engine in state [s] publishes: the running flag, *)
Definition running_message (h : MQTTHandler) (s : ExecutionState) : message :=
  mkMessage (running_state_topic h)
    (Plain (if stop_requested s || pause_requested s then "OFF" else "ON")) true.

(** the file that plays, on two topics, *)
Definition file_messages (h : MQTTHandler) (s : ExecutionState) : list message :=
  match current_playing_file s with
  | None => []
  | Some f =>
      let name := if PyStr.is_empty f then EmptyString else published_name f in
      [ mkMessage (current_file_topic h) (Plain name) true;
        mkMessage (pattern_state_topic h) (Plain name) true ]
  end.

(** and the playlist. *)
Definition playlist_messages (h : MQTTHandler) (s : ExecutionState)
  : list message :=
  match current_playlist s with
  | Some (x :: l) =>
      [ mkMessage (playlist_topic h)
          (Dumps (JObj [ ("active", JBool true);
                         ("current_index",
                          match current_playing_index s with
                          | Some i => JNum i
                          | None => JNull
                          end);
                         ("total_files", JNum (S (List.length l)));
                         ("is_clearing", JBool (is_clearing s));
                         ("files", JArr (map JStr (x :: l))) ]))
          true ]
  | _ => []
  end.

(** The configurations that [setup_ha_discovery] publishes. *)
Definition discovery_messages (h : MQTTHandler) : list message :=
  skipn (List.length (published h)) (published (setup_ha_discovery h)).

(** The topic a configuration tells Home Assistant to listen on. *)
Definition state_topic_of (m : message) : option string :=
  match body m with
  | Dumps (JObj fields) =>
      match py_lookup fields "state_topic" with
      | Some (JStr t) => Some t
      | _ => None
      end
  | _ => None
  end.

(** The configuration reads a field of the JSON text on its topic. *)
Definition reads_a_field (m : message) : bool :=
  match body m with
  | Dumps (JObj fields) =>
      match py_lookup fields "value_template" with
      | Some _ => true
      | None => false
      end
  | _ => false
  end.

(* ================================================================== *)
(** * Properties *)

(** ** Control plane *)

Lemma st_update_mqtt_state (w : world) : st (_update_mqtt_state w) = st w.
Proof. unfold _update_mqtt_state. destruct (mqtt_enabled w); reflexivity. Qed.

Lemma notifications_update_mqtt_state (w : world) :
  notifications (_update_mqtt_state w) = notifications w.
Proof. unfold _update_mqtt_state. destruct (mqtt_enabled w); reflexivity. Qed.

Lemma st_stop_execution (w : world) : st (stop_execution w) = stopped_state.
Proof. unfold stop_execution. rewrite st_update_mqtt_state. reflexivity. Qed.

Lemma notifications_stop_execution (w : world) :
  notifications (stop_execution w) = S (notifications w).
Proof.
  unfold stop_execution. rewrite notifications_update_mqtt_state. reflexivity.
Qed.

(** C10: [stop_execution] is a total function of the world; whatever the
    state it is called in, it leaves [stop_requested] true,
    [pause_requested] false, the current file, progress, playlist and index
    [None] and [is_clearing] false; a second call leaves the same state;
    each call notifies the waiters of the condition once. *)
Theorem stop_execution_idempotent (w : world) :
  st (stop_execution w) = stopped_state
  /\ st (stop_execution (stop_execution w)) = st (stop_execution w)
  /\ notifications (stop_execution w) = S (notifications w)
  /\ notifications (stop_execution (stop_execution w))
     = S (notifications (stop_execution w)).
Proof.
  repeat split.
  - apply st_stop_execution.
  - now rewrite !st_stop_execution.
  - apply notifications_stop_execution.
  - apply notifications_stop_execution.
Qed.

(** ** The schedule gate *)

Lemma time_compare_refl (t : time_of_day) : time_compare t t = Eq.
Proof. unfold time_compare. now rewrite !Nat.compare_refl. Qed.

(** The window is half open: its start is inside, its end is not. *)
Lemma within_bounds (a b : time_of_day) :
  time_lt a b = true -> within (a, b) a = true /\ within (a, b) b = false.
Proof.
  unfold within, time_le, time_lt. simpl. intros H.
  rewrite !(time_compare_refl). rewrite H.
  destruct (time_compare a b); try discriminate. auto.
Qed.

(** On times of day with minutes and seconds below 60 and microseconds
    below a million, the order is that of the microseconds since midnight. *)
Lemma time_compare_microseconds (a b : time_of_day) :
  minute a < 60 -> second a < 60 -> (N.of_nat (microsecond a) < 1000000)%N ->
  minute b < 60 -> second b < 60 -> (N.of_nat (microsecond b) < 1000000)%N ->
  time_compare a b = N.compare (microseconds a) (microseconds b).
Proof.
  intros Ha1 Ha2 Ha3 Hb1 Hb2 Hb3. unfold time_compare, microseconds, then_compare.
  symmetry.
  destruct (Nat.compare_spec (hour a) (hour b));
    [destruct (Nat.compare_spec (minute a) (minute b));
     [destruct (Nat.compare_spec (second a) (second b));
      [destruct (Nat.compare_spec (microsecond a) (microsecond b)) | |] | |] | |];
    first [ apply N.compare_eq_iff | apply N.compare_lt_iff
          | apply N.compare_gt_iff ]; lia.
Qed.

(** C9: without a window [schedule_checker] changes nothing; with one,
    [pause_requested] is false after the call when the time of day is in
    the half-open window (and the waiters have been notified), true when it
    is outside; a second call at the same time leaves the same flag. *)
Theorem schedule_checker_gate (w : world) (window : time_of_day * time_of_day) :
  let w' := schedule_checker (Some window) w in
  schedule_checker None w = w
  /\ pause_requested (st w') = negb (within window (clock w))
  /\ notifications w'
     = (if within window (clock w) then S (notifications w) else notifications w)
  /\ clock w' = clock w
  /\ pause_requested (st (schedule_checker (Some window) w'))
     = pause_requested (st w').
Proof.
  assert (Hclock : forall v, clock (schedule_checker (Some window) v) = clock v).
  { intros v. unfold schedule_checker.
    destruct (within window (clock v)); reflexivity. }
  assert (Hflag : forall v, pause_requested (st (schedule_checker (Some window) v))
                            = negb (within window (clock v))).
  { intros v. unfold schedule_checker.
    destruct (within window (clock v)); reflexivity. }
  cbv zeta. repeat split.
  - apply Hflag.
  - unfold schedule_checker. destruct (within window (clock w)); reflexivity.
  - apply Hclock.
  - now rewrite !Hflag, Hclock.
Qed.

(** ** Text *)

Lemma split_lstrip (s : string) : PyStr.split (PyStr.lstrip s) = PyStr.split s.
Proof.
  induction s as [| c r IH]; simpl; [reflexivity |].
  destruct (PyStr.is_space c) eqn:Hc; [exact IH |].
  simpl. now rewrite Hc.
Qed.

Lemma rstrip_head (s : string) (a : ascii) (x : string) :
  PyStr.rstrip s = String a x -> exists y, s = String a y.
Proof.
  destruct s as [| c r]; simpl; [discriminate |].
  destruct (PyStr.rstrip r); [destruct (PyStr.is_space c) |];
    intros H; inversion H; subst; eauto.
Qed.

Lemma push_same_head (c : ascii) (r r' : string) (ts : list string) :
  (forall a x, r' = String a x -> exists y, r = String a y) ->
  r' <> EmptyString ->
  PyStr.push c r' ts = PyStr.push c r ts.
Proof.
  intros Hhead Hne. destruct r' as [| a x]; [congruence |].
  destruct (Hhead a x eq_refl) as [y ->]. reflexivity.
Qed.

Lemma split_rstrip (s : string) : PyStr.split (PyStr.rstrip s) = PyStr.split s.
Proof.
  induction s as [| c r IH]; simpl; [reflexivity |].
  destruct (PyStr.rstrip r) as [| a x] eqn:Hr.
  - simpl in IH. rewrite <- IH.
    destruct (PyStr.is_space c) eqn:Hc; simpl; rewrite ?Hc; [reflexivity |].
    destruct r; reflexivity.
  - rewrite <- IH.
    change (PyStr.split (String c (String a x)))
      with (if PyStr.is_space c then PyStr.split (String a x)
            else PyStr.push c (String a x) (PyStr.split (String a x))).
    destruct (PyStr.is_space c); [reflexivity |].
    apply push_same_head.
    + intros a' x' H'. apply (rstrip_head r a' x'). now rewrite Hr.
    + discriminate.
Qed.

Lemma split_strip (s : string) : PyStr.split (PyStr.strip s) = PyStr.split s.
Proof. unfold PyStr.strip. now rewrite split_lstrip, split_rstrip. Qed.

Lemma split_of_empty_strip (s : string) :
  PyStr.is_empty (PyStr.strip s) = true -> PyStr.split s = [].
Proof.
  intros H. rewrite <- split_strip. destruct (PyStr.strip s); [reflexivity | discriminate].
Qed.

Lemma startswith_hash (s : string) :
  PyStr.startswith s "#" = true -> exists r, s = String "#" r.
Proof.
  unfold PyStr.startswith. destruct s as [| c r]; [discriminate |].
  cbn [String.prefix].
  destruct (ascii_dec "#" c) as [<- | Hne]; [eauto | discriminate].
Qed.

Lemma startswith_hash_intro (t : string) :
  PyStr.startswith (String "#" t) "#" = true.
Proof.
  unfold PyStr.startswith. cbn [String.prefix].
  destruct (ascii_dec "#" "#"); [destruct t; reflexivity | congruence].
Qed.

Lemma split_hash_head (r : string) :
  exists t ts, PyStr.split (String "#" r) = String "#" t :: ts.
Proof.
  simpl. change (PyStr.is_space "#") with false. cbv iota.
  unfold PyStr.push. destruct r as [| c' r'].
  - eauto.
  - destruct (PyStr.split (String c' r')) as [| t ts]; [eauto |].
    destruct (PyStr.is_space c'); eauto.
Qed.

(** ** The parser *)

Lemma sub_diag_finite (x : float) :
  PrimFloat.is_finite x = true -> PrimFloat.sub x x = PrimFloat.zero.
Proof.
  intros Hfin. apply Prim2SF_inj. rewrite sub_spec.
  unfold PrimFloat.is_finite, PrimFloat.is_nan, PrimFloat.is_infinity in Hfin.
  rewrite !eqb_spec, abs_spec in Hfin.
  change (Prim2SF PrimFloat.infinity) with (S754_infinity false) in Hfin.
  change (Prim2SF PrimFloat.zero) with (S754_zero false).
  destruct (Prim2SF x) as [s | s | | s m e]; simpl in *.
  - destruct s; reflexivity.
  - destruct s; discriminate.
  - discriminate.
  - unfold SF64sub, SFsub.
    rewrite Z.min_id. unfold shl_align. rewrite Z.sub_diag. simpl.
    destruct s; simpl; rewrite ?Z.add_opp_diag_l, ?Z.add_opp_diag_r; reflexivity.
Qed.

Lemma is_blank_split (line : string) : is_blank line = true -> PyStr.split line = [].
Proof.
  induction line as [| c r IH]; simpl; [reflexivity |].
  intros H. apply andb_true_iff in H as [Hc Hr]. rewrite Hc. auto.
Qed.

Section ParserFacts.

Variable to_float : string -> option float.

(** No float literal starts with [#]. *)
Hypothesis no_hash : forall tok, PyStr.startswith tok "#" = true -> to_float tok = None.

Lemma comment_not_valid (r : string) :
  two_float_tokens to_float (String "#" r) = None.
Proof.
  unfold two_float_tokens.
  destruct (split_hash_head r) as (t & ts & ->).
  rewrite (no_hash (String "#" t)) by apply startswith_hash_intro.
  destruct ts as [| b [| c ts]]; reflexivity.
Qed.

Lemma unpack_is_two_float_tokens (line : string) :
  unpack_two_floats to_float (PyStr.split line) = two_float_tokens to_float line.
Proof.
  unfold two_float_tokens, unpack_two_floats.
  destruct (PyStr.split line) as [| a [| b [| c ts]]]; try reflexivity;
    destruct (to_float a); try reflexivity;
    destruct (to_float b); reflexivity.
Qed.

Lemma parse_line_spec (coordinates : list point) (line : string) :
  parse_line to_float coordinates line
  = coordinates ++ match two_float_tokens to_float line with
                   | Some p => [p]
                   | None => []
                   end.
Proof.
  unfold parse_line.
  destruct (PyStr.is_empty (PyStr.strip line)) eqn:Hempty; simpl.
  { unfold two_float_tokens. rewrite (split_of_empty_strip line Hempty).
    now rewrite app_nil_r. }
  destruct (PyStr.startswith (PyStr.strip line) "#") eqn:Hhash.
  { destruct (startswith_hash _ Hhash) as [r Hr].
    unfold two_float_tokens. rewrite <- split_strip, Hr.
    fold (two_float_tokens to_float (String "#" r)).
    now rewrite comment_not_valid, app_nil_r. }
  rewrite split_strip, unpack_is_two_float_tokens.
  destruct (two_float_tokens to_float line) as [[theta rho] |];
    [reflexivity | now rewrite app_nil_r].
Qed.

Lemma fold_parse_line (lines : list string) (coordinates : list point) :
  fold_left (parse_line to_float) lines coordinates
  = coordinates ++ valid_points to_float lines.
Proof.
  revert coordinates. induction lines as [| l ls IH]; intros acc; simpl.
  - now rewrite app_nil_r.
  - rewrite IH, parse_line_spec. now rewrite <- app_assoc.
Qed.

Lemma read_coordinates_spec (lines : list string) :
  read_coordinates to_float lines = valid_points to_float lines.
Proof. unfold read_coordinates. now rewrite fold_parse_line. Qed.

Lemma valid_points_length (lines : list string) :
  List.length (valid_points to_float lines)
  = List.length (filter (is_valid to_float) lines).
Proof.
  induction lines as [| l ls IH]; simpl; [reflexivity |].
  unfold is_valid. rewrite length_app.
  destruct (two_float_tokens to_float l); simpl; now rewrite IH.
Qed.

Lemma valid_points_of_valid (lines : list string) :
  valid_points to_float (filter (is_valid to_float) lines)
  = valid_points to_float lines.
Proof.
  induction lines as [| l ls IH]; simpl; [reflexivity |].
  unfold is_valid at 1. destruct (two_float_tokens to_float l) eqn:Hl; simpl.
  - now rewrite Hl, IH.
  - exact IH.
Qed.

End ParserFacts.

Lemma normalize_length (coordinates : list point) :
  List.length (normalize coordinates) = List.length coordinates.
Proof.
  destruct coordinates as [| [t r] l]; [reflexivity |].
  unfold normalize. now rewrite length_map.
Qed.

Lemma normalize_map (coordinates : list point) :
  normalize coordinates
  = map (shift_theta (fst (hd origin coordinates))) coordinates.
Proof. destruct coordinates as [| [t r] l]; reflexivity. Qed.

(** C6: for a file read to its end, the parser returns (it is a total
    function: nothing is raised) the points of the valid lines, one per
    valid line and in the order of the lines, shifted by the
    normalization; the other lines, malformed, blank or comments, can be
    dropped from the file without changing the result, and blank lines and
    lines starting with [#] are never valid. *)
Theorem parse_keeps_valid_lines
    (to_float : string -> option float)
    (no_hash : forall tok, PyStr.startswith tok "#" = true -> to_float tok = None)
    (lines : list string) :
  parse_theta_rho_file to_float (Text lines)
  = normalize (valid_points to_float lines)
  /\ List.length (parse_theta_rho_file to_float (Text lines))
     = List.length (filter (is_valid to_float) lines)
  /\ parse_theta_rho_file to_float (Text (filter (is_valid to_float) lines))
     = parse_theta_rho_file to_float (Text lines)
  /\ (forall line, is_blank line = true \/ is_comment line = true ->
                   is_valid to_float line = false).
Proof.
  simpl. rewrite !(read_coordinates_spec to_float no_hash).
  repeat split.
  - rewrite normalize_length. apply valid_points_length.
  - now rewrite valid_points_of_valid.
  - intros line [Hblank | Hcomment]; unfold is_valid.
    + unfold two_float_tokens. now rewrite (is_blank_split line Hblank).
    + destruct (startswith_hash _ Hcomment) as [r ->].
      now rewrite (comment_not_valid to_float no_hash).
Qed.

Lemma float_of_literal_no_hash (tok : string) :
  PyStr.startswith tok "#" = true -> PyFloat.float_of_literal tok = None.
Proof.
  intros H. destruct (startswith_hash tok H) as [r ->]. reflexivity.
Qed.

Lemma parse_keeps_valid_lines_witness :
  let lines := ["# theta rho"; "1 0.5"; "oops"; ""; " 2.5 0.25 "; "1 2 3"; "#4 5"] in
  parse_theta_rho_file PyFloat.float_of_literal (Text lines)
  = normalize (valid_points PyFloat.float_of_literal lines)
  /\ List.length (parse_theta_rho_file PyFloat.float_of_literal (Text lines))
     = List.length (filter (is_valid PyFloat.float_of_literal) lines)
  /\ parse_theta_rho_file PyFloat.float_of_literal
       (Text (filter (is_valid PyFloat.float_of_literal) lines))
     = parse_theta_rho_file PyFloat.float_of_literal (Text lines)
  /\ (forall line, is_blank line = true \/ is_comment line = true ->
                   is_valid PyFloat.float_of_literal line = false).
Proof.
  exact (parse_keeps_valid_lines PyFloat.float_of_literal float_of_literal_no_hash
           ["# theta rho"; "1 0.5"; "oops"; ""; " 2.5 0.25 "; "1 2 3"; "#4 5"]).
Defined.

(** The same file, evaluated: two points, from the two valid lines. *)
Example parse_example :
  parse_theta_rho_file PyFloat.float_of_literal
    (Text ["# theta rho"; "1 0.5"; "oops"; ""; " 2.5 0.25 "; "1 2 3"; "#4 5"])
  = [(0%float, 0.5%float); (1.5%float, 0.25%float)].
Proof. vm_compute. reflexivity. Qed.

(** C5, as amended: for a file read to its end, every point of the
    returned pattern is the point read from the file with the first raw
    theta subtracted from its theta (binary64 subtraction) and its rho
    unchanged; the number and the order of the points are those read; and
    point 0 has theta exactly 0 when the first raw theta is finite. *)
Theorem normalization_shifts_theta
    (to_float : string -> option float) (lines : list string) :
  let raw := read_coordinates to_float lines in
  let pattern := parse_theta_rho_file to_float (Text lines) in
  let first_theta := fst (hd origin raw) in
  pattern = map (shift_theta first_theta) raw
  /\ List.length pattern = List.length raw
  /\ map snd pattern = map snd raw
  /\ (raw <> [] -> PrimFloat.is_finite first_theta = true ->
      fst (hd origin pattern) = PrimFloat.zero).
Proof.
  cbv zeta. simpl parse_theta_rho_file.
  set (raw := read_coordinates to_float lines).
  rewrite normalize_map. repeat split.
  - now rewrite length_map.
  - rewrite map_map. apply map_ext. intros [t r]. reflexivity.
  - intros Hne Hfin. destruct raw as [| [t r] l]; [congruence |].
    simpl in *. now apply sub_diag_finite.
Qed.

Lemma normalization_shifts_theta_witness :
  let to_float := PyFloat.float_of_literal in
  let lines := ["3.5 0.5"; "4 0.25"; "2.25 1"] in
  let raw := read_coordinates to_float lines in
  let pattern := parse_theta_rho_file to_float (Text lines) in
  raw = [(3.5%float, 0.5%float); (4%float, 0.25%float); (2.25%float, 1%float)]
  /\ pattern = [(0%float, 0.5%float); (0.5%float, 0.25%float); ((-1.25)%float, 1%float)]
  /\ fst (hd origin pattern) = PrimFloat.zero.
Proof.
  cbv zeta. split; [vm_compute; reflexivity |]. split; [vm_compute; reflexivity |].
  apply (normalization_shifts_theta PyFloat.float_of_literal
           ["3.5 0.5"; "4 0.25"; "2.25 1"]).
  - vm_compute. discriminate.
  - vm_compute. reflexivity.
Defined.

(** C5 as stated fails on two kinds of files.  A first theta that is
    infinite (or not a number) is read by [float] and subtracted from
    itself, which gives a NaN, not 0; and when the read fails part-way the
    points read so far are returned unshifted. *)
Lemma normalization_counterexample :
  parse_theta_rho_file PyFloat.float_of_literal (Text ["inf 0.5"; "1 0.25"])
  = [(PrimFloat.nan, 0.5%float); (PrimFloat.neg_infinity, 0.25%float)]
  /\ PrimFloat.eqb PrimFloat.nan PrimFloat.zero = false
  /\ parse_theta_rho_file PyFloat.float_of_literal (ReadError ["1 0.5"; "2 0.25"])
     = [(1%float, 0.5%float); (2%float, 0.25%float)]
  /\ PrimFloat.eqb 1%float PrimFloat.zero = false.
Proof. repeat split; vm_compute; reflexivity. Qed.

(** ** What the control plane and the other threads leave alone *)

Lemma transport_calls_app (t u : list event) :
  transport_calls (t ++ u) = transport_calls t ++ transport_calls u.
Proof. apply filter_app. Qed.

Lemma transport_calls_log (e : event) (w : world) :
  transport_calls (trace (log e w))
  = transport_calls (trace w) ++ (if is_transport e then [e] else []).
Proof. simpl. rewrite transport_calls_app. simpl. now destruct (is_transport e). Qed.

Lemma undisturbed_refl (w : world) : undisturbed w w.
Proof. now split. Qed.

Lemma undisturbed_trans (w1 w2 w3 : world) :
  undisturbed w1 w2 -> undisturbed w2 w3 -> undisturbed w1 w3.
Proof. intros [] []; split; congruence. Qed.

Lemma undisturbed_with_st (f : ExecutionState -> ExecutionState) (w : world) :
  undisturbed w (with_st f w).
Proof. now split. Qed.

Lemma undisturbed_update_mqtt_state (w : world) : undisturbed w (_update_mqtt_state w).
Proof.
  unfold _update_mqtt_state. destruct (mqtt_enabled w); [| apply undisturbed_refl].
  split; try reflexivity. rewrite transport_calls_log. simpl. apply app_nil_r.
Qed.

Lemma undisturbed_notify_all (w : world) : undisturbed w (notify_all w).
Proof. now split. Qed.

Create HintDb undisturbed.

#[local] Hint Resolve undisturbed_refl undisturbed_with_st undisturbed_update_mqtt_state
  undisturbed_notify_all : undisturbed.

Ltac chain_undisturbed :=
  repeat (first [ apply undisturbed_refl
                | eapply undisturbed_trans; [| solve [auto with undisturbed] ] ]).

Lemma undisturbed_stop_execution (w : world) : undisturbed w (stop_execution w).
Proof. unfold stop_execution. chain_undisturbed. Qed.

Lemma undisturbed_pause_execution (w : world) : undisturbed w (pause_execution w).
Proof. unfold pause_execution. chain_undisturbed. Qed.

Lemma undisturbed_resume_execution (w : world) : undisturbed w (resume_execution w).
Proof. unfold resume_execution. chain_undisturbed. Qed.

Lemma undisturbed_schedule_checker (s : schedule) (w : world) :
  undisturbed w (schedule_checker s w).
Proof.
  destruct s as [window |]; simpl; [| apply undisturbed_refl].
  destruct (within window (clock w)); split; try reflexivity.
  simpl. rewrite transport_calls_app. simpl. apply app_nil_r.
Qed.

Lemma undisturbed_waiter (k : nat) (w : world) :
  undisturbed w (wait_for_start_time_iteration k w).
Proof.
  unfold wait_for_start_time_iteration.
  destruct (nth_error (waiters w) k); [| apply undisturbed_refl].
  destruct (pause_requested (st w)); [destruct (within p (clock w)) |];
    now split.
Qed.

Lemma undisturbed_act (a : activity) (w : world) : undisturbed w (act w a).
Proof.
  destruct a; simpl.
  - apply undisturbed_stop_execution.
  - apply undisturbed_pause_execution.
  - apply undisturbed_resume_execution.
  - split; try reflexivity. rewrite transport_calls_log. apply app_nil_r.
  - now split.
  - apply undisturbed_waiter.
Qed.

Lemma undisturbed_acts (acts : list activity) (w : world) :
  undisturbed w (fold_left act acts w).
Proof.
  revert w. induction acts as [| a l IH]; intros w; simpl.
  - apply undisturbed_refl.
  - eapply undisturbed_trans; [apply undisturbed_act | apply IH].
Qed.

Lemma undisturbed_preempt (w : world) : undisturbed w (preempt w).
Proof.
  unfold preempt. destruct (interference w) as [| acts later].
  - apply undisturbed_refl.
  - eapply undisturbed_trans; [| apply undisturbed_acts]. now split.
Qed.

Lemma undisturbed_begin_run (path : string) (w : world) :
  undisturbed w (begin_run path w).
Proof. unfold begin_run. chain_undisturbed. Qed.

Lemma undisturbed_clear_current (w : world) : undisturbed w (clear_current w).
Proof.
  unfold clear_current.
  eapply undisturbed_trans; [| apply undisturbed_update_mqtt_state].
  eapply undisturbed_trans; [| apply undisturbed_with_st].
  eapply undisturbed_trans; [| apply undisturbed_preempt].
  apply undisturbed_with_st.
Qed.

(** No other thread sets the current file. *)
Lemma file_cleared_act (a : activity) (w : world) :
  current_playing_file (st w) = None ->
  current_playing_file (st (act w a)) = None.
Proof.
  intros H. destruct a; cbn [act].
  - now rewrite st_stop_execution.
  - unfold pause_execution. now rewrite st_update_mqtt_state.
  - unfold resume_execution. now rewrite st_update_mqtt_state.
  - exact H.
  - exact H.
  - unfold wait_for_start_time_iteration.
    destruct (nth_error (waiters w) k); [| exact H].
    destruct (pause_requested (st w)); [destruct (within p (clock w)) |];
      exact H.
Qed.

Lemma file_cleared_acts (acts : list activity) :
  forall w, current_playing_file (st w) = None ->
            current_playing_file (st (fold_left act acts w)) = None.
Proof.
  induction acts as [| a l IH]; intros w H; [exact H |].
  cbn [fold_left]. apply IH. now apply file_cleared_act.
Qed.

Lemma file_cleared_preempt (w : world) :
  current_playing_file (st w) = None ->
  current_playing_file (st (preempt w)) = None.
Proof.
  intros H. unfold preempt. destruct (interference w) as [| acts later];
    [exact H |].
  now apply file_cleared_acts.
Qed.

Lemma st_clear_current (w : world) :
  current_playing_file (st (clear_current w)) = None
  /\ execution_progress (st (clear_current w)) = None.
Proof.
  unfold clear_current. rewrite st_update_mqtt_state. split; [| reflexivity].
  cbn [st with_st current_playing_file set_execution_progress].
  change (current_playing_file
            (st (preempt (with_st (set_current_playing_file None) w))) = None).
  now apply file_cleared_preempt.
Qed.

(** ** Rejected runs *)

(** What the code holds of C7: a file that is missing or cannot be
    opened, or whose read fails before a line was read, parses to the
    empty pattern (the parser is a total function: nothing is raised); and
    a run on a file that yields fewer than two points returns without any
    call on the transport, the current file and the progress being [None]
    when it returns, whatever the other threads do meanwhile. *)
Theorem short_pattern_rejected
    (to_float : string -> option float) (fuel : nat) (file_path : string)
    (schedule_hours : schedule) (w : world) :
  parse_theta_rho_file to_float NotFound = []
  /\ parse_theta_rho_file to_float OpenError = []
  /\ parse_theta_rho_file to_float (ReadError []) = []
  /\ (List.length (parse_theta_rho_file to_float (files w file_path)) < 2 ->
      exists w',
        run_theta_rho_file to_float fuel file_path schedule_hours w = Ret tt w'
        /\ transport_calls (trace w') = transport_calls (trace w)
        /\ current_playing_file (st w') = None
        /\ execution_progress (st w') = None).
Proof.
  do 3 (split; [reflexivity |]). intros Hshort.
  unfold run_theta_rho_file.
  set (w1 := preempt (begin_run file_path w)).
  assert (H1 : undisturbed w w1).
  { eapply undisturbed_trans; [apply undisturbed_begin_run | apply undisturbed_preempt]. }
  rewrite (same_files _ _ H1).
  apply Nat.ltb_lt in Hshort. rewrite Hshort.
  exists (clear_current w1). split; [reflexivity |]. split.
  - rewrite (same_calls _ _ (undisturbed_clear_current w1)). apply (same_calls _ _ H1).
  - apply st_clear_current.
Qed.

(** ** The batch handshake, with nobody interfering *)

Lemma eqb_R_false (r : string) : r <> "R" -> String.eqb r "R" = false.
Proof. apply String.eqb_neq. Qed.

Ltac unfold_world :=
  unfold log, notify_all, with_st, with_notifications, with_waiters, with_trace,
    with_clock, with_device, with_faults, with_interference, with_entropy in *;
  simpl in *.

Ltac run_step :=
  unfold bind, ret, step, send_command, send_coordinate_batch, reset_theta, sleep,
    next_fault, next_reply, preempt; simpl; unfold_world.

(** One poll answered by something else than ["R"]: the poll is recorded,
    the reply is consumed, nothing else changes, and the loop goes on. *)
Lemma handshake_retry (fuel : nat) (batch : list point) (i total : nat)
    (s : ExecutionState) (n : nat) (ws : list (time_of_day * time_of_day))
    (m : bool) (t : list event) (c : time_of_day) (f : string -> file_outcome)
    (r : string) (d : list string) (e : list nat) :
  r <> "R" ->
  handshake (S fuel) None batch i total (mkWorld s n ws m t c f (r :: d) [] [] e)
  = handshake fuel None batch i total
      (mkWorld s n ws m (t ++ [SendCommand "R" r]) c f d [] [] e).
Proof.
  intros Hr. cbn [handshake]. run_step.
  now rewrite (eqb_R_false r Hr).
Qed.

Lemma handshake_quiet (batch : list point) (i total : nat)
    (pre : list string) :
  forall (fuel : nat) (s : ExecutionState) (n : nat)
         (ws : list (time_of_day * time_of_day)) (m : bool) (t : list event)
         (c : time_of_day) (f : string -> file_outcome) (rest : list string)
         (e : list nat),
    Forall (fun r => r <> "R") pre ->
    List.length pre < fuel ->
    handshake fuel None batch i total
      (mkWorld s n ws m t c f (pre ++ "R" :: rest) [] [] e)
    = Ret tt
        (mkWorld (set_execution_progress (Some (i + batch_size, total)) s) n ws m
           (t ++ map (SendCommand "R") pre ++ [SendCommand "R" "R"; SendBatch batch])
           c f rest [] [] e).
Proof.
  induction pre as [| r pre IH]; intros fuel s n ws m t c f rest e Hpre Hfuel.
  - destruct fuel as [| fuel]; [simpl in Hfuel; lia |].
    cbn [handshake]. run_step. now rewrite <- app_assoc.
  - destruct fuel as [| fuel]; [simpl in Hfuel; lia |].
    inversion Hpre as [| ? ? Hr Hpre']; subst.
    simpl app. rewrite handshake_retry by assumption.
    rewrite IH by (simpl in Hfuel; auto; lia).
    simpl. now rewrite <- app_assoc.
Qed.

Section Quiet.

Variables (coordinates : list point) (total : nat).
Variables (n : nat) (ws : list (time_of_day * time_of_day)) (m : bool)
  (c : time_of_day) (f : string -> file_outcome) (e : list nat).

Let quiet := quiet_world n ws m c f e.

Lemma first_batch_quiet (fuel : nat) (later : list nat)
    (s : ExecutionState) (t : list event) (d : list string) :
  stop_requested s = false -> pause_requested s = false ->
  stream_batches (S fuel) None coordinates total (0 :: later) (quiet s t d)
  = stream_batches (S fuel) None coordinates total later
      (quiet (set_execution_progress (Some (batch_size, total)) s)
         (t ++ [SendBatch (slice coordinates 0 batch_size)]) d).
Proof.
  intros Hstop Hpause. cbn [stream_batches]. unfold quiet, quiet_world. run_step.
  rewrite Hstop, Hpause. reflexivity.
Qed.

Lemma next_batch_quiet (fuel i : nat) (later : list nat)
    (s : ExecutionState) (t : list event) (pre rest : list string) :
  stop_requested s = false -> pause_requested s = false ->
  i <> 0 ->
  Forall (fun r => r <> "R") pre -> List.length pre < S fuel ->
  stream_batches (S fuel) None coordinates total (i :: later)
    (quiet s t (pre ++ "R" :: rest))
  = stream_batches (S fuel) None coordinates total later
      (quiet (set_execution_progress (Some (i + batch_size, total)) s)
         (t ++ map (SendCommand "R") pre
            ++ [SendCommand "R" "R"; SendBatch (slice coordinates i (i + batch_size))])
         rest).
Proof.
  intros Hstop Hpause Hi Hpre Hfuel. cbn [stream_batches]. unfold quiet, quiet_world.
  unfold preempt; cbn [interference]. cbn [st]. rewrite Hstop.
  unfold bind at 1. cbn [pause_gate st]. rewrite Hpause.
  apply Nat.eqb_neq in Hi. rewrite Hi.
  unfold bind at 1. rewrite handshake_quiet by assumption. reflexivity.
Qed.

(** The end of the [try] block. *)
Lemma finish_quiet (s : ExecutionState) (t : list event) (d : list string) :
  (reset_theta ;; _ <- send_command "FINISHED" ;; ret tt)%run (quiet s t d)
  = Ret tt (quiet s (t ++ [ResetTheta; SendCommand "FINISHED" (hd EmptyString d)])
              (tl d)).
Proof.
  unfold quiet, quiet_world. run_step.
  destruct d as [| r d']; simpl; now rewrite <- app_assoc.
Qed.

End Quiet.

(** ** The batch handshake on 25 points *)

Lemma transport_calls_polls (replies : list string) :
  transport_calls (map (SendCommand "R") replies) = map (SendCommand "R") replies.
Proof. induction replies as [| r l IH]; simpl; [reflexivity | now rewrite IH]. Qed.

(** C1: a pattern of 25 points, run with no other thread acting, no
    schedule and no transport failure, on a device that answers the polls
    with [pre1] (none of them ["R"]), then ["R"], then [pre2] (none of them
    ["R"]), then ["R"]: the run returns, and the calls on the transport are
    exactly the first 10 points in one batch with no poll before it, the
    polls answered by [pre1], the poll answered ["R"] followed by the next
    10 points, the polls answered by [pre2], the poll answered ["R"]
    followed by the last 5 points, then the reset and ["FINISHED"].  A poll
    answered by anything else than ["R"] leaves the state (so the progress)
    as it is, sends no batch and is followed by another poll. *)
Theorem batch_handshake_25
    (to_float : string -> option float) (fuel : nat) (file_path : string)
    (w : world) (coordinates : list point) (pre1 pre2 rest : list string) :
  parse_theta_rho_file to_float (files w file_path) = coordinates ->
  List.length coordinates = 25 ->
  interference w = [] -> faults w = [] -> pause_requested (st w) = false ->
  device w = pre1 ++ "R" :: pre2 ++ "R" :: rest ->
  Forall (fun r => r <> "R") pre1 -> Forall (fun r => r <> "R") pre2 ->
  List.length pre1 < fuel -> List.length pre2 < fuel ->
  exists w',
    run_theta_rho_file to_float fuel file_path None w = Ret tt w'
    /\ transport_calls (trace w')
       = transport_calls (trace w)
         ++ [SendBatch (firstn 10 coordinates)]
         ++ map (SendCommand "R") pre1
         ++ [SendCommand "R" "R"; SendBatch (firstn 10 (skipn 10 coordinates))]
         ++ map (SendCommand "R") pre2
         ++ [SendCommand "R" "R"; SendBatch (skipn 20 coordinates)]
         ++ [ResetTheta; SendCommand "FINISHED" (hd EmptyString rest)]
    /\ (forall k batch i total n ws m c f e s t r d,
          r <> "R" ->
          handshake (S k) None batch i total (quiet_world n ws m c f e s t (r :: d))
          = handshake k None batch i total
              (quiet_world n ws m c f e s (t ++ [SendCommand "R" r]) d)).
Proof.
  intros Hparse Hlen Hintf Hfaults Hpause Hdev Hpre1 Hpre2 Hf1 Hf2.
  cut (exists w',
    run_theta_rho_file to_float fuel file_path None w = Ret tt w'
    /\ transport_calls (trace w')
       = transport_calls (trace w)
         ++ [SendBatch (firstn 10 coordinates)]
         ++ map (SendCommand "R") pre1
         ++ [SendCommand "R" "R"; SendBatch (firstn 10 (skipn 10 coordinates))]
         ++ map (SendCommand "R") pre2
         ++ [SendCommand "R" "R"; SendBatch (skipn 20 coordinates)]
         ++ [ResetTheta; SendCommand "FINISHED" (hd EmptyString rest)]).
  { intros (w' & Hrun & Hcalls). exists w'. split; [exact Hrun |].
    split; [exact Hcalls |].
    intros. now apply handshake_retry. }
  unfold run_theta_rho_file.
  assert (Hb : undisturbed w (begin_run file_path w)) by apply undisturbed_begin_run.
  assert (Hbi : interference (begin_run file_path w) = []).
  { unfold begin_run, _update_mqtt_state. destruct (mqtt_enabled _); simpl; assumption. }
  assert (Hbp : pause_requested (st (begin_run file_path w)) = false).
  { unfold begin_run. rewrite st_update_mqtt_state. simpl. assumption. }
  assert (Hbs : stop_requested (st (begin_run file_path w)) = false).
  { unfold begin_run. rewrite st_update_mqtt_state. reflexivity. }
  assert (Hpre : preempt (begin_run file_path w) = begin_run file_path w).
  { unfold preempt. now rewrite Hbi. }
  rewrite Hpre. clear Hpre. destruct Hb as [Hfiles Hdevice Hflt Hcalls].
  rewrite Hfiles, Hparse, Hlen. change (25 <? 2) with false. cbv iota.
  rewrite <- Hcalls. rewrite Hdev in Hdevice. rewrite Hfaults in Hflt.
  destruct (begin_run file_path w) as [s n ws m t c f d fl intf e].
  cbn [interference faults device st trace files] in *. subst d fl intf.
  destruct fuel as [| fuel]; [lia |].
  change (range_by 25 batch_size) with [0; 10; 20].
  unfold try_finally, bind at 1 2, step at 1.
  unfold with_st at 1.
  cbn [st notifications waiters mqtt_enabled trace clock files device faults
         interference entropy].
  fold (quiet_world n ws m c f e (set_execution_progress (Some (0, 25)) s) t
          (pre1 ++ "R" :: pre2 ++ "R" :: rest)).
  rewrite first_batch_quiet by assumption.
  rewrite next_batch_quiet by (try assumption; discriminate).
  rewrite next_batch_quiet by (try assumption; discriminate).
  cbn [stream_batches]. unfold ret at 1.
  rewrite finish_quiet.
  eexists. split; [reflexivity |].
  rewrite (same_calls _ _ (undisturbed_clear_current _)).
  unfold quiet_world; cbn [trace].
  rewrite !transport_calls_app, !transport_calls_polls.
  change (slice coordinates 0 batch_size) with (firstn 10 coordinates).
  change (slice coordinates 10 (10 + batch_size))
    with (firstn 10 (skipn 10 coordinates)).
  change (slice coordinates 20 (20 + batch_size))
    with (firstn 10 (skipn 20 coordinates)).
  rewrite (firstn_all2 (n := 10) (skipn 20 coordinates))
    by (rewrite length_skipn, Hlen; simpl; lia).
  simpl. rewrite <- !app_assoc. reflexivity.
Qed.

Lemma batch_handshake_25_witness :
  exists w',
    run_theta_rho_file PyFloat.float_of_literal 2 star_thr None
      (sample_world ["busy"; "R"; "R"] []) = Ret tt w'
    /\ transport_calls (trace w')
       = [SendBatch (firstn 10 star);
          SendCommand "R" "busy"; SendCommand "R" "R";
          SendBatch (firstn 10 (skipn 10 star));
          SendCommand "R" "R";
          SendBatch (skipn 20 star);
          ResetTheta; SendCommand "FINISHED" ""].
Proof.
  destruct (batch_handshake_25 PyFloat.float_of_literal 2 star_thr
              (sample_world ["busy"; "R"; "R"] []) star ["busy"] [] [])
    as (w' & Hrun & Hcalls & _).
  - reflexivity.
  - vm_compute. reflexivity.
  - reflexivity.
  - reflexivity.
  - reflexivity.
  - reflexivity.
  - repeat constructor. discriminate.
  - constructor.
  - simpl. lia.
  - simpl. lia.
  - exists w'. split; [exact Hrun | exact Hcalls].
Defined.

Lemma short_pattern_rejected_witness :
  exists w',
    run_theta_rho_file PyFloat.float_of_literal 2 "./patterns/gone.thr" None
      (sample_world [] [[CallPause]]) = Ret tt w'
    /\ transport_calls (trace w') = []
    /\ current_playing_file (st w') = None
    /\ execution_progress (st w') = None.
Proof.
  destruct (short_pattern_rejected PyFloat.float_of_literal 2 "./patterns/gone.thr"
              None (sample_world [] [[CallPause]])) as (_ & _ & _ & H).
  apply H. vm_compute. lia.
Defined.

(** C7 fails on the code, on a file whose read fails part-way.  The
    handler of [FileNotFoundError] returns the empty pattern and the run
    is rejected; the handler of the other exceptions returns the points
    read before the failure, as they are: here three points that start at
    theta 1, where the same lines read to their end give a pattern that
    starts at theta 0.  The run is not rejected: the three points are sent
    to the device, followed by the reset and ["FINISHED"]. *)
Theorem partial_read_is_streamed :
  let r := run_theta_rho_file PyFloat.float_of_literal 2 torn_thr None
             (sample_world [] []) in
  sample_files torn_thr = ReadError ["1 0.5"; "2 0.5"; "3 0.5"]
  /\ parse_theta_rho_file PyFloat.float_of_literal (sample_files torn_thr)
     = [(1%float, 0.5%float); (2%float, 0.5%float); (3%float, 0.5%float)]
  /\ parse_theta_rho_file PyFloat.float_of_literal
       (Text ["1 0.5"; "2 0.5"; "3 0.5"])
     = [(0%float, 0.5%float); (1%float, 0.5%float); (2%float, 0.5%float)]
  /\ parse_theta_rho_file PyFloat.float_of_literal NotFound = []
  /\ option_map (fun w => transport_calls (trace w)) (final_world r)
     = Some [SendBatch [(1%float, 0.5%float); (2%float, 0.5%float);
                        (3%float, 0.5%float)];
             ResetTheta; SendCommand "FINISHED" ""].
Proof. cbv zeta. repeat split; vm_compute; reflexivity. Qed.

(** ** Progress after the first batch *)

(** C3 fails on the code: the first batch sets the progress to
    [(batch_size, total)] whatever the total.  On the pattern of 5 points,
    a client that reads the status while the run is in [reset_theta], the
    call that follows the first batch, is shown the progress [(10, 5)]. *)
Theorem first_batch_progress_overshoots :
  let r := run_theta_rho_file PyFloat.float_of_literal 2 dot_thr None
             (sample_world [] [[]; []; []; [CallStatus]]) in
  option_map (fun w => transport_calls (trace w)) (final_world r)
  = Some [SendBatch dot; ResetTheta; SendCommand "FINISHED" ""]
  /\ List.length dot = 5
  /\ option_map (fun w => map execution_progress (snapshots (trace w))) (final_world r)
     = Some [Some (10, 5)].
Proof. cbv zeta. split; [| split]; vm_compute; reflexivity. Qed.

(** ** Stop and the handshake *)

(** Transport calls on a link that does not fail, whatever the other
    threads do meanwhile. *)
Lemma send_command_ok (command : string) (w : world) :
  faults w = [] ->
  send_command command w
  = Ret (hd EmptyString (device w))
      (log (SendCommand command (hd EmptyString (device w)))
         (with_device (tl (device w)) (preempt w))).
Proof.
  intros Hf. unfold send_command, next_fault, next_reply.
  destruct (undisturbed_preempt w) as [_ Hd Hfl _]. rewrite Hfl, Hf, Hd.
  destruct (device w) as [| r d] eqn:Hdev; simpl; [| reflexivity].
  f_equal. f_equal. unfold with_device. rewrite <- Hd.
  destruct (preempt w); reflexivity.
Qed.

Lemma send_coordinate_batch_ok (batch : list point) (w : world) :
  faults w = [] ->
  send_coordinate_batch batch w = Ret tt (log (SendBatch batch) (preempt w)).
Proof.
  intros Hf. unfold send_coordinate_batch, next_fault.
  destruct (undisturbed_preempt w) as [_ _ Hfl _]. now rewrite Hfl, Hf.
Qed.

(** The handshake never reads [stop_requested]: in any state, and whatever
    the other threads do (a call of [stop_execution] included), it polls
    until the device answers ["R"] and then sends the batch. *)
Lemma handshake_acknowledged (schedule_hours : schedule) (batch : list point)
    (i total : nat) (pre : list string) :
  forall (fuel : nat) (w : world) (rest : list string),
    faults w = [] ->
    device w = pre ++ "R" :: rest ->
    Forall (fun r => r <> "R") pre ->
    List.length pre < fuel ->
    exists w',
      handshake fuel schedule_hours batch i total w = Ret tt w'
      /\ transport_calls (trace w')
         = transport_calls (trace w)
           ++ map (SendCommand "R") pre ++ [SendCommand "R" "R"; SendBatch batch]
      /\ device w' = rest
      /\ faults w' = []
      /\ execution_progress (st w') = Some (i + batch_size, total).
Proof.
  induction pre as [| r pre IH]; intros fuel w rest Hf Hdev Hpre Hfuel;
    (destruct fuel as [| fuel]; [simpl in Hfuel; lia |]);
    cbn [handshake]; unfold bind at 1, step at 1;
    pose proof (undisturbed_schedule_checker schedule_hours w) as [_ Hd1 Hf1 Hc1];
    unfold bind at 1; rewrite send_command_ok by congruence;
    rewrite Hd1, Hdev; cbn [app hd tl].
  - change (String.eqb "R" "R") with true. cbv iota.
    set (w1 := log _ _).
    assert (Hw1 : faults w1 = [] /\ device w1 = rest
                  /\ transport_calls (trace w1)
                     = transport_calls (trace w) ++ [SendCommand "R" "R"]).
    { subst w1. destruct (undisturbed_preempt (schedule_checker schedule_hours w))
        as [_ _ Hf2 Hc2].
      repeat split.
      - simpl. congruence.
      - rewrite transport_calls_log. simpl.
        change (trace (with_device rest ?v)) with (trace v). congruence. }
    destruct Hw1 as (Hfw1 & Hdw1 & Hcw1).
    unfold bind. rewrite send_coordinate_batch_ok by assumption.
    eexists. split; [reflexivity |].
    destruct (undisturbed_preempt w1) as [_ Hd3 Hf3 Hc3].
    repeat split.
    + unfold step, with_st; cbn [trace]. rewrite transport_calls_log. simpl.
      rewrite Hc3, Hcw1. now rewrite <- app_assoc.
    + simpl. congruence.
    + simpl. congruence.
  - inversion Hpre as [| ? ? Hr Hpre']; subst.
    rewrite (eqb_R_false r Hr).
    set (w1 := log _ _).
    assert (Hw1 : faults w1 = [] /\ device w1 = pre ++ "R" :: rest
                  /\ transport_calls (trace w1)
                     = transport_calls (trace w) ++ [SendCommand "R" r]).
    { subst w1. destruct (undisturbed_preempt (schedule_checker schedule_hours w))
        as [_ _ Hf2 Hc2].
      repeat split.
      - simpl. congruence.
      - rewrite transport_calls_log. simpl.
        change (trace (with_device ?d ?v)) with (trace v). congruence. }
    destruct Hw1 as (Hfw1 & Hdw1 & Hcw1).
    destruct (IH fuel w1 rest Hfw1 Hdw1 Hpre') as (w' & Hrun & Hcalls & Hrest);
      [simpl in Hfuel; lia |].
    exists w'. split; [exact Hrun |]. split; [| exact Hrest].
    rewrite Hcalls, Hcw1. simpl. now rewrite <- app_assoc.
Qed.

(** C2, as amended: a stop requested while the runner is in the retry loop
    of a batch does not end that loop.  In any state and whatever the other
    threads do, the loop polls until the device answers ["R"] and then sends
    the batch; [stop_requested] is read at the top of the next iteration of
    the batch loop only, where the run leaves the loop without a further
    call on the transport. *)
Theorem stop_honoured_between_batches
    (schedule_hours : schedule) (coordinates : list point) (total i : nat)
    (later : list nat) (fuel : nat) (w : world) (pre rest : list string) :
  (faults w = [] ->
   device w = pre ++ "R" :: rest ->
   Forall (fun r => r <> "R") pre ->
   List.length pre < fuel ->
   exists w',
     handshake fuel schedule_hours (slice coordinates i (i + batch_size)) i total w
     = Ret tt w'
     /\ transport_calls (trace w')
        = transport_calls (trace w)
          ++ map (SendCommand "R") pre
          ++ [SendCommand "R" "R"; SendBatch (slice coordinates i (i + batch_size))])
  /\ (stop_requested (st (preempt w)) = true ->
      stream_batches fuel schedule_hours coordinates total (i :: later) w
      = Ret tt (preempt w)
      /\ transport_calls (trace (preempt w)) = transport_calls (trace w)).
Proof.
  split.
  - intros Hf Hdev Hpre Hfuel.
    destruct (handshake_acknowledged schedule_hours
                (slice coordinates i (i + batch_size)) i total pre fuel w rest
                Hf Hdev Hpre Hfuel) as (w' & Hrun & Hcalls & _).
    exists w'. split; assumption.
  - intros Hstop. split.
    + cbn [stream_batches]. now rewrite Hstop.
    + apply (same_calls _ _ (undisturbed_preempt w)).
Qed.

Lemma stop_honoured_between_batches_witness :
  stop_requested (st (stopped_world ["busy"; "R"] [])) = true
  /\ (exists w',
        handshake 2 None (slice star 10 (10 + batch_size)) 10 25
          (stopped_world ["busy"; "R"] []) = Ret tt w'
        /\ transport_calls (trace w')
           = transport_calls (trace (stopped_world ["busy"; "R"] []))
             ++ map (SendCommand "R") ["busy"]
             ++ [SendCommand "R" "R"; SendBatch (slice star 10 (10 + batch_size))])
  /\ stream_batches 2 None star 25 [20] (stopped_world ["busy"; "R"] [])
     = Ret tt (preempt (stopped_world ["busy"; "R"] [])).
Proof.
  pose proof (stop_honoured_between_batches None star 25 10 [] 2
                (stopped_world ["busy"; "R"] []) ["busy"] []) as [Hack _].
  pose proof (stop_honoured_between_batches None star 25 20 [] 2
                (stopped_world ["busy"; "R"] []) ["busy"] []) as [_ Hstop].
  split; [reflexivity |]. split.
  - apply Hack.
    + reflexivity.
    + reflexivity.
    + repeat constructor. discriminate.
    + simpl. lia.
  - apply Hstop. reflexivity.
Defined.

(** C2 as stated fails: on the pattern of 25 points, [stop_execution] is
    called while the runner is in the first poll for the second batch; the
    device answers that poll with ["busy"] and the next one with ["R"], and
    the second batch is sent all the same.  The run ends at the top of the
    next iteration. *)
Lemma stop_during_handshake_counterexample :
  option_map trace
    (final_world
       (run_theta_rho_file PyFloat.float_of_literal 3 star_thr None
          (sample_world ["busy"; "R"] [[]; []; []; []; [CallStop]])))
  = Some [StateReport (mkState false false (Some star_thr) (Some (0, 0)) None None false);
          SendBatch (firstn 10 star);
          StateReport stopped_state;
          SendCommand "R" "busy";
          SendCommand "R" "R";
          SendBatch (firstn 10 (skipn 10 star));
          ResetTheta;
          SendCommand "FINISHED" "";
          StateReport stopped_state].
Proof. vm_compute. reflexivity. Qed.

(** ** Progress and current file *)

Lemma preserves_ret {A : Type} (P : world -> Prop) (a : A) : preserves P (ret a).
Proof. intros w H. exact H. Qed.

Lemma preserves_bind {A B : Type} (P : world -> Prop) (m : M A) (k : A -> M B) :
  preserves P m -> (forall a, preserves P (k a)) -> preserves P (bind m k).
Proof.
  intros Hm Hk w Hw. unfold bind. specialize (Hm w Hw).
  destruct (m w) as [a w' | w' | w' |]; simpl in *; auto.
  now apply Hk.
Qed.

Lemma preserves_step (P : world -> Prop) (f : world -> world) :
  (forall w, P w -> P (f w)) -> preserves P (step f).
Proof. intros Hf w Hw. simpl. auto. Qed.

Lemma consistent_with_file (s : ExecutionState) :
  current_playing_file s <> None -> consistent s = true.
Proof.
  unfold consistent. destruct (execution_progress s), (current_playing_file s);
    congruence.
Qed.

Lemma playing_log (e : event) (w : world) :
  observation_ok e = true -> playing w -> playing (log e w).
Proof.
  intros He (Hi & Ht & Hf). repeat split; simpl; try assumption.
  rewrite forallb_app, Ht. simpl. now rewrite He.
Qed.

Lemma playing_with_st (f : ExecutionState -> ExecutionState) (w : world) :
  (forall s, current_playing_file (f s) = current_playing_file s) ->
  playing w -> playing (with_st f w).
Proof.
  intros Hf (Hi & Ht & Hfile). repeat split; simpl; try assumption.
  now rewrite Hf.
Qed.

Lemma playing_update_mqtt_state (w : world) :
  playing w -> playing (_update_mqtt_state w).
Proof.
  intros H. unfold _update_mqtt_state, get_execution_status.
  destruct (mqtt_enabled w); [| exact H].
  apply playing_log; [| exact H]. simpl.
  apply consistent_with_file. apply H.
Qed.

Lemma playing_notify_all (w : world) : playing w -> playing (notify_all w).
Proof. intros (Hi & Ht & Hf). repeat split; assumption. Qed.

Lemma playing_schedule_checker (s : schedule) (w : world) :
  playing w -> playing (schedule_checker s w).
Proof.
  intros H. destruct s as [window |]; simpl; [| exact H].
  destruct (within window (clock w)).
  - apply playing_notify_all. now apply playing_with_st.
  - apply playing_log; [reflexivity |].
    destruct H as (Hi & Ht & Hf). repeat split; assumption.
Qed.

Lemma playing_act (a : activity) (w : world) :
  is_stop a = false -> playing w -> playing (act w a).
Proof.
  intros Ha H. destruct a; simpl; try discriminate.
  - unfold pause_execution. apply playing_update_mqtt_state.
    now apply playing_with_st.
  - unfold resume_execution. apply playing_update_mqtt_state, playing_notify_all.
    now apply playing_with_st.
  - apply playing_log; [| exact H]. simpl. apply consistent_with_file. apply H.
  - destruct H as (Hi & Ht & Hf). repeat split; assumption.
  - unfold wait_for_start_time_iteration.
    destruct (nth_error (waiters w) k); [| exact H].
    destruct (pause_requested (st w)); [destruct (within p (clock w)) |];
      destruct H as (Hi & Ht & Hf); repeat split; assumption.
Qed.

Lemma playing_acts (acts : list activity) :
  forall w, forallb (fun a => negb (is_stop a)) acts = true ->
            playing w -> playing (fold_left act acts w).
Proof.
  induction acts as [| a l IH]; intros w Hall H; simpl; [exact H |].
  simpl in Hall. apply andb_true_iff in Hall as [Ha Hl].
  apply IH; [exact Hl |]. apply playing_act; [| exact H].
  now apply negb_true_iff.
Qed.

Lemma playing_preempt (w : world) : playing w -> playing (preempt w).
Proof.
  intros H. unfold preempt. destruct (interference w) as [| acts later] eqn:Hi;
    [exact H |].
  destruct H as (Hn & Ht & Hf). rewrite Hi in Hn. simpl in Hn.
  apply andb_true_iff in Hn as [Hacts Hlater].
  apply playing_acts; [exact Hacts |]. repeat split; assumption.
Qed.

Lemma playing_with_device (d : list string) (w : world) :
  playing w -> playing (with_device d w).
Proof. intros (Hi & Ht & Hf). repeat split; assumption. Qed.

Lemma playing_with_faults (l : list bool) (w : world) :
  playing w -> playing (with_faults l w).
Proof. intros (Hi & Ht & Hf). repeat split; assumption. Qed.

Lemma playing_next_fault (w : world) :
  playing w -> playing (snd (next_fault w)).
Proof.
  intros H. unfold next_fault. destruct (faults w); [exact H |].
  now apply playing_with_faults.
Qed.

Lemma playing_next_reply (w : world) :
  playing w -> playing (snd (next_reply w)).
Proof.
  intros H. unfold next_reply. destruct (device w); [exact H |].
  now apply playing_with_device.
Qed.

Lemma preserves_send_command (command : string) :
  preserves playing (send_command command).
Proof.
  intros w H. unfold send_command.
  pose proof (playing_next_fault _ (playing_preempt w H)) as Hf.
  destruct (next_fault (preempt w)) as [fails w1]. simpl in Hf.
  destruct fails; simpl.
  - now apply playing_log.
  - pose proof (playing_next_reply _ Hf) as Hr.
    destruct (next_reply w1) as [reply w2]. simpl in *. now apply playing_log.
Qed.

Lemma preserves_send_coordinate_batch (batch : list point) :
  preserves playing (send_coordinate_batch batch).
Proof.
  intros w H. unfold send_coordinate_batch.
  pose proof (playing_next_fault _ (playing_preempt w H)) as Hf.
  destruct (next_fault (preempt w)) as [fails w1]. simpl in Hf.
  destruct fails; simpl; now apply playing_log.
Qed.

Lemma preserves_reset_theta : preserves playing reset_theta.
Proof.
  intros w H. unfold reset_theta.
  pose proof (playing_next_fault _ (playing_preempt w H)) as Hf.
  destruct (next_fault (preempt w)) as [fails w1]. simpl in Hf.
  destruct fails; simpl; now apply playing_log.
Qed.

Lemma preserves_set_progress (p : option (nat * nat)) :
  preserves playing (step (with_st (set_execution_progress p))).
Proof. apply preserves_step. intros w H. now apply playing_with_st. Qed.

Lemma preserves_wait (fuel epoch : nat) : preserves playing (wait fuel epoch).
Proof.
  induction fuel as [| fuel IH]; intros w H; simpl; [exact I |].
  destruct (interference w) eqn:Hi; [exact H |].
  pose proof (playing_preempt w H) as Hp.
  destruct (epoch <? notifications (preempt w)); [exact Hp | now apply IH].
Qed.

Lemma preserves_pause_gate (fuel : nat) : preserves playing (pause_gate fuel).
Proof.
  induction fuel as [| fuel IH]; intros w H; simpl; [exact I |].
  destruct (pause_requested (st w)); [| exact H].
  apply (preserves_bind playing); [apply preserves_wait | intros _; exact IH |].
  now apply playing_update_mqtt_state.
Qed.

Lemma preserves_handshake (schedule_hours : schedule) (batch : list point)
    (i total : nat) (fuel : nat) :
  preserves playing (handshake fuel schedule_hours batch i total).
Proof.
  induction fuel as [| fuel IH]; [intros w H; exact I |].
  cbn [handshake].
  apply preserves_bind.
  { apply preserves_step. apply playing_schedule_checker. }
  intros _. apply preserves_bind; [apply preserves_send_command |].
  intros response. destruct (String.eqb response "R"); [| exact IH].
  apply preserves_bind; [apply preserves_send_coordinate_batch |].
  intros _. apply preserves_set_progress.
Qed.

Lemma preserves_stream_batches (fuel : nat) (schedule_hours : schedule)
    (coordinates : list point) (total : nat) (offsets : list nat) :
  preserves playing (stream_batches fuel schedule_hours coordinates total offsets).
Proof.
  induction offsets as [| i later IH]; [apply preserves_ret |].
  intros w H. cbn [stream_batches].
  pose proof (playing_preempt w H) as Hp.
  destruct (stop_requested (st (preempt w))); [exact Hp |].
  revert Hp. generalize (preempt w). apply preserves_bind;
    [apply preserves_pause_gate |].
  intros _. destruct (i =? 0).
  - apply preserves_bind; [apply preserves_send_coordinate_batch |].
    intros _. apply preserves_bind; [apply preserves_set_progress |].
    intros _. exact IH.
  - apply preserves_bind; [apply preserves_handshake |].
    intros _. exact IH.
Qed.

Lemma playing_begin_run (file_path : string) (w : world) :
  no_stop (interference w) = true ->
  forallb observation_ok (trace w) = true ->
  playing (begin_run file_path w).
Proof.
  intros Hi Ht. unfold begin_run. apply playing_update_mqtt_state.
  repeat split; simpl; try assumption. discriminate.
Qed.

Lemma skipn_length_app {A : Type} (l l' : list A) :
  skipn (List.length l) (l ++ l') = l'.
Proof. induction l as [| x l IH]; simpl; [reflexivity | exact IH]. Qed.

(** The other threads only add to the trace, *)
Lemma trace_update_mqtt_state (w : world) :
  exists new, trace (_update_mqtt_state w) = trace w ++ new.
Proof.
  unfold _update_mqtt_state. destruct (mqtt_enabled w).
  - eexists. reflexivity.
  - exists []. now rewrite app_nil_r.
Qed.

Lemma trace_act (a : activity) (w : world) :
  exists new, trace (act w a) = trace w ++ new.
Proof.
  destruct a; cbn [act].
  - unfold stop_execution.
    destruct (trace_update_mqtt_state
                (with_st (set_execution_progress None)
                   (with_st (set_current_playing_file None)
                      (with_st (set_is_clearing false)
                         (with_st (set_current_playlist None)
                            (with_st (set_current_playing_index None)
                               (with_st (set_stop_requested true)
                                  (notify_all
                                     (with_st (set_pause_requested false) w)))))))))
      as (new & H).
    exists new. exact H.
  - unfold pause_execution.
    destruct (trace_update_mqtt_state (with_st (set_pause_requested true) w))
      as (new & H).
    exists new. exact H.
  - unfold resume_execution.
    destruct (trace_update_mqtt_state
                (notify_all (with_st (set_pause_requested false) w)))
      as (new & H).
    exists new. exact H.
  - eexists. reflexivity.
  - exists []. now rewrite app_nil_r.
  - exists []. rewrite app_nil_r. unfold wait_for_start_time_iteration.
    destruct (nth_error (waiters w) k); [| reflexivity].
    destruct (pause_requested (st w)); [destruct (within p (clock w)) |];
      reflexivity.
Qed.

Lemma trace_acts (acts : list activity) :
  forall w, exists new, trace (fold_left act acts w) = trace w ++ new.
Proof.
  induction acts as [| a l IH]; intros w; cbn [fold_left].
  - exists []. now rewrite app_nil_r.
  - destruct (trace_act a w) as (n1 & H1).
    destruct (IH (act w a)) as (n2 & H2).
    exists (n1 ++ n2). now rewrite H2, H1, app_assoc.
Qed.

Lemma trace_preempt (w : world) :
  exists new, trace (preempt w) = trace w ++ new.
Proof.
  unfold preempt. destruct (interference w) as [| acts later].
  - exists []. now rewrite app_nil_r.
  - apply (trace_acts acts (with_interference later w)).
Qed.

(** and those that neither read nor report the state add nothing. *)
Lemma trace_act_blind (a : activity) (w : world) :
  observes a = false -> trace (act w a) = trace w.
Proof.
  destruct a; cbn [observes act]; try discriminate; intros _; [reflexivity |].
  unfold wait_for_start_time_iteration.
  destruct (nth_error (waiters w) k); [| reflexivity].
  destruct (pause_requested (st w)); [destruct (within p (clock w)) |];
    reflexivity.
Qed.

Lemma trace_acts_blind (acts : list activity) :
  forall w, existsb observes acts = false ->
            trace (fold_left act acts w) = trace w.
Proof.
  induction acts as [| a l IH]; intros w H; cbn [fold_left]; [reflexivity |].
  cbn [existsb] in H. apply orb_false_iff in H as [Ha Hl].
  now rewrite (IH _ Hl), (trace_act_blind a w Ha).
Qed.

Lemma window_events_spec (w : world) :
  trace (closing_window w) = trace w ++ window_events w.
Proof.
  unfold window_events.
  destruct (trace_preempt (with_st (set_current_playing_file None) w))
    as (new & H).
  change (trace (with_st (set_current_playing_file None) w)) with (trace w) in H.
  unfold closing_window. rewrite H. now rewrite skipn_length_app.
Qed.

Lemma window_events_blind (w : world) :
  existsb observes (hd [] (interference w)) = false -> window_events w = [].
Proof.
  intros H. unfold window_events, closing_window, preempt.
  change (interference (with_st (set_current_playing_file None) w))
    with (interference w).
  destruct (interference w) as [| acts later]; cbn [hd] in H.
  - change (trace (with_st (set_current_playing_file None) w)) with (trace w).
    now rewrite skipn_all.
  - rewrite (trace_acts_blind acts _ H).
    change (trace (with_interference later
                     (with_st (set_current_playing_file None) w)))
      with (trace w).
    now rewrite skipn_all.
Qed.

(** What the end of a run adds to the trace: what the other threads
    logged between the two assignments, then the report of the run itself,
    which shows neither a file nor a progress. *)
Lemma trace_clear_current (w : world) :
  exists last,
    trace (clear_current w) = trace w ++ window_events w ++ last
    /\ forallb observation_ok last = true.
Proof.
  unfold clear_current. fold (closing_window w).
  pose proof (window_events_spec w) as Hw.
  pose proof (file_cleared_preempt (with_st (set_current_playing_file None) w)
                eq_refl) as Hfile.
  fold (closing_window w) in Hfile.
  unfold _update_mqtt_state.
  destruct (mqtt_enabled (with_st (set_execution_progress None) (closing_window w))).
  - eexists. split.
    + unfold log. cbn [trace with_trace with_st]. rewrite Hw, <- app_assoc.
      reflexivity.
    + reflexivity.
  - exists []. split; [| reflexivity].
    cbn [trace with_st]. now rewrite Hw, app_nil_r.
Qed.

Lemma preserves_run_body (fuel : nat) (schedule_hours : schedule)
    (coordinates : list point) (total : nat) :
  preserves playing
    (step (with_st (set_execution_progress (Some (0, total)))) ;;
     stream_batches fuel schedule_hours coordinates total (range_by total batch_size) ;;
     reset_theta ;;
     _ <- send_command "FINISHED" ;;
     ret tt)%run.
Proof.
  apply preserves_bind; [apply preserves_set_progress |]. intros _.
  apply preserves_bind; [apply preserves_stream_batches |]. intros _.
  apply preserves_bind; [apply preserves_reset_theta |]. intros _.
  apply preserves_bind; [apply preserves_send_command |]. intros _.
  apply preserves_ret.
Qed.

Lemma run_clears_after (to_float : string -> option float) (fuel : nat)
    (file_path : string) (schedule_hours : schedule) (w w' : world) :
  run_theta_rho_file to_float fuel file_path schedule_hours w = Ret tt w' ->
  exists w2,
    before_clearing to_float fuel file_path schedule_hours w = Some w2
    /\ w' = clear_current w2.
Proof.
  unfold run_theta_rho_file, before_clearing.
  destruct (List.length _ <? 2).
  - intros H. inversion H. eexists. split; reflexivity.
  - unfold try_finally.
    match goal with |- context [match ?b with _ => _ end] => destruct b end;
      intros H; inversion H; eexists; split; reflexivity.
Qed.

Lemma observed_before_clearing (to_float : string -> option float) (fuel : nat)
    (file_path : string) (schedule_hours : schedule) (w w2 : world) :
  no_stop (interference w) = true ->
  forallb observation_ok (trace w) = true ->
  before_clearing to_float fuel file_path schedule_hours w = Some w2 ->
  forallb observation_ok (trace w2) = true.
Proof.
  intros Hi Ht. unfold before_clearing.
  set (w1 := preempt (begin_run file_path w)).
  assert (H1 : playing w1).
  { apply playing_preempt. now apply playing_begin_run. }
  set (coordinates := parse_theta_rho_file to_float (files w1 file_path)).
  destruct (List.length coordinates <? 2).
  - intros H. inversion H. subst. apply H1.
  - pose proof (preserves_run_body fuel schedule_hours coordinates
                  (List.length coordinates) w1 H1) as Hbody.
    match goal with |- context [match ?b with _ => _ end] => destruct b end;
      intros H; inversion H; subst; apply Hbody.
Qed.

(** C8, as amended: each operation of the engine sets or clears the
    current file and the progress together: the start of a run sets both,
    its rejection and its [finally] clause clear both, so that both are
    [None] whenever a run returns (after an exception too, and whatever the
    other threads did), and [stop_execution] clears both, and the playlist,
    the index and [is_clearing] as well.  In a run during which
    [stop_execution] is not called, a progress is shown only together with
    a current file by every report that the run itself makes, and by every
    report and every status read that another thread makes at a preemption
    of the run before the statements that end it.  The file is cleared
    before the progress, in two statements: what another thread reads or
    reports between the two is not covered (when no thread does, every
    observation of the run is covered). *)
Theorem progress_only_with_file
    (to_float : string -> option float) (fuel : nat) (file_path : string)
    (schedule_hours : schedule) (w w' : world) :
  st (stop_execution w) = stopped_state
  /\ (current_playing_file (st (begin_run file_path w)) = Some file_path
      /\ execution_progress (st (begin_run file_path w)) = Some (0, 0))
  /\ (current_playing_file (st (clear_current w)) = None
      /\ execution_progress (st (clear_current w)) = None)
  /\ (run_theta_rho_file to_float fuel file_path schedule_hours w = Ret tt w' ->
      current_playing_file (st w') = None /\ execution_progress (st w') = None)
  /\ (no_stop (interference w) = true ->
      forallb observation_ok (trace w) = true ->
      run_theta_rho_file to_float fuel file_path schedule_hours w = Ret tt w' ->
      exists w2 last,
        before_clearing to_float fuel file_path schedule_hours w = Some w2
        /\ forallb observation_ok (trace w2) = true
        /\ trace w' = trace w2 ++ window_events w2 ++ last
        /\ forallb observation_ok last = true
        /\ (existsb observes (hd [] (interference w2)) = false ->
            window_events w2 = []
            /\ forallb observation_ok (trace w') = true)).
Proof.
  split; [apply st_stop_execution |].
  split; [unfold begin_run; rewrite st_update_mqtt_state; now split |].
  split; [apply st_clear_current |].
  split.
  - intros H. destruct (run_clears_after _ _ _ _ _ _ H) as (w2 & _ & ->).
    apply st_clear_current.
  - intros Hi Ht H.
    destruct (run_clears_after _ _ _ _ _ _ H) as (w2 & Hw2 & ->).
    pose proof (observed_before_clearing _ _ _ _ _ _ Hi Ht Hw2) as Hok.
    destruct (trace_clear_current w2) as (last & Htrace & Hlast).
    exists w2, last.
    split; [exact Hw2 |]. split; [exact Hok |]. split; [exact Htrace |].
    split; [exact Hlast |].
    intros Hblind. pose proof (window_events_blind w2 Hblind) as Hnone.
    split; [exact Hnone |].
    rewrite Htrace, Hnone, !forallb_app, Hok, Hlast. reflexivity.
Qed.

Lemma progress_only_with_file_witness :
  let w := sample_world ["R"; "R"]
             [[]; [CallStatus]; [CallPause; CallResume]; [CallStatus]; [];
              [CallStatus]] in
  exists w',
    run_theta_rho_file PyFloat.float_of_literal 3 star_thr None w = Ret tt w'
    /\ List.length (snapshots (trace w')) = 3
    /\ (current_playing_file (st w') = None /\ execution_progress (st w') = None)
    /\ forallb observation_ok (trace w') = true.
Proof.
  cbv zeta.
  set (w := sample_world _ _).
  assert (Hrun : exists w',
             run_theta_rho_file PyFloat.float_of_literal 3 star_thr None w = Ret tt w'
             /\ List.length (snapshots (trace w')) = 3).
  { vm_compute. eexists. split; reflexivity. }
  destruct Hrun as (w' & Hrun & Hsnap).
  destruct (progress_only_with_file PyFloat.float_of_literal 3 star_thr None w w')
    as (_ & _ & _ & Hret & Hobs).
  exists w'. split; [exact Hrun |]. split; [exact Hsnap |]. split.
  - exact (Hret Hrun).
  - destruct (Hobs eq_refl eq_refl Hrun)
      as (w2 & last & Hw2 & _ & _ & _ & Hquiet).
    apply Hquiet.
    assert (Hi : option_map interference
                   (before_clearing PyFloat.float_of_literal 3 star_thr None w)
                 = Some []) by (vm_compute; reflexivity).
    rewrite Hw2 in Hi. cbn [option_map] in Hi. inversion Hi as [Hi'].
    rewrite Hi'. reflexivity.
Defined.

(** C8 as stated fails, in two ways.  [stop_execution] is called while the
    runner polls for the second batch of the pattern of 25 points; the
    device then acknowledges, the batch is sent and the runner writes the
    progress [(20, 25)] although the current file has been cleared; a
    client that reads the status next is shown a progress without a file.
    And in a run that nobody stops, [pause_execution] called between the
    two assignments of the [finally] clause, the twelfth preemption of
    this run, reports the progress [(30, 25)] without a file. *)
Lemma progress_without_file_counterexample :
  (option_map (fun w => snapshots (trace w))
     (final_world
        (run_theta_rho_file PyFloat.float_of_literal 3 star_thr None
           (sample_world ["busy"; "R"]
              [[]; []; []; []; [CallStop]; []; []; [CallStatus]])))
   = Some [mkState true false None (Some (20, 25)) None None false]
   /\ consistent (mkState true false None (Some (20, 25)) None None false) = false)
  /\ (no_stop (repeat [] 11 ++ [[CallPause]]) = true
      /\ option_map
           (fun w => filter (fun e => negb (observation_ok e)) (trace w))
           (final_world
              (run_theta_rho_file PyFloat.float_of_literal 3 star_thr None
                 (sample_world ["R"; "R"] (repeat [] 11 ++ [[CallPause]]))))
         = Some [StateReport
                   (mkState false true None (Some (30, 25)) None None false)]).
Proof. repeat split; vm_compute; reflexivity. Qed.

(** ** The end of a playlist run *)



Section Playlist.

Variable to_float : string -> option float.
Variables (fuel pause_time : nat) (clear_pattern : option string)
  (run_mode : string) (shuffle : bool) (schedule_hours : schedule).


(** A [return] taken in the loop over the items ends the function at once. *)
Lemma play_passes_stopped (passes : nat) (file_paths : list string) (w w' : world) :
  play_items to_float fuel (List.length file_paths) pause_time clear_pattern
    schedule_hours 0 file_paths w = Ret Stopped w' ->
  play_passes to_float fuel (S passes) file_paths pause_time clear_pattern run_mode
    shuffle schedule_hours w = Ret Stopped w'.
Proof. intros H. cbn [play_passes]. unfold bind. now rewrite H. Qed.


End Playlist.





(* ================================================================== *)
(** * Further properties of the engine *)

(** ** Clear patterns *)

Lemma get_clear_pattern_file_total (pattern_name : string) (w : world) :
  exists path w', get_clear_pattern_file pattern_name w = Ret path w'.
Proof.
  unfold get_clear_pattern_file.
  destruct (String.eqb pattern_name "random").
  - unfold random_choice, bind, randbelow, ret.
    destruct (entropy w); eauto.
  - unfold ret. eauto.
Qed.

(** X1: [get_clear_pattern_file] always returns one of the three clear
    pattern files, without touching the state or the trace: the file of
    the key when the name is a key of [CLEAR_PATTERNS], the file of
    ["clear_from_in"] when the name is unknown, and one drawn among the
    three when the name is ["random"]. *)
Theorem get_clear_pattern_file_in_table (pattern_name : string) (w : world) :
  exists path w',
    get_clear_pattern_file pattern_name w = Ret path w'
    /\ In path (map snd CLEAR_PATTERNS)
    /\ st w' = st w /\ trace w' = trace w
    /\ (In (pattern_name, path) CLEAR_PATTERNS
        \/ (pattern_name = "random")
        \/ (~ In pattern_name (map fst CLEAR_PATTERNS)
            /\ path = "./patterns/clear_from_in.thr")).
Proof.
  unfold get_clear_pattern_file.
  destruct (String.eqb_spec pattern_name "random") as [-> | Hname].
  - unfold random_choice, bind, randbelow, ret.
    destruct (entropy w) as [| r later].
    + exists "./patterns/clear_from_in.thr", w. simpl. tauto.
    + eexists. eexists. split; [reflexivity |].
      split; [| simpl; tauto].
      apply nth_In. apply Nat.mod_upper_bound. discriminate.
  - unfold ret. eexists. exists w. split; [reflexivity |].
    unfold CLEAR_PATTERNS. cbn [dict_get map fst snd].
    destruct (String.eqb_spec "clear_from_in" pattern_name) as [<- | H1];
      [simpl; tauto |].
    destruct (String.eqb_spec "clear_from_out" pattern_name) as [<- | H2];
      [simpl; tauto |].
    destruct (String.eqb_spec "clear_sideway" pattern_name) as [<- | H3];
      [simpl; tauto |].
    split; [simpl; tauto |]. do 2 (split; [reflexivity |]).
    right. right. split; [| reflexivity].
    simpl. intros [H | [H | [H | []]]]; congruence.
Qed.

(** ** Transport failures *)

Lemma calm_ret {A : Type} (a : A) : calm (ret a).
Proof. intros w. apply undisturbed_refl. Qed.

Lemma calm_step (f : world -> world) :
  (forall w, undisturbed w (f w)) -> calm (step f).
Proof. intros Hf w. apply Hf. Qed.

Lemma calm_bind {A B : Type} (m : M A) (k : A -> M B) :
  calm m -> (forall a, calm (k a)) -> calm (bind m k).
Proof.
  intros Hm Hk w. unfold bind. specialize (Hm w).
  destruct (m w) as [a w1 | w1 | w1 |]; try exact Hm.
  specialize (Hk a w1).
  destruct (k a w1) as [b w2 | w2 | w2 |]; try exact Hk;
    eapply undisturbed_trans; eassumption.
Qed.

Lemma calm_wait (fuel epoch : nat) : calm (wait fuel epoch).
Proof.
  induction fuel as [| fuel IH]; intros w; simpl; [exact I |].
  destruct (interference w) eqn:Hi; [apply undisturbed_refl |].
  destruct (epoch <? notifications (preempt w)).
  - apply undisturbed_preempt.
  - specialize (IH (preempt w)).
    destruct (wait fuel epoch (preempt w)) as [a w1 | w1 | w1 |]; try exact IH;
      (eapply undisturbed_trans; [apply undisturbed_preempt | exact IH]).
Qed.

Lemma calm_pause_gate (fuel : nat) : calm (pause_gate fuel).
Proof.
  induction fuel as [| fuel IH]; intros w; simpl; [exact I |].
  destruct (pause_requested (st w)); [| apply undisturbed_refl].
  pose proof (calm_bind (wait fuel (notifications (_update_mqtt_state w)))
                (fun _ => pause_gate fuel) (calm_wait _ _) (fun _ => IH)
                (_update_mqtt_state w)) as H.
  destruct (bind _ _ (_update_mqtt_state w)) as [a w1 | w1 | w1 |]; try exact H;
    (eapply undisturbed_trans; [apply undisturbed_update_mqtt_state | exact H]).
Qed.

Lemma calm_sleep (seconds : nat) : calm (sleep seconds).
Proof.
  intros w. unfold sleep.
  eapply undisturbed_trans; [apply undisturbed_preempt |].
  split; try reflexivity. rewrite transport_calls_log. apply app_nil_r.
Qed.

Lemma no_failure_nil : no_failure [].
Proof. intros []. Qed.

Lemma no_failure_app (l1 l2 : list event) :
  no_failure l1 -> no_failure l2 -> no_failure (l1 ++ l2).
Proof. intros H1 H2 H. apply in_app_or in H as [H | H]; auto. Qed.

Lemma calls_after_from {A : Type} (w0 w : world) (r : result A) :
  transport_calls (trace w0) = transport_calls (trace w) ->
  calls_after w0 r -> calls_after w r.
Proof. intros H. unfold calls_after. now rewrite H. Qed.

Lemma fails_last_calm {A : Type} (m : M A) : calm m -> fails_last m.
Proof.
  intros Hm w. specialize (Hm w).
  destruct (m w) as [a w1 | w1 | w1 |]; simpl; try exact I; [| contradiction].
  exists []. rewrite app_nil_r. split; [apply (same_calls _ _ Hm) | apply no_failure_nil].
Qed.

Lemma fails_last_bind {A B : Type} (m : M A) (k : A -> M B) :
  fails_last m -> (forall a, fails_last (k a)) -> fails_last (bind m k).
Proof.
  intros Hm Hk w. unfold bind. specialize (Hm w).
  destruct (m w) as [a w1 | w1 | w1 |]; simpl in *; try exact Hm.
  destruct Hm as (n1 & H1 & Hn1). specialize (Hk a w1).
  destruct (k a w1) as [b w2 | w2 | w2 |]; simpl in *; try exact I;
    destruct Hk as (n2 & H2 & Hn2); exists (n1 ++ n2);
    (split; [rewrite H2, H1; now rewrite <- !app_assoc | now apply no_failure_app]).
Qed.

Lemma fails_last_transport (e : event) (w : world) :
  is_transport e = true -> e <> TransportFailure ->
  calls_after w
    (let '(fails, w1) := next_fault (preempt w) in
     if fails then Raise (log TransportFailure w1) else Ret tt (log e w1)).
Proof.
  intros He Hne. unfold next_fault.
  pose proof (same_calls _ _ (undisturbed_preempt w)) as Hc.
  destruct (faults (preempt w)) as [| [] later];
    unfold calls_after, log, with_trace, with_faults; cbn [trace fst snd];
    rewrite transport_calls_app; simpl; try rewrite He; rewrite ?Hc.
  - exists [e]. split; [reflexivity |]. intros [H | []]. congruence.
  - exists []. split; [reflexivity | apply no_failure_nil].
  - exists [e]. split; [reflexivity |]. intros [H | []]. congruence.
Qed.

Lemma fails_last_send_coordinate_batch (batch : list point) :
  fails_last (send_coordinate_batch batch).
Proof.
  intros w. apply (fails_last_transport (SendBatch batch) w); [reflexivity | discriminate].
Qed.

Lemma fails_last_reset_theta : fails_last reset_theta.
Proof.
  intros w. apply (fails_last_transport ResetTheta w); [reflexivity | discriminate].
Qed.

Lemma fails_last_send_command (command : string) : fails_last (send_command command).
Proof.
  intros w. unfold send_command, next_fault, next_reply.
  pose proof (same_calls _ _ (undisturbed_preempt w)) as Hc.
  destruct (faults (preempt w)) as [| [] later]; cbn [fst snd];
    try match goal with
        | |- context [device ?v] => destruct (device v) as [| r d]
        end;
    unfold calls_after, log, with_trace, with_faults, with_device; cbn [trace fst snd];
    rewrite transport_calls_app; simpl; rewrite ?Hc;
    try (eexists [_]; split; [reflexivity |]; intros [H | []]; discriminate).
  exists []. split; [reflexivity | apply no_failure_nil].
Qed.

Lemma fails_last_handshake (schedule_hours : schedule) (batch : list point)
    (i total : nat) (fuel : nat) :
  fails_last (handshake fuel schedule_hours batch i total).
Proof.
  induction fuel as [| fuel IH]; [intros w; exact I |].
  cbn [handshake]. apply fails_last_bind.
  { apply fails_last_calm, calm_step. apply undisturbed_schedule_checker. }
  intros _. apply fails_last_bind; [apply fails_last_send_command |].
  intros response. destruct (String.eqb response "R"); [| exact IH].
  apply fails_last_bind; [apply fails_last_send_coordinate_batch |].
  intros _. apply fails_last_calm, calm_step. apply undisturbed_with_st.
Qed.

Lemma fails_last_stream_batches (fuel : nat) (schedule_hours : schedule)
    (coordinates : list point) (total : nat) (offsets : list nat) :
  fails_last (stream_batches fuel schedule_hours coordinates total offsets).
Proof.
  induction offsets as [| i later IH]; [apply fails_last_calm, calm_ret |].
  assert (Hrest : fails_last
            (fun w =>
               if stop_requested (st w) then Ret tt w
               else
                 (pause_gate fuel ;;
                  (if i =? 0 then
                     send_coordinate_batch (slice coordinates i (i + batch_size)) ;;
                     step (with_st (set_execution_progress
                                      (Some (i + batch_size, total)))) ;;
                     stream_batches fuel schedule_hours coordinates total later
                   else
                     handshake fuel schedule_hours
                       (slice coordinates i (i + batch_size)) i total ;;
                     stream_batches fuel schedule_hours coordinates total later))%run w)).
  { intros w. destruct (stop_requested (st w)).
    - apply (fails_last_calm (ret tt) (calm_ret tt)).
    - revert w. apply fails_last_bind; [apply fails_last_calm, calm_pause_gate |].
      intros _. destruct (i =? 0).
      + apply fails_last_bind; [apply fails_last_send_coordinate_batch |].
        intros _. apply fails_last_bind;
          [apply fails_last_calm, calm_step, undisturbed_with_st | intros _; exact IH].
      + apply fails_last_bind; [apply fails_last_handshake | intros _; exact IH]. }
  intros w. cbn [stream_batches].
  apply (calls_after_from (preempt w));
    [apply (same_calls _ _ (undisturbed_preempt w)) | apply Hrest].
Qed.

Lemma fails_last_run_body (fuel : nat) (schedule_hours : schedule)
    (coordinates : list point) (total : nat) :
  fails_last
    (step (with_st (set_execution_progress (Some (0, total)))) ;;
     stream_batches fuel schedule_hours coordinates total (range_by total batch_size) ;;
     reset_theta ;;
     _ <- send_command "FINISHED" ;;
     ret tt)%run.
Proof.
  apply fails_last_bind; [apply fails_last_calm, calm_step, undisturbed_with_st |].
  intros _. apply fails_last_bind; [apply fails_last_stream_batches |].
  intros _. apply fails_last_bind; [apply fails_last_reset_theta |].
  intros _. apply fails_last_bind; [apply fails_last_send_command |].
  intros _. apply fails_last_calm, calm_ret.
Qed.

Lemma run_theta_rho_file_not_raise
    (to_float : string -> option float) (fuel : nat) (file_path : string)
    (schedule_hours : schedule) (w w' : world) :
  run_theta_rho_file to_float fuel file_path schedule_hours w <> Raise w'.
Proof.
  unfold run_theta_rho_file. destruct (_ <? 2); [discriminate |].
  unfold try_finally.
  match goal with |- context [match ?b with _ => _ end] => destruct b end;
    discriminate.
Qed.

(** X2: a run of one file never lets an exception out; and when a call on
    the transport raises, it is the last call of the run: the batches not
    yet sent, [reset_theta] and ["FINISHED"] are all skipped. *)
Theorem transport_failure_ends_run
    (to_float : string -> option float) (fuel : nat) (file_path : string)
    (schedule_hours : schedule) (w w' : world) :
  run_theta_rho_file to_float fuel file_path schedule_hours w <> Raise w'
  /\ (run_theta_rho_file to_float fuel file_path schedule_hours w = Ret tt w' ->
      exists new,
        transport_calls (trace w') = transport_calls (trace w) ++ new
        /\ (no_failure new
            \/ exists before,
                 new = before ++ [TransportFailure] /\ no_failure before)).
Proof.
  split; [apply run_theta_rho_file_not_raise |].
  unfold run_theta_rho_file.
  set (w1 := preempt (begin_run file_path w)).
  assert (H1 : transport_calls (trace w1) = transport_calls (trace w)).
  { subst w1. rewrite (same_calls _ _ (undisturbed_preempt _)).
    apply (same_calls _ _ (undisturbed_begin_run _ _)). }
  set (coordinates := parse_theta_rho_file to_float (files w1 file_path)).
  destruct (List.length coordinates <? 2).
  - intros H. inversion H. exists [].
    rewrite (same_calls _ _ (undisturbed_clear_current _)), H1, app_nil_r.
    split; [reflexivity | left; apply no_failure_nil].
  - unfold try_finally.
    pose proof (fails_last_run_body fuel schedule_hours coordinates
                  (List.length coordinates) w1) as Hbody.
    match goal with |- context [match ?b with _ => _ end] => destruct b end;
      intros H; inversion H; subst; simpl in Hbody;
      destruct Hbody as (new & Hnew & Hok);
      rewrite (same_calls _ _ (undisturbed_clear_current _)), Hnew, H1.
    + exists new. split; [reflexivity | now left].
    + exists (new ++ [TransportFailure]). split; [reflexivity |].
      right. exists new. now split.
Qed.

Lemma transport_failure_ends_run_witness :
  let w := with_faults [false; true] (sample_world [] []) in
  exists w',
    run_theta_rho_file PyFloat.float_of_literal 2 star_thr None w = Ret tt w'
    /\ transport_calls (trace w') = [SendBatch (firstn 10 star); TransportFailure]
    /\ exists new,
         transport_calls (trace w') = transport_calls (trace w) ++ new
         /\ (no_failure new
             \/ exists before,
                  new = before ++ [TransportFailure] /\ no_failure before).
Proof.
  cbv zeta. set (w := with_faults _ _).
  assert (Hrun : exists w',
             run_theta_rho_file PyFloat.float_of_literal 2 star_thr None w = Ret tt w'
             /\ transport_calls (trace w')
                = [SendBatch (firstn 10 star); TransportFailure]).
  { vm_compute. eexists. split; reflexivity. }
  destruct Hrun as (w' & Hrun & Hcalls).
  exists w'. split; [exact Hrun |]. split; [exact Hcalls |].
  apply (transport_failure_ends_run PyFloat.float_of_literal 2 star_thr None w w').
  exact Hrun.
Defined.

(** ** What a run sends when nobody stops it *)

Lemma steady_with_st (f : ExecutionState -> ExecutionState) (w : world) :
  (forall s, stop_requested (f s) = stop_requested s) ->
  steady w -> steady (with_st f w).
Proof. intros Hf (Hs & Hi & Hfl). repeat split; simpl; try assumption. now rewrite Hf. Qed.

Lemma steady_update_mqtt_state (w : world) : steady w -> steady (_update_mqtt_state w).
Proof.
  intros H. unfold _update_mqtt_state. destruct (mqtt_enabled w); exact H.
Qed.

Lemma steady_schedule_checker (s : schedule) (w : world) :
  steady w -> steady (schedule_checker s w).
Proof.
  intros H. destruct s as [window |]; simpl; [| exact H].
  destruct (within window (clock w)); exact H.
Qed.

Lemma steady_act (a : activity) (w : world) :
  is_stop a = false -> steady w -> steady (act w a).
Proof.
  intros Ha H. destruct a; simpl; try discriminate.
  - unfold pause_execution. now apply steady_update_mqtt_state.
  - unfold resume_execution. now apply steady_update_mqtt_state.
  - exact H.
  - exact H.
  - unfold wait_for_start_time_iteration.
    destruct (nth_error (waiters w) k); [| exact H].
    destruct (pause_requested (st w)); [destruct (within p (clock w)) |]; exact H.
Qed.

Lemma steady_acts (acts : list activity) :
  forall w, forallb (fun a => negb (is_stop a)) acts = true ->
            steady w -> steady (fold_left act acts w).
Proof.
  induction acts as [| a l IH]; intros w Hall H; simpl; [exact H |].
  simpl in Hall. apply andb_true_iff in Hall as [Ha Hl].
  apply IH; [exact Hl |]. apply steady_act; [| exact H].
  now apply negb_true_iff.
Qed.

Lemma steady_preempt (w : world) : steady w -> steady (preempt w).
Proof.
  intros H. unfold preempt. destruct (interference w) as [| acts later] eqn:Hi;
    [exact H |].
  destruct H as (Hs & Hn & Hf). rewrite Hi in Hn. simpl in Hn.
  apply andb_true_iff in Hn as [Hacts Hlater].
  apply steady_acts; [exact Hacts |]. repeat split; assumption.
Qed.

Lemma steady_wait (fuel epoch : nat) : preserves steady (wait fuel epoch).
Proof.
  induction fuel as [| fuel IH]; intros w H; simpl; [exact I |].
  destruct (interference w) eqn:Hi; [exact H |].
  pose proof (steady_preempt w H) as Hp.
  destruct (epoch <? notifications (preempt w)); [exact Hp | now apply IH].
Qed.

Lemma steady_pause_gate (fuel : nat) : preserves steady (pause_gate fuel).
Proof.
  induction fuel as [| fuel IH]; intros w H; simpl; [exact I |].
  destruct (pause_requested (st w)); [| exact H].
  apply (preserves_bind steady); [apply steady_wait | intros _; exact IH |].
  now apply steady_update_mqtt_state.
Qed.

(** A poll by a steady runner: the reply is the next one of the script. *)
Lemma poll_steady (w : world) :
  steady w ->
  exists w1,
    send_command "R" w = Ret (hd EmptyString (device w)) w1
    /\ steady w1
    /\ device w1 = tl (device w)
    /\ transport_calls (trace w1)
       = transport_calls (trace w) ++ [SendCommand "R" (hd EmptyString (device w))].
Proof.
  intros H. rewrite send_command_ok by apply H.
  eexists. split; [reflexivity |].
  pose proof (steady_preempt w H) as (Hs & Hi & Hf).
  repeat split; try assumption.
  rewrite transport_calls_log. simpl.
  change (trace (with_device ?d ?v)) with (trace v).
  now rewrite (same_calls _ _ (undisturbed_preempt w)).
Qed.

Lemma send_batch_steady (batch : list point) (w : world) :
  steady w ->
  exists w1,
    send_coordinate_batch batch w = Ret tt w1
    /\ steady w1
    /\ device w1 = device w
    /\ transport_calls (trace w1) = transport_calls (trace w) ++ [SendBatch batch].
Proof.
  intros H. rewrite send_coordinate_batch_ok by apply H.
  eexists. split; [reflexivity |].
  pose proof (steady_preempt w H) as (Hs & Hi & Hf).
  repeat split; try assumption.
  - apply (same_device _ _ (undisturbed_preempt w)).
  - rewrite transport_calls_log. simpl.
    now rewrite (same_calls _ _ (undisturbed_preempt w)).
Qed.

Lemma handshake_planned (schedule_hours : schedule) (batch : list point)
    (i total : nat) (fuel : nat) :
  forall w w',
    steady w ->
    handshake fuel schedule_hours batch i total w = Ret tt w' ->
    exists pre rest,
      await_ack (device w) = Some (pre, rest)
      /\ transport_calls (trace w')
         = transport_calls (trace w)
           ++ map (SendCommand "R") pre ++ [SendCommand "R" "R"; SendBatch batch]
      /\ device w' = rest
      /\ steady w'.
Proof.
  induction fuel as [| fuel IH]; intros w w' Hw; [discriminate |].
  cbn [handshake]. unfold bind at 1, step at 1.
  pose proof (steady_schedule_checker schedule_hours w Hw) as Hw0.
  pose proof (undisturbed_schedule_checker schedule_hours w) as [_ Hd0 _ Hc0].
  destruct (poll_steady _ Hw0) as (w1 & Hpoll & Hw1 & Hd1 & Hc1).
  unfold bind at 1. rewrite Hpoll. rewrite Hd0 in *. rewrite Hc0 in Hc1.
  destruct (device w) as [| r d] eqn:Hdev; cbn [hd tl] in *.
  - change (String.eqb "" "R") with false. cbv iota. intros Hrun.
    destruct (IH w1 w' Hw1 Hrun) as (pre & rest & Hack & _).
    rewrite Hd1 in Hack. discriminate.
  - cbn [await_ack]. destruct (String.eqb_spec r "R") as [-> | Hr].
    + unfold bind, step.
      destruct (send_batch_steady batch w1 Hw1) as (w2 & Hsend & Hw2 & Hd2 & Hc2).
      rewrite Hsend. intros H. inversion H; subst w'.
      exists [], d. split; [reflexivity |]. split; [| split].
      * simpl. rewrite Hc2, Hc1. now rewrite <- app_assoc.
      * simpl. congruence.
      * now apply steady_with_st.
    + intros Hrun.
      destruct (IH w1 w' Hw1 Hrun) as (pre & rest & Hack & Hcalls & Hrest & Hw').
      rewrite Hd1 in Hack. rewrite Hack.
      exists (r :: pre), rest. split; [reflexivity |]. split; [| now split].
      rewrite Hcalls, Hc1. simpl. now rewrite <- app_assoc.
Qed.

Lemma stream_planned (fuel : nat) (schedule_hours : schedule)
    (coordinates : list point) (total : nat) (offsets : list nat) :
  forall w w',
    steady w ->
    stream_batches fuel schedule_hours coordinates total offsets w = Ret tt w' ->
    exists calls rest,
      planned_calls coordinates offsets (device w) = Some (calls, rest)
      /\ transport_calls (trace w') = transport_calls (trace w) ++ calls
      /\ device w' = rest
      /\ steady w'.
Proof.
  induction offsets as [| i later IH]; intros w w' Hw.
  - intros H. inversion H; subst. exists [], (device w').
    rewrite app_nil_r. do 3 (split; [reflexivity |]). exact Hw.
  - cbn [stream_batches planned_calls].
    pose proof (steady_preempt w Hw) as Hw0.
    pose proof (undisturbed_preempt w) as [_ Hd0 _ Hc0].
    destruct Hw0 as (Hs0 & Hrest0). rewrite Hs0.
    assert (Hw0 : steady (preempt w)) by (split; assumption).
    unfold bind at 1.
    pose proof (steady_pause_gate fuel (preempt w) Hw0) as Hg.
    pose proof (calm_pause_gate fuel (preempt w)) as Hcalm.
    destruct (pause_gate fuel (preempt w)) as [[] w1 | w1 | w1 |]; try discriminate.
    simpl in Hg. destruct Hcalm as [_ Hd1 _ Hc1].
    rewrite <- Hd0, <- Hd1, <- Hc0, <- Hc1.
    destruct (i =? 0).
    + unfold bind at 1.
      destruct (send_batch_steady (slice coordinates i (i + batch_size)) w1 Hg)
        as (w2 & Hsend & Hw2 & Hd2 & Hc2).
      rewrite Hsend. unfold bind at 1, step at 1. intros Hrun.
      apply IH in Hrun; [| now apply steady_with_st].
      destruct Hrun as (calls & rest & Hplan & Hcalls & Hrest & Hw').
      cbn [device with_st] in Hplan. rewrite Hd2 in Hplan. rewrite Hplan.
      eexists. exists rest. split; [reflexivity |]. split; [| now split].
      rewrite Hcalls. cbn [trace with_st]. rewrite Hc2.
      now rewrite <- app_assoc.
    + unfold bind at 1.
      destruct (handshake fuel schedule_hours _ i total w1) as [[] w2 | w2 | w2 |]
        eqn:Hhs; try discriminate.
      destruct (handshake_planned _ _ _ _ _ _ _ Hg Hhs)
        as (pre & remaining & Hack & Hc2 & Hd2 & Hw2).
      rewrite Hack. intros Hrun. apply IH in Hrun; [| exact Hw2].
      destruct Hrun as (calls & rest & Hplan & Hcalls & Hrest & Hw').
      rewrite Hd2 in Hplan. rewrite Hplan.
      eexists. exists rest. split; [reflexivity |]. split; [| now split].
      rewrite Hcalls, Hc2. now rewrite <- !app_assoc.
Qed.

Lemma safe_ret {A : Type} (a : A) : safe (ret a).
Proof. intros w H. exact H. Qed.

Lemma safe_bind {A B : Type} (m : M A) (k : A -> M B) :
  safe m -> (forall a, safe (k a)) -> safe (bind m k).
Proof.
  intros Hm Hk w Hw. unfold bind. specialize (Hm w Hw).
  destruct (m w) as [a w1 | w1 | w1 |]; try exact Hm. now apply Hk.
Qed.

Lemma safe_step (f : world -> world) :
  (forall w, steady w -> steady (f w)) -> safe (step f).
Proof. intros Hf w Hw. simpl. auto. Qed.

Lemma safe_calm {A : Type} (m : M A) : calm m -> preserves steady m -> safe m.
Proof.
  intros Hc Hp w Hw. specialize (Hc w). specialize (Hp w Hw).
  destruct (m w) as [a w1 | w1 | w1 |]; simpl in *; auto.
Qed.

Lemma safe_send_command : safe (send_command "R").
Proof.
  intros w Hw. destruct (poll_steady w Hw) as (w1 & Hpoll & Hw1 & _).
  now rewrite Hpoll.
Qed.

Lemma safe_send_coordinate_batch (batch : list point) :
  safe (send_coordinate_batch batch).
Proof.
  intros w Hw. destruct (send_batch_steady batch w Hw) as (w1 & Hsend & Hw1 & _).
  now rewrite Hsend.
Qed.

Lemma safe_handshake (schedule_hours : schedule) (batch : list point)
    (i total : nat) (fuel : nat) :
  safe (handshake fuel schedule_hours batch i total).
Proof.
  induction fuel as [| fuel IH]; [intros w H; exact I |].
  cbn [handshake]. apply safe_bind.
  { apply safe_step. apply steady_schedule_checker. }
  intros _. apply safe_bind; [apply safe_send_command |].
  intros response. destruct (String.eqb response "R"); [| exact IH].
  apply safe_bind; [apply safe_send_coordinate_batch |].
  intros _. apply safe_step. intros w Hw. now apply steady_with_st.
Qed.

Lemma safe_stream_batches (fuel : nat) (schedule_hours : schedule)
    (coordinates : list point) (total : nat) (offsets : list nat) :
  safe (stream_batches fuel schedule_hours coordinates total offsets).
Proof.
  induction offsets as [| i later IH]; [apply safe_ret |].
  intros w Hw. cbn [stream_batches].
  pose proof (steady_preempt w Hw) as Hp.
  destruct (stop_requested (st (preempt w))); [exact Hp |].
  revert Hp. generalize (preempt w). apply safe_bind.
  { apply safe_calm; [apply calm_pause_gate | apply steady_pause_gate]. }
  intros _. destruct (i =? 0).
  - apply safe_bind; [apply safe_send_coordinate_batch |].
    intros _. apply safe_bind; [| intros _; exact IH].
    apply safe_step. intros v Hv. now apply steady_with_st.
  - apply safe_bind; [apply safe_handshake | intros _; exact IH].
Qed.

Lemma reset_theta_ok (w : world) :
  faults w = [] -> reset_theta w = Ret tt (log ResetTheta (preempt w)).
Proof.
  intros Hf. unfold reset_theta, next_fault.
  destruct (undisturbed_preempt w) as [_ _ Hfl _]. now rewrite Hfl, Hf.
Qed.

(** The calls of a run that nobody stops and in which no call raises. *)
Lemma run_planned
    (to_float : string -> option float) (fuel : nat) (file_path : string)
    (schedule_hours : schedule) (w w' : world) :
  no_stop (interference w) = true ->
  faults w = [] ->
  2 <= List.length (parse_theta_rho_file to_float (files w file_path)) ->
  run_theta_rho_file to_float fuel file_path schedule_hours w = Ret tt w' ->
  exists calls rest,
    planned_calls (parse_theta_rho_file to_float (files w file_path))
      (range_by (List.length (parse_theta_rho_file to_float (files w file_path)))
         batch_size)
      (device w) = Some (calls, rest)
    /\ transport_calls (trace w')
       = transport_calls (trace w) ++ calls
         ++ [ResetTheta; SendCommand "FINISHED" (hd EmptyString rest)].
Proof.
  intros Hi Hf Hlen. unfold run_theta_rho_file.
  set (w1 := preempt (begin_run file_path w)).
  assert (H0 : steady (begin_run file_path w)).
  { unfold begin_run. apply steady_update_mqtt_state. now repeat split. }
  assert (H1 : steady w1) by now apply steady_preempt.
  assert (U1 : undisturbed w w1).
  { eapply undisturbed_trans; [apply undisturbed_begin_run | apply undisturbed_preempt]. }
  destruct U1 as [Hfiles Hdev _ Hcalls]. rewrite Hfiles.
  set (coordinates := parse_theta_rho_file to_float (files w file_path)) in *.
  apply Nat.ltb_ge in Hlen. rewrite Hlen.
  unfold try_finally, bind at 1, step at 1.
  set (w2 := with_st _ w1).
  assert (H2 : steady w2) by now apply steady_with_st.
  pose proof (safe_stream_batches fuel schedule_hours coordinates
                (List.length coordinates)
                (range_by (List.length coordinates) batch_size) w2 H2) as Hsafe.
  unfold bind at 1.
  destruct (stream_batches _ _ _ _ _ w2) as [[] w3 | w3 | w3 |] eqn:Hstream;
    try discriminate; try contradiction.
  destruct (stream_planned _ _ _ _ _ _ _ H2 Hstream)
    as (calls & rest & Hplan & Hc3 & Hd3 & H3).
  unfold bind at 1. rewrite reset_theta_ok by apply H3.
  unfold bind at 1. rewrite send_command_ok by (simpl; apply steady_preempt, H3).
  unfold ret. intros H. inversion H; subst w'. clear H.
  exists calls, rest. split.
  - subst w2. cbn [device with_st] in Hplan. now rewrite Hdev in Hplan.
  - rewrite (same_calls _ _ (undisturbed_clear_current _)).
    rewrite transport_calls_log.
    change (trace (with_device ?d ?v)) with (trace v).
    rewrite (same_calls _ _ (undisturbed_preempt _)).
    rewrite transport_calls_log.
    rewrite (same_calls _ _ (undisturbed_preempt _)).
    rewrite Hc3. subst w2. cbn [trace with_st]. rewrite Hcalls.
    cbn [is_transport]. cbn [device log with_trace].
    rewrite (same_device _ _ (undisturbed_preempt w3)), Hd3.
    now rewrite <- !app_assoc.
Qed.

Lemma sent_batches_app (t u : list event) :
  sent_batches (t ++ u) = sent_batches t ++ sent_batches u.
Proof.
  induction t as [| e t IH]; simpl; [reflexivity |].
  destruct e; simpl; now rewrite IH.
Qed.

Lemma sent_batches_polls (replies : list string) :
  sent_batches (map (SendCommand "R") replies) = [].
Proof. induction replies as [| r l IH]; simpl; [reflexivity | exact IH]. Qed.

Lemma planned_batches (coordinates : list point) (offsets : list nat) :
  forall device calls rest,
    planned_calls coordinates offsets device = Some (calls, rest) ->
    sent_batches calls
    = map (fun i => slice coordinates i (i + batch_size)) offsets.
Proof.
  induction offsets as [| i later IH]; intros device calls rest; cbn [planned_calls].
  - intros H. inversion H. reflexivity.
  - destruct (i =? 0).
    + destruct (planned_calls coordinates later device) as [[c r] |] eqn:Hp;
        [| discriminate].
      intros H. inversion H; subst. simpl. f_equal. eapply IH; eassumption.
    + destruct (await_ack device) as [[pre remaining] |]; [| discriminate].
      destruct (planned_calls coordinates later remaining) as [[c r] |] eqn:Hp;
        [| discriminate].
      intros H. inversion H; subst.
      rewrite sent_batches_app, sent_batches_polls. simpl. f_equal.
      eapply IH; eassumption.
Qed.

Lemma slice_shift {A : Type} (l : list A) (i : nat) :
  slice l (i + batch_size) (i + batch_size + batch_size)
  = slice (skipn batch_size l) i (i + batch_size).
Proof.
  unfold slice. rewrite skipn_skipn. f_equal; lia.
Qed.

Lemma concat_slices {A : Type} (m : nat) :
  forall l : list A,
    List.length l <= m * batch_size ->
    List.concat (map (fun i => slice l i (i + batch_size))
              (map (fun k => k * batch_size) (seq 0 m))) = l.
Proof.
  induction m as [| m IH]; intros l Hl.
  - destruct l; [reflexivity | simpl in Hl; lia].
  - cbn [seq map List.concat]. rewrite <- seq_shift, !map_map.
    rewrite (map_ext _ (fun k => slice (skipn batch_size l) (k * batch_size)
                                   (k * batch_size + batch_size))).
    + rewrite <- map_map with (f := fun k => k * batch_size)
                              (g := fun i => slice (skipn batch_size l) i (i + batch_size)).
      rewrite IH by (rewrite length_skipn; lia).
      unfold slice. cbn [Nat.mul Nat.add skipn]. rewrite Nat.sub_0_r.
      apply firstn_skipn.
    + intros k. cbn [Nat.mul]. rewrite (Nat.add_comm batch_size (k * batch_size)).
      apply slice_shift.
Qed.

Lemma range_by_covers (n : nat) :
  n <= (n + batch_size - 1) / batch_size * batch_size.
Proof.
  unfold batch_size.
  pose proof (Nat.div_mod_eq (n + 10 - 1) 10) as H.
  pose proof (Nat.mod_upper_bound (n + 10 - 1) 10) as Hm. lia.
Qed.

Lemma concat_batches {A : Type} (l : list A) :
  List.concat (map (fun i => slice l i (i + batch_size))
            (range_by (List.length l) batch_size)) = l.
Proof. unfold range_by. apply concat_slices, range_by_covers. Qed.

Lemma slice_length {A : Type} (l : list A) (i : nat) :
  List.length (slice l i (i + batch_size)) <= batch_size.
Proof. unfold slice. rewrite length_firstn. lia. Qed.

(** X3: in a run that returns, during which nobody calls stop and no call
    on the transport raises, the calls on the transport are those planned
    from the pattern and the replies of the device alone (the first batch
    at once, every other batch after polls of which only the last is
    answered ["R"]), followed by [reset_theta] and ["FINISHED"]: pauses,
    resumes, status reads and schedule windows change nothing to what is
    sent. *)
Theorem pause_never_changes_what_is_sent
    (to_float : string -> option float) (fuel : nat) (file_path : string)
    (schedule_hours : schedule) (w w' : world) :
  no_stop (interference w) = true ->
  faults w = [] ->
  2 <= List.length (parse_theta_rho_file to_float (files w file_path)) ->
  run_theta_rho_file to_float fuel file_path schedule_hours w = Ret tt w' ->
  exists calls rest,
    planned_calls (parse_theta_rho_file to_float (files w file_path))
      (range_by (List.length (parse_theta_rho_file to_float (files w file_path)))
         batch_size)
      (device w) = Some (calls, rest)
    /\ transport_calls (trace w')
       = transport_calls (trace w) ++ calls
         ++ [ResetTheta; SendCommand "FINISHED" (hd EmptyString rest)].
Proof. apply run_planned. Qed.

(** X4: in such a run every point of the pattern is sent exactly once and
    in order: the batches sent, put end to end, are the pattern, and no
    batch has more than 10 points. *)
Theorem every_point_sent_once
    (to_float : string -> option float) (fuel : nat) (file_path : string)
    (schedule_hours : schedule) (w w' : world) :
  no_stop (interference w) = true ->
  faults w = [] ->
  2 <= List.length (parse_theta_rho_file to_float (files w file_path)) ->
  run_theta_rho_file to_float fuel file_path schedule_hours w = Ret tt w' ->
  exists new,
    transport_calls (trace w') = transport_calls (trace w) ++ new
    /\ List.concat (sent_batches new) = parse_theta_rho_file to_float (files w file_path)
    /\ Forall (fun b => List.length b <= batch_size) (sent_batches new).
Proof.
  intros Hi Hf Hlen Hrun.
  destruct (run_planned _ _ _ _ _ _ Hi Hf Hlen Hrun) as (calls & rest & Hplan & Hcalls).
  exists (calls ++ [ResetTheta; SendCommand "FINISHED" (hd EmptyString rest)]).
  split; [exact Hcalls |].
  rewrite sent_batches_app. simpl. rewrite app_nil_r.
  rewrite (planned_batches _ _ _ _ _ Hplan). split.
  - apply concat_batches.
  - apply Forall_forall. intros b Hb. apply in_map_iff in Hb as (i & <- & _).
    apply slice_length.
Qed.

Lemma pause_never_changes_what_is_sent_witness :
  let w := sample_world ["busy"; "R"; "R"] [[]; [CallPause]; [CallResume]; [CallStatus]] in
  exists w',
    run_theta_rho_file PyFloat.float_of_literal 3 star_thr None w = Ret tt w'
    /\ exists calls rest,
         planned_calls star (range_by 25 batch_size) (device w) = Some (calls, rest)
         /\ transport_calls (trace w')
            = transport_calls (trace w) ++ calls
              ++ [ResetTheta; SendCommand "FINISHED" (hd EmptyString rest)].
Proof.
  cbv zeta. set (w := sample_world _ _).
  assert (Hrun : exists w',
             run_theta_rho_file PyFloat.float_of_literal 3 star_thr None w = Ret tt w').
  { vm_compute. eexists. reflexivity. }
  destruct Hrun as (w' & Hrun). exists w'. split; [exact Hrun |].
  apply (pause_never_changes_what_is_sent PyFloat.float_of_literal 3 star_thr None w w').
  - reflexivity.
  - reflexivity.
  - vm_compute. lia.
  - exact Hrun.
Defined.

Lemma every_point_sent_once_witness :
  let w := sample_world ["busy"; "R"; "R"] [[]; [CallPause]; [CallResume]; [CallStatus]] in
  exists w',
    run_theta_rho_file PyFloat.float_of_literal 3 star_thr None w = Ret tt w'
    /\ exists new,
         transport_calls (trace w') = transport_calls (trace w) ++ new
         /\ List.concat (sent_batches new) = star
         /\ Forall (fun b => List.length b <= batch_size) (sent_batches new).
Proof.
  cbv zeta. set (w := sample_world _ _).
  assert (Hrun : exists w',
             run_theta_rho_file PyFloat.float_of_literal 3 star_thr None w = Ret tt w').
  { vm_compute. eexists. reflexivity. }
  destruct Hrun as (w' & Hrun). exists w'. split; [exact Hrun |].
  apply (every_point_sent_once PyFloat.float_of_literal 3 star_thr None w w').
  - reflexivity.
  - reflexivity.
  - vm_compute. lia.
  - exact Hrun.
Defined.

(** ** Stop, pause and the batch of the current iteration *)

(** X5: [stop_requested] is read once per iteration of the batch loop,
    before the pause gate.  Once that test has passed, the batch of the
    iteration is sent as soon as the gate opens (after its handshake when
    it is not the first batch), whatever happened meanwhile: a stop that
    wakes a paused run does not keep the run from sending that batch. *)
Theorem iteration_commits_its_batch
    (fuel : nat) (schedule_hours : schedule) (coordinates : list point)
    (total i : nat) (later : list nat) (w w1 : world) (pre rest : list string) :
  stop_requested (st (preempt w)) = false ->
  pause_gate fuel (preempt w) = Ret tt w1 ->
  faults w = [] ->
  (i <> 0 ->
   device w = pre ++ "R" :: rest
   /\ Forall (fun r => r <> "R") pre /\ List.length pre < fuel) ->
  exists w2,
    stream_batches fuel schedule_hours coordinates total (i :: later) w
    = stream_batches fuel schedule_hours coordinates total later w2
    /\ transport_calls (trace w2)
       = transport_calls (trace w)
         ++ (if i =? 0 then [] else map (SendCommand "R") pre ++ [SendCommand "R" "R"])
         ++ [SendBatch (slice coordinates i (i + batch_size))].
Proof.
  intros Hstop Hgate Hf Hdev.
  cbn [stream_batches]. rewrite Hstop. unfold bind at 1. rewrite Hgate.
  pose proof (calm_pause_gate fuel (preempt w)) as Hcalm. rewrite Hgate in Hcalm.
  pose proof (undisturbed_trans _ _ _ (undisturbed_preempt w) Hcalm)
    as [_ Hd1 Hf1 Hc1].
  destruct (Nat.eqb_spec i 0) as [-> | Hi].
  - unfold bind at 1. rewrite send_coordinate_batch_ok by congruence.
    unfold bind at 1, step at 1. eexists. split; [reflexivity |].
    cbn [trace with_st]. rewrite transport_calls_log.
    rewrite (same_calls _ _ (undisturbed_preempt w1)), Hc1. reflexivity.
  - destruct (Hdev Hi) as (Hdevice & Hpre & Hfuel).
    destruct (handshake_acknowledged schedule_hours
                (slice coordinates i (i + batch_size)) i total pre fuel w1 rest)
      as (w2 & Hrun & Hcalls & _); try congruence; try assumption.
    unfold bind at 1. rewrite Hrun. exists w2. split; [reflexivity |].
    rewrite Hcalls, Hc1. now rewrite <- !app_assoc.
Qed.

Lemma iteration_commits_its_batch_witness :
  let w := with_st (set_pause_requested true)
             (sample_world ["busy"; "R"] [[]; [CallStop]]) in
  exists w1 w2,
    stop_requested (st (preempt w)) = false
    /\ pause_gate 2 (preempt w) = Ret tt w1
    /\ stop_requested (st w1) = true
    /\ stream_batches 2 None star 25 [10; 20] w = stream_batches 2 None star 25 [20] w2
    /\ transport_calls (trace w2)
       = [SendCommand "R" "busy"; SendCommand "R" "R";
          SendBatch (slice star 10 (10 + batch_size))].
Proof.
  cbv zeta. set (w := with_st _ _).
  assert (Hgate : exists w1, pause_gate 2 (preempt w) = Ret tt w1
                             /\ stop_requested (st w1) = true).
  { vm_compute. eexists. split; reflexivity. }
  destruct Hgate as (w1 & Hgate & Hstopped).
  destruct (iteration_commits_its_batch 2 None star 25 10 [20] w w1 ["busy"] [])
    as (w2 & Hrun & Hcalls).
  - reflexivity.
  - exact Hgate.
  - reflexivity.
  - intros _. split; [reflexivity |]. split; [| simpl; lia].
    repeat constructor. discriminate.
  - exists w1, w2. split; [reflexivity |]. split; [exact Hgate |].
    split; [exact Hstopped |]. split; [exact Hrun | exact Hcalls].
Defined.

(** X6: the pause gate lets the run through only when [pause_requested]
    is false, and makes no call on the transport meanwhile; a run that
    finds the flag set, while no other thread acts any more, stays blocked
    for ever. *)
Theorem pause_gate_opens_when_resumed (fuel : nat) (w w' : world) :
  (pause_gate fuel w = Ret tt w' ->
   pause_requested (st w') = false
   /\ transport_calls (trace w') = transport_calls (trace w))
  /\ (pause_requested (st w) = true -> interference w = [] ->
      pause_gate (S (S fuel)) w = Blocked (_update_mqtt_state w)).
Proof.
  split.
  - intros Hrun. split.
    + revert w Hrun. induction fuel as [| fuel IH]; intros w; simpl; [discriminate |].
      destruct (pause_requested (st w)) eqn:Hp.
      * unfold bind.
        destruct (wait fuel _ (_update_mqtt_state w)) as [[] w1 | w1 | w1 |];
          try discriminate.
        apply IH.
      * intros H. inversion H; subst. exact Hp.
    + pose proof (calm_pause_gate fuel w) as Hcalm. rewrite Hrun in Hcalm.
      apply (same_calls _ _ Hcalm).
  - intros Hp Hi. cbn [pause_gate]. rewrite Hp. unfold bind. cbn [wait].
    assert (Hi' : interference (_update_mqtt_state w) = []).
    { unfold _update_mqtt_state. destruct (mqtt_enabled w); simpl; exact Hi. }
    now rewrite Hi'.
Qed.

Lemma pause_gate_opens_when_resumed_witness :
  let w := with_st (set_pause_requested true) (sample_world [] [[CallStatus]; [CallResume]]) in
  let v := with_st (set_pause_requested true) (sample_world [] []) in
  (exists w', pause_gate 3 w = Ret tt w'
              /\ pause_requested (st w') = false
              /\ transport_calls (trace w') = transport_calls (trace w))
  /\ pause_gate 3 v = Blocked (_update_mqtt_state v).
Proof.
  cbv zeta. split.
  - set (w := with_st _ _).
    assert (Hrun : exists w', pause_gate 3 w = Ret tt w').
    { vm_compute. eexists. reflexivity. }
    destruct Hrun as (w' & Hrun). exists w'. split; [exact Hrun |].
    apply (pause_gate_opens_when_resumed 3 w w'). exact Hrun.
  - apply (pause_gate_opens_when_resumed 1 _ (sample_world [] [])); reflexivity.
Defined.

(** ** Playlists that loop *)

Lemma never_raises_ret {A : Type} (a : A) : never_raises (ret a).
Proof. intros w w'. discriminate. Qed.

Lemma never_raises_bind {A B : Type} (m : M A) (k : A -> M B) :
  never_raises m -> (forall a, never_raises (k a)) -> never_raises (bind m k).
Proof.
  intros Hm Hk w w'. unfold bind.
  destruct (m w) as [a w1 | w1 | w1 |] eqn:H; try discriminate.
  - apply Hk.
  - now apply Hm in H.
Qed.

Lemma never_raises_step (f : world -> world) : never_raises (step f).
Proof. intros w w'. discriminate. Qed.

Lemma never_raises_sleep (seconds : nat) : never_raises (sleep seconds).
Proof. intros w w'. discriminate. Qed.

Lemma never_raises_get_clear_pattern_file (name : string) :
  never_raises (get_clear_pattern_file name).
Proof.
  intros w w'. destruct (get_clear_pattern_file_total name w) as (p & v & H).
  rewrite H. discriminate.
Qed.

Section LoopingPlaylist.
Variable to_float : string -> option float.
Variables (fuel n pause_time : nat) (clear_pattern : option string)
  (schedule_hours : schedule).

Lemma never_raises_run_theta_rho_file (path : string) :
  never_raises (run_theta_rho_file to_float fuel path schedule_hours).
Proof. intros w w'. apply run_theta_rho_file_not_raise. Qed.

(** The clear pattern of an item, run from a state in which no stop is
    requested, never ends the function. *)
Lemma clearing_completes (w w' : world) (e : exit) :
  stop_requested (st w) = false ->
  (if truthy clear_pattern then
     fun w1 : world =>
       if stop_requested (st w1) then Ret Stopped w1
       else
         (clear_file_path <-
            get_clear_pattern_file
              (match clear_pattern with Some s => s | None => EmptyString end) ;;
          step (with_st (set_is_clearing true)) ;;
          run_theta_rho_file to_float fuel clear_file_path schedule_hours ;;
          step (with_st (set_is_clearing false)) ;;
          ret Completed)%run w1
   else ret Completed) w = Ret e w' ->
  e = Completed.
Proof.
  intros Hs. destruct (truthy clear_pattern).
  - rewrite Hs. unfold bind at 1.
    destruct (get_clear_pattern_file _ w) as [p w1 | w1 | w1 |]; try discriminate.
    unfold bind at 1, step at 1. unfold bind at 1.
    destruct (run_theta_rho_file _ _ _ _ _) as [[] w2 | w2 | w2 |]; try discriminate.
    unfold bind, step, ret. intros H. now inversion H.
  - unfold ret. intros H. now inversion H.
Qed.

Lemma clearing_never_raises (w w' : world) :
  (if truthy clear_pattern then
     fun w1 : world =>
       if stop_requested (st w1) then Ret Stopped w1
       else
         (clear_file_path <-
            get_clear_pattern_file
              (match clear_pattern with Some s => s | None => EmptyString end) ;;
          step (with_st (set_is_clearing true)) ;;
          run_theta_rho_file to_float fuel clear_file_path schedule_hours ;;
          step (with_st (set_is_clearing false)) ;;
          ret Completed)%run w1
   else ret Completed) w <> Raise w'.
Proof.
  destruct (truthy clear_pattern); [| discriminate].
  destruct (stop_requested (st w)); [discriminate |].
  revert w w'. apply never_raises_bind; [apply never_raises_get_clear_pattern_file |].
  intros p. apply never_raises_bind; [apply never_raises_step |].
  intros _. apply never_raises_bind; [apply never_raises_run_theta_rho_file |].
  intros _. apply never_raises_bind; [apply never_raises_step |].
  intros _. apply never_raises_ret.
Qed.

Lemma play_items_stopped_flag (items : list string) :
  forall idx w w',
    play_items to_float fuel n pause_time clear_pattern schedule_hours idx items w
    = Ret Stopped w' ->
    stop_requested (st w') = true.
Proof.
  induction items as [| path later IH]; intros idx w w'; [discriminate |].
  cbn [play_items].
  set (w0 := schedule_checker _ _).
  destruct (stop_requested (st w0)) eqn:Hs0.
  { intros H. inversion H; subst. exact Hs0. }
  unfold bind at 1.
  match goal with
  | |- match ?c with _ => _ end = _ -> _ =>
      destruct c as [e w1 | w1 | w1 |] eqn:Hclear; try discriminate
  end.
  apply (clearing_completes w0 w1 e Hs0) in Hclear. subst e.
  unfold bind at 1.
  match goal with
  | |- match ?c with _ => _ end = _ -> _ =>
      destruct c as [[] w2 | w2 | w2 |]; try discriminate
  end.
  destruct (idx <? n - 1).
  - destruct (stop_requested (st w2)) eqn:Hs2.
    + intros H. inversion H; subst. exact Hs2.
    + unfold bind at 1.
      destruct ((if 0 <? pause_time then sleep pause_time else ret tt) w2)
        as [[] w3 | w3 | w3 |]; try discriminate.
      apply IH.
  - apply IH.
Qed.

Lemma play_items_never_raises (items : list string) :
  forall idx, never_raises
    (play_items to_float fuel n pause_time clear_pattern schedule_hours idx items).
Proof.
  induction items as [| path later IH]; intros idx w w'; [discriminate |].
  cbn [play_items].
  set (w0 := schedule_checker _ _).
  destruct (stop_requested (st w0)) eqn:Hs0; [discriminate |].
  unfold bind at 1.
  match goal with
  | |- match ?c with _ => _ end <> _ =>
      destruct c as [e w1 | w1 | w1 |] eqn:Hclear; try discriminate
  end.
  2: { now apply clearing_never_raises in Hclear. }
  apply (clearing_completes w0 w1 e Hs0) in Hclear. subst e.
  unfold bind at 1.
  match goal with
  | |- match ?c with _ => _ end <> _ =>
      destruct c as [[] w2 | w2 | w2 |] eqn:Hrun; try discriminate
  end.
  2: { destruct (negb (stop_requested (st w1))); [| discriminate].
       now apply run_theta_rho_file_not_raise in Hrun. }
  destruct (idx <? n - 1).
  - destruct (stop_requested (st w2)); [discriminate |].
    unfold bind at 1.
    destruct ((if 0 <? pause_time then sleep pause_time else ret tt) w2)
      as [[] w3 | w3 | w3 |] eqn:Hsleep; try discriminate.
    + apply IH.
    + destruct (0 <? pause_time); discriminate.
  - apply IH.
Qed.

End LoopingPlaylist.

Lemma shuffle_from_total {A : Type} (k : nat) :
  forall (l : list A) (w : world), exists l' w', shuffle_from k l w = Ret l' w'.
Proof.
  induction k as [| k IH]; intros l w; [unfold shuffle_from, ret; eauto |].
  cbn [shuffle_from]. unfold bind, randbelow. destruct (entropy w); apply IH.
Qed.

Lemma random_shuffle_total {A : Type} (l : list A) (w w' : world) :
  random_shuffle l w <> Raise w'.
Proof.
  unfold random_shuffle.
  destruct (shuffle_from_total (List.length l - 1) l w) as (l' & v & ->).
  discriminate.
Qed.

Lemma play_passes_indefinite
    (to_float : string -> option float) (fuel pause_time : nat)
    (clear_pattern : option string) (shuffle : bool) (schedule_hours : schedule)
    (passes : nat) :
  forall (file_paths : list string) (w : world),
    match play_passes to_float fuel passes file_paths pause_time clear_pattern
            "indefinite" shuffle schedule_hours w with
    | Ret Completed _ | Raise _ => False
    | Ret Stopped w' => stop_requested (st w') = true
    | Blocked _ | OutOfFuel => True
    end.
Proof.
  induction passes as [| passes IH]; intros file_paths w; [exact I |].
  cbn [play_passes]. unfold bind at 1.
  destruct (play_items _ _ _ _ _ _ _ _ w) as [[] w1 | w1 | w1 |] eqn:Hitems.
  - change (String.eqb "indefinite" "indefinite") with true. cbv iota.
    unfold bind at 1.
    destruct ((if 0 <? pause_time then sleep pause_time else ret tt) w1)
      as [[] w2 | w2 | w2 |] eqn:Hsleep; try exact I.
    + unfold bind at 1.
      destruct ((if shuffle then reshuffle file_paths else ret file_paths) w2)
        as [file_paths' w3 | w3 | w3 |] eqn:Hshuffle; try exact I.
      * apply IH.
      * destruct shuffle; [| discriminate].
        unfold reshuffle, bind in Hshuffle.
        destruct (random_shuffle file_paths w2) as [l v | v | v |] eqn:Hr;
          try discriminate.
        -- destruct (current_playlist (st v)); discriminate.
        -- now apply random_shuffle_total in Hr.
    + destruct (0 <? pause_time); discriminate.
  - unfold ret. now apply play_items_stopped_flag in Hitems.
  - now apply play_items_never_raises in Hitems.
  - exact I.
  - exact I.
Qed.

(** X7: a playlist run in "indefinite" mode never reaches the end of the
    function and lets no exception out: when it returns, it is by a
    [return] under [stop_requested], the flag being set at that moment. *)
Theorem indefinite_playlist_ends_by_stop_only
    (to_float : string -> option float) (fuel : nat) (file_paths : list string)
    (pause_time : nat) (clear_pattern : option string) (shuffle : bool)
    (schedule_hours : schedule) (w : world) :
  match run_theta_rho_files to_float fuel file_paths pause_time clear_pattern
          "indefinite" shuffle schedule_hours w with
  | Ret Completed _ | Raise _ => False
  | Ret Stopped w' => stop_requested (st w') = true
  | Blocked _ | OutOfFuel => True
  end.
Proof.
  unfold run_theta_rho_files, bind at 1, step at 1. unfold bind at 1.
  destruct ((if shuffle then random_shuffle file_paths else ret file_paths) _)
    as [paths w1 | w1 | w1 |] eqn:Hshuffle; try exact I.
  - unfold bind at 1, step at 1. apply play_passes_indefinite.
  - destruct shuffle; [| discriminate].
    now apply random_shuffle_total in Hshuffle.
Qed.

Lemma play_passes_empty
    (to_float : string -> option float) (fuel pause_time : nat)
    (clear_pattern : option string) (shuffle : bool) (schedule_hours : schedule)
    (passes : nat) :
  forall w : world,
    play_passes to_float fuel passes [] pause_time clear_pattern "indefinite"
      shuffle schedule_hours w = OutOfFuel.
Proof.
  induction passes as [| passes IH]; intros w; [reflexivity |].
  cbn [play_passes play_items]. unfold bind at 1, ret at 1.
  change (String.eqb "indefinite" "indefinite") with true. cbv iota.
  unfold bind at 1.
  assert (Hsleep : exists w1,
             (if 0 <? pause_time then sleep pause_time else ret tt) w = Ret tt w1).
  { destruct (0 <? pause_time); unfold sleep, ret; eauto. }
  destruct Hsleep as (w1 & ->).
  unfold bind at 1.
  assert (Hshuffle : exists w2,
             (if shuffle then reshuffle [] else ret []) w1 = Ret [] w2).
  { destruct shuffle; [| unfold ret; eauto].
    unfold reshuffle, bind, random_shuffle. cbn [List.length Nat.sub shuffle_from].
    unfold ret. destruct (current_playlist (st w1)); eauto. }
  destruct Hshuffle as (w2 & ->). apply IH.
Qed.

(** X8: an empty playlist in "indefinite" mode never returns, whatever the
    other threads do: its loop has no item in which [stop_requested] could
    be read.  (However large the bound on the passes, the run reaches it.) *)
Theorem empty_indefinite_playlist_never_returns
    (to_float : string -> option float) (fuel pause_time : nat)
    (clear_pattern : option string) (shuffle : bool) (schedule_hours : schedule)
    (w : world) :
  run_theta_rho_files to_float fuel [] pause_time clear_pattern "indefinite"
    shuffle schedule_hours w = OutOfFuel.
Proof.
  unfold run_theta_rho_files, bind at 1, step at 1. unfold bind at 1.
  assert (Hshuffle : exists w1,
             (if shuffle then random_shuffle [] else ret [])
               (with_st (set_stop_requested false) w) = Ret ([] : list string) w1).
  { destruct shuffle; unfold random_shuffle, ret; simpl; eauto. }
  destruct Hshuffle as (w1 & ->).
  unfold bind at 1, step at 1. apply play_passes_empty.
Qed.

(** ** Shuffled playlists *)

Lemma set_nth_app {A : Type} (l1 l2 : list A) (k : nat) (x : A) :
  set_nth (List.length l1 + k) x (l1 ++ l2) = l1 ++ set_nth k x l2.
Proof. induction l1 as [| y l1 IH]; simpl; [reflexivity | now rewrite IH]. Qed.

Lemma set_nth_here {A : Type} (l1 l2 : list A) (a x : A) :
  set_nth (List.length l1) x (l1 ++ a :: l2) = l1 ++ x :: l2.
Proof.
  rewrite <- (Nat.add_0_r (List.length l1)). now rewrite set_nth_app.
Qed.

Lemma swap_middle {A : Type} (a b : A) (l3 l4 : list A) :
  Permutation (a :: l3 ++ b :: l4) (b :: l3 ++ a :: l4).
Proof.
  transitivity (a :: b :: l3 ++ l4).
  - constructor. symmetry. apply Permutation_middle.
  - transitivity (b :: a :: l3 ++ l4); [constructor |].
    constructor. apply Permutation_middle.
Qed.

(** Two positions [i < j] of a list that hold [a] and [b]. *)
Lemma split_two {A : Type} (l : list A) (i j : nat) (a b : A) :
  i < j -> nth_error l i = Some a -> nth_error l j = Some b ->
  exists l1 l3 l4,
    l = l1 ++ a :: l3 ++ b :: l4
    /\ List.length l1 = i /\ j = List.length l1 + S (List.length l3).
Proof.
  intros Hij Hi Hj.
  destruct (nth_error_split l i Hi) as (l1 & l2 & -> & Hl1).
  rewrite nth_error_app2 in Hj by lia.
  replace (j - List.length l1) with (S (j - i - 1)) in Hj by lia. simpl in Hj.
  destruct (nth_error_split l2 _ Hj) as (l3 & l4 & -> & Hl3).
  exists l1, l3, l4. repeat split; [assumption | lia].
Qed.

Lemma swap_permutation {A : Type} (i j : nat) (l : list A) :
  Permutation l (swap i j l).
Proof.
  unfold swap.
  destruct (nth_error l i) as [a |] eqn:Hi; [| reflexivity].
  destruct (nth_error l j) as [b |] eqn:Hj; [| reflexivity].
  destruct (Nat.lt_trichotomy i j) as [Hlt | [-> | Hgt]].
  - destruct (split_two l i j a b Hlt Hi Hj) as (l1 & l3 & l4 & -> & Hl1 & ->).
    rewrite <- Hl1, set_nth_here, set_nth_app. cbn [set_nth].
    rewrite set_nth_here.
    apply Permutation_app_head, swap_middle.
  - assert (a = b) by congruence. subst b.
    destruct (nth_error_split l j Hi) as (l1 & l2 & -> & Hl1).
    rewrite <- Hl1, !set_nth_here. reflexivity.
  - destruct (split_two l j i b a Hgt Hj Hi) as (l1 & l3 & l4 & -> & Hl1 & ->).
    rewrite set_nth_app. cbn [set_nth]. rewrite set_nth_here.
    rewrite <- Hl1, set_nth_here.
    apply Permutation_app_head, swap_middle.
Qed.

Lemma shuffle_from_permutation {A : Type} (k : nat) :
  forall (l l' : list A) (w w' : world),
    shuffle_from k l w = Ret l' w' ->
    Permutation l l' /\ undisturbed w w' /\ st w' = st w /\ trace w' = trace w.
Proof.
  induction k as [| k IH]; intros l l' w w'.
  - intros H. inversion H; subst. split; [reflexivity |].
    split; [apply undisturbed_refl | now split].
  - cbn [shuffle_from]. unfold bind, randbelow.
    destruct (entropy w) as [| r later]; intros H; apply IH in H;
      destruct H as (Hp & Hu & Hs & Ht).
    + split; [| split; [exact Hu | split; assumption]].
      etransitivity; [apply swap_permutation | exact Hp].
    + split; [etransitivity; [apply swap_permutation | exact Hp] |].
      split; [| split; assumption].
      eapply undisturbed_trans; [| exact Hu]. now split.
Qed.

(** X9: the playlist that a run publishes and plays is a permutation of
    the paths it was given, the same list when [shuffle] is off; and what
    the reshuffle between two passes of an "indefinite" run gives is again
    a permutation. *)
Theorem shuffle_keeps_the_files
    (to_float : string -> option float) (fuel : nat) (file_paths : list string)
    (pause_time : nat) (clear_pattern : option string) (run_mode : string)
    (shuffle : bool) (schedule_hours : schedule) (w : world) :
  (exists paths w1,
     Permutation file_paths paths
     /\ (shuffle = false -> paths = file_paths)
     /\ current_playlist (st w1) = Some paths
     /\ run_theta_rho_files to_float fuel file_paths pause_time clear_pattern
          run_mode shuffle schedule_hours w
        = play_passes to_float fuel fuel paths pause_time clear_pattern run_mode
            shuffle schedule_hours w1)
  /\ (forall paths' w', reshuffle file_paths w = Ret paths' w' ->
                        Permutation file_paths paths').
Proof.
  split.
  - unfold run_theta_rho_files, bind at 1, step at 1. unfold bind at 1.
    destruct shuffle.
    + destruct (shuffle_from_total (List.length file_paths - 1) file_paths
                  (with_st (set_stop_requested false) w)) as (paths & w1 & Hs).
      unfold random_shuffle. rewrite Hs.
      apply shuffle_from_permutation in Hs as (Hp & _).
      unfold bind at 1, step at 1.
      eexists. eexists. split; [exact Hp |]. split; [discriminate |].
      split; [| reflexivity]. reflexivity.
    + unfold ret, bind at 1, step at 1.
      eexists. eexists. split; [reflexivity |]. split; [reflexivity |].
      split; [| reflexivity]. reflexivity.
  - intros paths' w'. unfold reshuffle, bind, random_shuffle.
    destruct (shuffle_from _ file_paths w) as [l v | v | v |] eqn:Hs;
      try discriminate.
    apply shuffle_from_permutation in Hs as (Hp & _).
    destruct (current_playlist (st v)); intros H; inversion H; subst; exact Hp.
Qed.

Lemma shuffle_keeps_the_files_witness :
  let w := with_entropy [5; 7; 0] (sample_world [] []) in
  exists paths' w',
    reshuffle ["a.thr"; "b.thr"; "c.thr"; "d.thr"] w = Ret paths' w'
    /\ paths' <> ["a.thr"; "b.thr"; "c.thr"; "d.thr"]
    /\ Permutation ["a.thr"; "b.thr"; "c.thr"; "d.thr"] paths'.
Proof.
  cbv zeta. set (w := with_entropy _ _).
  assert (Hrun : exists paths' w',
             reshuffle ["a.thr"; "b.thr"; "c.thr"; "d.thr"] w = Ret paths' w'
             /\ paths' <> ["a.thr"; "b.thr"; "c.thr"; "d.thr"]).
  { vm_compute. eexists. eexists. split; [reflexivity | discriminate]. }
  destruct Hrun as (paths' & w' & Hrun & Hne).
  exists paths', w'. split; [exact Hrun |]. split; [exact Hne |].
  apply (shuffle_keeps_the_files PyFloat.float_of_literal 1
           ["a.thr"; "b.thr"; "c.thr"; "d.thr"] 0 None "single" true None w)
    with (w' := w').
  exact Hrun.
Defined.

(** ** The schedule window and the thread that waits for it *)

Lemma remove_nth_last {A : Type} (l : list A) (x : A) :
  remove_nth (List.length l) (l ++ [x]) = l.
Proof. induction l as [| y l IH]; simpl; [reflexivity | now rewrite IH]. Qed.

Lemma nth_error_last {A : Type} (l : list A) (x : A) :
  nth_error (l ++ [x]) (List.length l) = Some x.
Proof. rewrite nth_error_app2, Nat.sub_diag by lia. reflexivity. Qed.

Lemma gate_released (window : time_of_day * time_of_day) (t1 : time_of_day)
    (k fuel : nat) (later : list (list activity)) (v : world) :
  pause_requested (st v) = true ->
  interference v = [ClockShows t1; WaiterIterates k] :: later ->
  nth_error (waiters v) k = Some window ->
  within window t1 = true ->
  exists w',
    pause_gate (S (S fuel)) v = Ret tt w'
    /\ pause_requested (st w') = false
    /\ interference w' = later.
Proof.
  destruct v as [s n ws m t c f d fl intf e]. cbn [st interference waiters].
  intros Hp -> Hk H1.
  cbn [pause_gate st]. rewrite Hp. unfold bind, _update_mqtt_state.
  cbn [mqtt_enabled].
  assert (Hlt : (n <? S n) = true) by (apply Nat.ltb_lt; lia).
  destruct m;
    unfold log, with_trace, wait, preempt, with_interference;
    cbn [st notifications waiters mqtt_enabled trace clock files device
         faults interference entropy fold_left act];
    unfold with_clock, wait_for_start_time_iteration;
    cbn [st notifications waiters mqtt_enabled trace clock files device
         faults interference entropy];
    rewrite Hk, Hp, H1;
    unfold notify_all, with_waiters, with_notifications, with_st;
    cbn [st notifications waiters mqtt_enabled trace clock files device
         faults interference entropy];
    rewrite Hlt;
    cbn [pause_gate st pause_requested set_pause_requested];
    eexists; (split; [reflexivity |]); split; reflexivity.
Qed.

(** X10: the schedule gate and the thread it starts.  A check outside the
    window requests a pause and starts a waiter; as long as the clock is
    outside the window an iteration of the waiter changes nothing; once the
    clock is inside, the iteration clears the pause, notifies the waiters
    of the condition once and ends the thread, so that a run blocked at the
    pause gate goes on. *)
Theorem schedule_pause_is_lifted_by_the_waiter
    (window : time_of_day * time_of_day) (w : world) (t0 t1 : time_of_day)
    (fuel : nat) (later : list (list activity)) :
  within window (clock w) = false ->
  within window t0 = false ->
  within window t1 = true ->
  let w1 := schedule_checker (Some window) w in
  let k := List.length (waiters w) in
  let w3 := wait_for_start_time_iteration k (with_clock t1 w1) in
  pause_requested (st w1) = true
  /\ wait_for_start_time_iteration k (with_clock t0 w1) = with_clock t0 w1
  /\ st w3 = set_pause_requested false (st w)
  /\ notifications w3 = S (notifications w)
  /\ waiters w3 = waiters w
  /\ exists w',
       pause_gate (S (S fuel))
         (with_interference ([ClockShows t1; WaiterIterates k] :: later) w1)
       = Ret tt w'
       /\ pause_requested (st w') = false
       /\ interference w' = later.
Proof.
  intros Hout H0 H1. cbv zeta.
  destruct w as [s n ws m t c f d fl intf e]. cbn [clock waiters] in *.
  unfold schedule_checker. cbn [clock]. rewrite Hout.
  unfold with_st;
    cbn [st notifications waiters mqtt_enabled trace clock files device
         faults interference entropy].
  unfold with_waiters;
    cbn [st notifications waiters mqtt_enabled trace clock files device
         faults interference entropy].
  unfold log, with_trace;
    cbn [st notifications waiters mqtt_enabled trace clock files device
         faults interference entropy].
  unfold with_clock, with_interference;
    cbn [st notifications waiters mqtt_enabled trace clock files device
         faults interference entropy].
  unfold wait_for_start_time_iteration;
    cbn [st notifications waiters mqtt_enabled trace clock files device
         faults interference entropy pause_requested set_pause_requested].
  rewrite !nth_error_last. rewrite H0, H1.
  unfold notify_all, with_st, with_notifications, with_waiters;
    cbn [st notifications waiters mqtt_enabled trace clock files device
         faults interference entropy].
  split; [reflexivity |]. split; [reflexivity |].
  split; [destruct s; reflexivity |].
  split; [reflexivity |].
  split; [apply remove_nth_last |].
  apply (gate_released window t1 (List.length ws) fuel later).
  - reflexivity.
  - reflexivity.
  - apply nth_error_last.
  - exact H1.
Qed.

Lemma schedule_pause_is_lifted_by_the_waiter_witness :
  let window := (mkTime 9 0 0 0, mkTime 17 0 0 0) in
  let w := with_clock (mkTime 8 0 0 0) (sample_world [] []) in
  let w1 := schedule_checker (Some window) w in
  pause_requested (st w1) = true
  /\ exists w',
       pause_gate 2
         (with_interference [[ClockShows (mkTime 9 0 0 0); WaiterIterates 0]] w1)
       = Ret tt w'
       /\ pause_requested (st w') = false
       /\ interference w' = [].
Proof.
  cbv zeta.
  destruct (schedule_pause_is_lifted_by_the_waiter
              (mkTime 9 0 0 0, mkTime 17 0 0 0)
              (with_clock (mkTime 8 0 0 0) (sample_world [] []))
              (mkTime 8 30 0 0) (mkTime 9 0 0 0) 0 [])
    as (Hp & _ & _ & _ & _ & Hgate); try reflexivity.
  split; [exact Hp | exact Hgate].
Defined.

(** ** More on the parser *)

Lemma valid_points_by_tokens (to_float : string -> option float)
    (lines1 lines2 : list string) :
  map PyStr.split lines1 = map PyStr.split lines2 ->
  valid_points to_float lines1 = valid_points to_float lines2.
Proof.
  revert lines2. induction lines1 as [| l1 r1 IH]; intros [| l2 r2] H;
    try discriminate; [reflexivity |].
  simpl in H. inversion H as [[Hl Hr]]. simpl.
  unfold two_float_tokens. rewrite Hl. f_equal. now apply IH.
Qed.

(** X11: what the parser returns depends on the tokens of the lines only:
    two files whose lines split into the same tokens parse to the same
    pattern, so that the white space around and between the two numbers,
    whatever its kind and its amount, is irrelevant; in particular
    stripping every line changes nothing. *)
Theorem parse_depends_on_tokens_only
    (to_float : string -> option float)
    (no_hash : forall tok, PyStr.startswith tok "#" = true -> to_float tok = None)
    (lines1 lines2 : list string) :
  (map PyStr.split lines1 = map PyStr.split lines2 ->
   parse_theta_rho_file to_float (Text lines1)
   = parse_theta_rho_file to_float (Text lines2))
  /\ parse_theta_rho_file to_float (Text (map PyStr.strip lines1))
     = parse_theta_rho_file to_float (Text lines1).
Proof.
  simpl. rewrite !(read_coordinates_spec to_float no_hash). split.
  - intros H. now rewrite (valid_points_by_tokens to_float lines1 lines2 H).
  - f_equal. apply valid_points_by_tokens. rewrite map_map.
    apply map_ext. intros l. apply split_strip.
Qed.

Lemma parse_depends_on_tokens_only_witness :
  let tab := String (ascii_of_nat 9) EmptyString in
  let lines1 := ["1 0.5"; ("  2" ++ tab ++ "0.25  ")%string; "oops"] in
  let lines2 := [" 1    0.5"; "2 0.25"; " oops "] in
  map PyStr.split lines1 = [["1"; "0.5"]; ["2"; "0.25"]; ["oops"]]
  /\ parse_theta_rho_file PyFloat.float_of_literal (Text lines1)
     = parse_theta_rho_file PyFloat.float_of_literal (Text lines2).
Proof.
  cbv zeta. split; [reflexivity |].
  apply (parse_depends_on_tokens_only PyFloat.float_of_literal
           float_of_literal_no_hash). reflexivity.
Defined.

Lemma sub_zero_r (x : float) : PrimFloat.sub x PrimFloat.zero = x.
Proof.
  apply Prim2SF_inj. rewrite sub_spec.
  change (Prim2SF PrimFloat.zero) with (S754_zero false).
  destruct (Prim2SF x) as [s | s | | s m e]; try reflexivity.
  destruct s; reflexivity.
Qed.

(** X12: the normalization is idempotent on a pattern whose first theta is
    finite: normalizing the pattern the parser returned changes nothing. *)
Theorem normalize_idempotent (coordinates : list point) :
  PrimFloat.is_finite (fst (hd origin coordinates)) = true ->
  normalize (normalize coordinates) = normalize coordinates.
Proof.
  intros Hfin. destruct coordinates as [| [t0 r0] l]; [reflexivity |].
  simpl in Hfin. cbn [normalize map fst snd].
  rewrite (sub_diag_finite t0 Hfin). cbn [normalize map fst snd].
  rewrite sub_zero_r. f_equal.
  rewrite map_map. apply map_ext. intros [t r]. cbn [fst snd].
  now rewrite sub_zero_r.
Qed.

Lemma normalize_idempotent_witness :
  let raw := [(3.5%float, 0.5%float); (4%float, 0.25%float)] in
  normalize raw = [(0%float, 0.5%float); (0.5%float, 0.25%float)]
  /\ normalize (normalize raw) = normalize raw.
Proof.
  cbv zeta. split; [vm_compute; reflexivity |].
  apply normalize_idempotent. vm_compute. reflexivity.
Defined.

(* ------------------------------------------------------------------ *)
(** ** The MQTT side *)

(** X13: [get_mqtt_state] reads the keys [is_running] and [current_file],
    which the status of the engine does not have: whatever the engine
    does, it reports that nothing runs and that no file plays. *)
Theorem get_mqtt_state_is_blind (s : ExecutionState) :
  get_mqtt_state s = (false, EmptyString).
Proof. reflexivity. Qed.

Lemma last_char_app (a b : string) :
  last_char (a ++ b)
  = match last_char b with Some d => Some d | None => last_char a end.
Proof.
  induction a as [| c a IH]; simpl.
  - now destruct (last_char b).
  - rewrite IH. now destruct (last_char b), (last_char a).
Qed.

Lemma setup_ha_discovery_published (h : MQTTHandler) :
  is_enabled h = true ->
  exists new,
    setup_ha_discovery h = with_published new h
    /\ Forall (fun m => last_char (topic m) = Some "g"%char) new.
Proof.
  destruct h as [[[| c b] |] p dn di cf rs ss ps pub]; try discriminate.
  intros _.
  lazy [setup_ha_discovery _publish_discovery publish is_enabled broker
        discovery_prefix device_name device_id current_file is_running_state
        serial_state patterns published negb PyStr.is_empty with_published
        serial_state_topic running_state_topic pattern_select_topic
        pattern_state_topic patterns_topic playlist_topic base_device].
  rewrite <- !app_assoc. cbn [app].
  eexists. split; [reflexivity |].
  repeat constructor; cbn [topic]; rewrite !last_char_app; reflexivity.
Qed.

Ltac crunch :=
  lazy [publish_report update_state update_is_running update_current_file
        update_patterns update_serial update_playlist publish_playlist
        report_arguments status_dict py_get py_lookup py_len truth of_option
        json_of_value String.eqb Ascii.eqb Bool.eqb
        arg_is_running arg_current_file arg_patterns arg_serial arg_playlist
        stop_requested pause_requested current_playing_file execution_progress
        current_playing_index current_playlist is_clearing
        publish set_current_file set_is_running_state set_serial_state
        set_patterns with_published is_enabled broker discovery_prefix
        device_name device_id current_file is_running_state serial_state
        patterns published negb orb andb PyStr.is_empty
        serial_state_topic running_state_topic pattern_select_topic
        pattern_state_topic patterns_topic playlist_topic current_file_topic
        running_message file_messages playlist_messages List.length].

Lemma report_shape (s : ExecutionState) (files : list string) (h : MQTTHandler) :
  is_enabled h = true ->
  exists h' refresh,
    publish_report s files h = Done h'
    /\ published h'
       = published h
           ++ running_message h s :: file_messages h s ++ refresh
           ++ playlist_messages h s
    /\ broker h' = broker h
    /\ device_id h' = device_id h
    /\ is_running_state h' = negb (stop_requested s || pause_requested s)
    /\ (current_playing_file s = None -> current_file h' = current_file h)
    /\ patterns h' = (if sets_differ files (patterns h) then files else patterns h)
    /\ (sets_differ files (patterns h) = false -> refresh = [])
    /\ Forall (fun m => last_char (topic m) = Some "s"%char
                        \/ last_char (topic m) = Some "g"%char) refresh.
Proof.
  destruct h as [[[| c b] |] p dn di cf rs ss ps pub]; try discriminate.
  intros _.
  destruct s as [stop pause file prog idx pl clr].
  destruct (sets_differ files ps) eqn:Hd.
  - destruct stop, pause, file as [[| c' f] |], pl as [[| x l] |], idx as [i |];
      crunch; rewrite Hd; crunch;
      match goal with
      | |- context [setup_ha_discovery ?x] =>
          destruct (setup_ha_discovery_published x eq_refl) as (nd & Hs & Hg);
          rewrite Hs
      end;
      crunch; eexists;
      exists (mkMessage (di ++ "/state/patterns")%string
                (Dumps (JArr (map JStr files))) true :: nd);
      (split; [reflexivity |]);
      (split; [rewrite <- ?app_assoc, ?app_nil_r; cbn [app]; reflexivity |]);
      (split; [reflexivity |]);
      (split; [reflexivity |]);
      (split; [reflexivity |]);
      (split; [try discriminate; reflexivity |]);
      (split; [reflexivity |]);
      (split; [discriminate |]);
      (constructor;
       [left; cbn [topic]; rewrite last_char_app; reflexivity |
        eapply Forall_impl; [| exact Hg]; intros m Hm; right; exact Hm]).
  - destruct stop, pause, file as [[| c' f] |], pl as [[| x l] |], idx as [i |];
      crunch; rewrite Hd; crunch;
      eexists; exists [];
      (split; [reflexivity |]);
      (split; [rewrite <- ?app_assoc, ?app_nil_r; cbn [app]; reflexivity |]);
      (split; [reflexivity |]);
      (split; [reflexivity |]);
      (split; [reflexivity |]);
      (split; [try discriminate; reflexivity |]);
      (split; [reflexivity |]);
      (split; [reflexivity |]);
      constructor.
Qed.

Lemma last_char_topics (h : MQTTHandler) :
  last_char (running_state_topic h) = Some "g"%char
  /\ last_char (current_file_topic h) = Some "e"%char
  /\ last_char (pattern_state_topic h) = Some "e"%char
  /\ last_char (patterns_topic h) = Some "s"%char
  /\ last_char (playlist_topic h) = Some "t"%char.
Proof.
  unfold running_state_topic, current_file_topic, pattern_state_topic,
    pattern_select_topic, patterns_topic, playlist_topic.
  rewrite !last_char_app. repeat split; reflexivity.
Qed.

Lemma file_messages_idle (h : MQTTHandler) (s : ExecutionState) :
  current_playing_file s = None -> file_messages h s = [].
Proof. unfold file_messages. now intros ->. Qed.

Lemma playlist_messages_topic (h : MQTTHandler) (s : ExecutionState) (m : message) :
  In m (playlist_messages h s) -> topic m = playlist_topic h.
Proof.
  unfold playlist_messages.
  destruct (current_playlist s) as [[| x l] |]; simpl; intros H;
    try contradiction.
  destruct H as [<- | []]. reflexivity.
Qed.

(** X14: the running flag that a report publishes is ON exactly when
    neither a stop nor a pause is requested, whether a file plays or not:
    an engine that completed its pattern and is idle is reported as
    running.  When no file plays the report publishes nothing on the two
    topics of the current file, and the handler keeps the name of the last
    file: the end of a run does not clear them. *)
Theorem running_flag_ignores_the_file (s : ExecutionState)
    (files : list string) (h : MQTTHandler) :
  is_enabled h = true ->
  exists h' new,
    publish_report s files h = Done h'
    /\ published h'
       = published h
           ++ mkMessage (running_state_topic h)
                (Plain (if stop_requested s || pause_requested s
                        then "OFF" else "ON")) true
           :: new
    /\ is_running_state h' = negb (stop_requested s || pause_requested s)
    /\ (current_playing_file s = None ->
          current_file h' = current_file h
          /\ forall m, In m new ->
               topic m <> current_file_topic h
               /\ topic m <> pattern_state_topic h).
Proof.
  intros He.
  destruct (report_shape s files h He)
    as (h' & refresh & Hrun & Hpub & _ & _ & Hflag & Hfile & _ & _ & Hrefresh).
  exists h', (file_messages h s ++ refresh ++ playlist_messages h s).
  split; [exact Hrun |]. split; [exact Hpub |]. split; [exact Hflag |].
  intros Hidle. split; [exact (Hfile Hidle) |].
  intros m Hin. rewrite (file_messages_idle h s Hidle) in Hin. simpl in Hin.
  destruct (last_char_topics h) as (_ & Hc & Hp & _ & Ht).
  assert (Hlast : last_char (topic m) <> Some "e"%char).
  { apply in_app_or in Hin as [Hin | Hin].
    - rewrite Forall_forall in Hrefresh.
      pose proof (Hrefresh m Hin) as Hm. cbv beta in Hm.
      destruct Hm as [Hm | Hm]; rewrite Hm; discriminate.
    - rewrite (playlist_messages_topic h s m Hin), Ht. discriminate. }
  split; intros Heq; rewrite Heq in Hlast; auto.
Qed.

Lemma running_flag_ignores_the_file_witness :
  let s := mkState false false None None None None false in
  exists h',
    publish_report s [] sample_handler = Done h'
    /\ published h' = [mkMessage "dune_weaver/state/running" (Plain "ON") true].
Proof.
  cbv zeta.
  destruct (running_flag_ignores_the_file
              (mkState false false None None None None false) [] sample_handler
              eq_refl)
    as (h' & new & Hrun & Hpub & _).
  exists h'. split; [exact Hrun |].
  assert (Hh : Done h'
               = Done (publish "dune_weaver/state/running" (Plain "ON") true
                         (set_is_running_state true sample_handler))).
  { rewrite <- Hrun. vm_compute. reflexivity. }
  inversion Hh. reflexivity.
Defined.

Lemma file_messages_topic (h : MQTTHandler) (s : ExecutionState) (m : message) :
  In m (file_messages h s) -> last_char (topic m) = Some "e"%char.
Proof.
  destruct (last_char_topics h) as (_ & Hc & Hp & _).
  unfold file_messages. destruct (current_playing_file s) as [f |]; simpl;
    intros H; try contradiction.
  destruct H as [<- | [<- | []]]; assumption.
Qed.

(** X15: a report of the engine never fails, and it publishes the state
    of the playlist only while a playlist that is not empty plays: the
    message then says that the playlist is active and counts its files.
    In every other state, after a stop or before the first playlist,
    nothing is published on the topic of the playlist, so that no report of
    the engine ever says that the playlist is not active. *)
Theorem playlist_published_only_when_active (s : ExecutionState)
    (files : list string) (h : MQTTHandler) :
  is_enabled h = true ->
  exists h' new,
    publish_report s files h = Done h'
    /\ published h' = published h ++ new
    /\ match current_playlist s with
       | Some (x :: l) =>
           exists before,
             new
             = before
                 ++ [ mkMessage (playlist_topic h)
                        (Dumps (JObj [ ("active", JBool true);
                                       ("current_index",
                                        match current_playing_index s with
                                        | Some i => JNum i
                                        | None => JNull
                                        end);
                                       ("total_files", JNum (S (List.length l)));
                                       ("is_clearing", JBool (is_clearing s));
                                       ("files", JArr (map JStr (x :: l))) ]))
                        true ]
             /\ forall m, In m before -> topic m <> playlist_topic h
       | _ => forall m, In m new -> topic m <> playlist_topic h
       end.
Proof.
  intros He.
  destruct (report_shape s files h He)
    as (h' & refresh & Hrun & Hpub & _ & _ & _ & _ & _ & _ & Hrefresh).
  exists h', (running_message h s :: file_messages h s ++ refresh
              ++ playlist_messages h s).
  split; [exact Hrun |]. split; [exact Hpub |].
  destruct (last_char_topics h) as (Hr & _ & _ & _ & Ht).
  assert (Hbefore : forall m,
             In m (running_message h s :: file_messages h s ++ refresh) ->
             topic m <> playlist_topic h).
  { intros m Hin Heq.
    assert (Hlast : last_char (topic m) <> Some "t"%char).
    { destruct Hin as [<- | Hin]; [cbn [running_message topic]; rewrite Hr;
                                     discriminate |].
      apply in_app_or in Hin as [Hin | Hin].
      - rewrite (file_messages_topic h s m Hin). discriminate.
      - rewrite Forall_forall in Hrefresh.
        pose proof (Hrefresh m Hin) as Hm. cbv beta in Hm.
        destruct Hm as [Hm | Hm]; rewrite Hm; discriminate. }
    rewrite Heq in Hlast. auto. }
  unfold playlist_messages.
  destruct (current_playlist s) as [[| x l] |].
  - rewrite app_nil_r. exact Hbefore.
  - exists (running_message h s :: file_messages h s ++ refresh).
    split; [| exact Hbefore].
    cbn [app]. now rewrite app_assoc.
  - rewrite app_nil_r. exact Hbefore.
Qed.

Lemma playlist_published_only_when_active_witness :
  let s := mkState false false (Some "./patterns/star.thr") (Some (0, 12))
             (Some 1) (Some ["./patterns/dot.thr"; "./patterns/star.thr"])
             false in
  exists h' new,
    publish_report s [] sample_handler = Done h'
    /\ published h' = new
    /\ exists before,
         new
         = before
             ++ [ mkMessage "dune_weaver/state/playlist"
                    (Dumps (JObj [ ("active", JBool true);
                                   ("current_index", JNum 1);
                                   ("total_files", JNum 2);
                                   ("is_clearing", JBool false);
                                   ("files",
                                    JArr [ JStr "./patterns/dot.thr";
                                           JStr "./patterns/star.thr" ]) ]))
                    true ].
Proof.
  cbv zeta.
  destruct (playlist_published_only_when_active
              (mkState false false (Some "./patterns/star.thr") (Some (0, 12))
                 (Some 1) (Some ["./patterns/dot.thr"; "./patterns/star.thr"])
                 false)
              [] sample_handler eq_refl)
    as (h' & new & Hrun & Hpub & before & Hnew & _).
  exists h', new. split; [exact Hrun |]. split; [exact Hpub |].
  exists before. exact Hnew.
Defined.

(** X16: what a stop publishes.  After [stop_execution], when the list of
    patterns did not change, the report publishes one message, the running
    flag OFF: the retained messages that name the current file and
    describe the playlist are left as they were. *)
Theorem stop_publishes_off_only (w : world) (files : list string)
    (h : MQTTHandler) :
  is_enabled h = true ->
  sets_differ files (patterns h) = false ->
  publish_report (st (stop_execution w)) files h
  = Done (publish (running_state_topic h) (Plain "OFF") true
            (set_is_running_state false h)).
Proof.
  rewrite st_stop_execution.
  destruct h as [[[| c b] |] p dn di cf rs ss ps pub]; try discriminate.
  intros _. cbn [patterns]. intros Hd.
  unfold stopped_state. crunch. rewrite Hd. reflexivity.
Qed.

Lemma stop_publishes_off_only_witness :
  publish_report (st (stop_execution (sample_world [] []))) [] sample_handler
  = Done (publish "dune_weaver/state/running" (Plain "OFF") true
            (set_is_running_state false sample_handler)).
Proof.
  apply (stop_publishes_off_only (sample_world [] []) [] sample_handler);
    reflexivity.
Defined.

Lemma subset_refl (l : list string) : subset l l = true.
Proof.
  unfold subset. apply forallb_forall. intros x Hx.
  apply existsb_exists. exists x. split; [exact Hx | apply String.eqb_refl].
Qed.

Lemma sets_differ_same (l : list string) : sets_differ l l = false.
Proof. unfold sets_differ. now rewrite subset_refl. Qed.

(** X17: the list of patterns and the discovery configurations are
    published when the set of patterns changed, and only then: whatever
    the first report of a state published, a second report of it publishes
    at most four messages, none of them on the topic of the list of
    patterns, and leaves the list that the handler keeps as it is. *)
Theorem unchanged_patterns_are_not_republished (s : ExecutionState)
    (files : list string) (h : MQTTHandler) :
  is_enabled h = true ->
  exists h1 h2 new,
    publish_report s files h = Done h1
    /\ publish_report s files h1 = Done h2
    /\ published h2 = published h1 ++ new
    /\ patterns h2 = patterns h1
    /\ List.length new <= 4
    /\ forall m, In m new -> topic m <> patterns_topic h.
Proof.
  intros He.
  destruct (report_shape s files h He)
    as (h1 & refresh & Hrun & _ & Hb & Hid & _ & _ & Hpat & _ & _).
  assert (He1 : is_enabled h1 = true) by (unfold is_enabled in *; now rewrite Hb).
  assert (Hd : sets_differ files (patterns h1) = false).
  { rewrite Hpat. destruct (sets_differ files (patterns h)) eqn:Hd;
      [apply sets_differ_same | exact Hd]. }
  destruct (report_shape s files h1 He1)
    as (h2 & refresh2 & Hrun2 & Hpub2 & _ & _ & _ & _ & Hpat2 & Hnone & _).
  rewrite (Hnone Hd) in Hpub2. rewrite Hd in Hpat2. cbn [app] in Hpub2.
  exists h1, h2,
    (running_message h1 s :: file_messages h1 s ++ playlist_messages h1 s).
  split; [exact Hrun |]. split; [exact Hrun2 |]. split; [exact Hpub2 |].
  split; [exact Hpat2 |].
  destruct (last_char_topics h1) as (Hr & _ & _ & Hs & Ht).
  split.
  - unfold file_messages, playlist_messages.
    destruct (current_playing_file s), (current_playlist s) as [[| x l] |];
      simpl; lia.
  - intros m Hin Heq.
    assert (Hlast : last_char (topic m) <> Some "s"%char).
    { destruct Hin as [<- | Hin]; [cbn [running_message topic]; rewrite Hr;
                                     discriminate |].
      apply in_app_or in Hin as [Hin | Hin].
      - rewrite (file_messages_topic h1 s m Hin). discriminate.
      - rewrite (playlist_messages_topic h1 s m Hin), Ht. discriminate. }
    apply Hlast. rewrite Heq.
    destruct (last_char_topics h) as (_ & _ & _ & Hs' & _). exact Hs'.
Qed.

Lemma unchanged_patterns_are_not_republished_witness :
  let s := mkState false false (Some "./patterns/star.thr") None None None false in
  exists h1 h2,
    publish_report s ["star.thr"; "dot.thr"] sample_handler = Done h1
    /\ publish_report s ["star.thr"; "dot.thr"] h1 = Done h2
    /\ List.length (published h1) = 12
    /\ List.length (published h2) <= 16.
Proof.
  cbv zeta.
  destruct (unchanged_patterns_are_not_republished
              (mkState false false (Some "./patterns/star.thr") None None None
                 false)
              ["star.thr"; "dot.thr"] sample_handler eq_refl)
    as (h1 & h2 & new & Hrun1 & Hrun2 & Hpub & _ & Hlen & _).
  exists h1, h2. split; [exact Hrun1 |]. split; [exact Hrun2 |].
  assert (H12 : List.length (published h1) = 12).
  { assert (Hh : option_map (fun h => List.length (published h))
                   (Some h1) = Some 12).
    { replace (Some h1)
        with (match publish_report
                      (mkState false false (Some "./patterns/star.thr") None
                         None None false)
                      ["star.thr"; "dot.thr"] sample_handler with
              | Done x => Some x
              | Failed _ => None
              end) by now rewrite Hrun1.
      vm_compute. reflexivity. }
    now inversion Hh. }
  split; [exact H12 |].
  rewrite Hpub, length_app, H12. lia.
Defined.

(** ** The name under which a file is published *)

Lemma split_on_cons (sep : ascii) (s : string) :
  exists t ts, split_on sep s = t :: ts.
Proof.
  induction s as [| a r (t & ts & IH)]; simpl; [now eexists; eexists |].
  destruct (Ascii.eqb a sep); [now eexists; eexists |].
  rewrite IH. now eexists; eexists.
Qed.

Lemma last_split_on_step (sep a : ascii) (r : string) :
  last (split_on sep (String a r)) EmptyString
  = if Ascii.eqb a sep then last (split_on sep r) EmptyString
    else match split_on sep r with
         | [t] => String a t
         | _ => last (split_on sep r) EmptyString
         end.
Proof.
  simpl. destruct (split_on_cons sep r) as (t & ts & ->).
  destruct (Ascii.eqb a sep); [reflexivity |].
  destruct ts; reflexivity.
Qed.

Lemma split_on_absent (sep : ascii) (s : string) :
  contains sep s = false -> split_on sep s = [s].
Proof.
  induction s as [| a r IH]; simpl; [reflexivity |].
  destruct (Ascii.eqb a sep); [discriminate |].
  intros H. now rewrite (IH H).
Qed.

Lemma last_split_on_shorter (sep : ascii) (s : string) :
  String.length (last (split_on sep s) EmptyString) <= String.length s
  /\ (contains sep s = true ->
      String.length (last (split_on sep s) EmptyString) < String.length s).
Proof.
  induction s as [| a r [IHle IHlt]]; [split; [simpl; lia | discriminate] |].
  rewrite last_split_on_step. cbn [contains String.length].
  destruct (Ascii.eqb a sep); cbn [orb]; [split; intros; lia |].
  destruct (split_on sep r) as [| t [| t' ts]] eqn:Hs.
  - split; intros; lia.
  - cbn [last] in IHle, IHlt. cbn [String.length].
    split; [lia | intros H; specialize (IHlt H); lia].
  - split; intros; lia.
Qed.

Lemma last_split_on_clean (sep : ascii) (s : string) :
  contains sep (last (split_on sep s) EmptyString) = false.
Proof.
  induction s as [| a r IH]; [reflexivity |].
  rewrite last_split_on_step.
  destruct (Ascii.eqb a sep) eqn:Ha; [exact IH |].
  destruct (split_on sep r) as [| t [| t' ts]]; try exact IH.
  cbn [last] in IH. cbn [contains]. now rewrite Ha, IH.
Qed.

Lemma last_split_on_keeps_clean (c sep : ascii) (s : string) :
  contains c s = false ->
  contains c (last (split_on sep s) EmptyString) = false.
Proof.
  induction s as [| a r IH]; [reflexivity |].
  cbn [contains]. intros H. apply orb_false_iff in H as [Ha Hr].
  specialize (IH Hr). rewrite last_split_on_step.
  destruct (Ascii.eqb a sep); [exact IH |].
  destruct (split_on sep r) as [| t [| t' ts]]; try exact IH.
  cbn [last] in IH. cbn [contains]. now rewrite Ha, IH.
Qed.

(** X18: a file whose path does not start with [./patterns/] is published
    under its base name: the name has no [/] and no backslash in it,
    whatever the directories of the path. *)
Theorem published_name_has_no_directory (f : string) :
  PyStr.startswith f "./patterns/" = false ->
  contains "/" (published_name f) = false
  /\ contains backslash (published_name f) = false.
Proof.
  intros H. unfold published_name. rewrite H. split.
  - apply last_split_on_keeps_clean, last_split_on_clean.
  - apply last_split_on_clean.
Qed.

Lemma published_name_has_no_directory_witness :
  published_name "patterns/custom_patterns/star.thr" = "star.thr"
  /\ contains "/" (published_name "patterns/custom_patterns/star.thr") = false.
Proof.
  split; [reflexivity |].
  apply (published_name_has_no_directory "patterns/custom_patterns/star.thr").
  reflexivity.
Defined.

(** X19: the name published for a pattern.  A file run by its path under
    [./patterns/] is published under the rest of the path, directories
    included.  A pattern selected through MQTT is run by a path that
    starts with [patterns/], and the name published for that path is the
    name selected exactly when the name has no [/] and no backslash in
    it. *)
Theorem published_name_of_a_selection (name : string) :
  published_name ("./patterns/" ++ name) = name
  /\ String.eqb (published_name (selected_path name)) name
     = negb (contains "/" name || contains backslash name).
Proof.
  split.
  - unfold published_name.
    replace (PyStr.startswith ("./patterns/" ++ name) "./patterns/") with true
      by (unfold PyStr.startswith; cbn; now destruct name).
    reflexivity.
  - unfold published_name, selected_path.
    replace (PyStr.startswith ("patterns/" ++ name) "./patterns/") with false
      by reflexivity.
    replace (last (split_on "/" ("patterns/" ++ name)) EmptyString)
      with (last (split_on "/" name) EmptyString)
      by (cbn; now destruct (split_on_cons "/" name) as (t & ts & ->)).
    destruct (last_split_on_shorter "/" name) as [Hle Hlt].
    destruct (last_split_on_shorter backslash
                (last (split_on "/" name) EmptyString)) as [Hle' Hlt'].
    destruct (contains "/" name) eqn:H1; cbn [orb negb].
    + apply String.eqb_neq. intros Heq. specialize (Hlt eq_refl).
      rewrite Heq in Hle'. lia.
    + rewrite (split_on_absent "/" name H1) in *. cbn [last] in *.
      destruct (contains backslash name) eqn:H2; cbn [negb].
      * apply String.eqb_neq. intros Heq. specialize (Hlt' eq_refl).
        rewrite Heq in Hlt'. lia.
      * rewrite (split_on_absent backslash name H2). cbn [last].
        apply String.eqb_refl.
Qed.

(** ** The sensors of the playlist *)

Lemma length_append (a b : string) :
  String.length (a ++ b) = String.length a + String.length b.
Proof. induction a as [| x a IH]; simpl; [reflexivity | now rewrite IH]. Qed.

Lemma append_inj_r (a b c : string) : (a ++ c)%string = (b ++ c)%string -> a = b.
Proof.
  revert b. induction a as [| x a IH]; intros [| y b] H.
  - reflexivity.
  - apply (f_equal String.length) in H. rewrite !length_append in H.
    simpl in H. lia.
  - apply (f_equal String.length) in H. rewrite !length_append in H.
    simpl in H. lia.
  - simpl in H. inversion H. f_equal. now apply IH.
Qed.

(** X20: the sensors that read the state of the playlist.  Four of the
    discovery configurations read a field of the JSON text of the
    playlist; the last one listens on the topic where that text is
    published, the first three on a topic written with the braces of a
    format that is never applied, which is the topic of the playlist only
    for a device whose identifier is that very text. *)
Theorem playlist_sensors_listen_elsewhere (h : MQTTHandler) :
  is_enabled h = true ->
  map state_topic_of (filter reads_a_field (discovery_messages h))
  = [ Some unformatted_playlist_topic; Some unformatted_playlist_topic;
      Some unformatted_playlist_topic; Some (playlist_topic h) ]
  /\ (unformatted_playlist_topic = playlist_topic h
      <-> device_id h = "{self.device_id}").
Proof.
  intros He. split.
  - destruct h as [[[| c b] |] p dn di cf rs ss ps pub]; try discriminate.
    unfold discovery_messages.
    lazy [setup_ha_discovery _publish_discovery publish is_enabled broker
          discovery_prefix device_name device_id current_file is_running_state
          serial_state patterns published negb PyStr.is_empty
          serial_state_topic running_state_topic pattern_select_topic
          pattern_state_topic patterns_topic playlist_topic base_device].
    rewrite <- !app_assoc. rewrite skipn_length_app. reflexivity.
  - unfold playlist_topic.
    change unformatted_playlist_topic
      with ("{self.device_id}" ++ "/state/playlist")%string.
    split; [intros H; symmetry; exact (append_inj_r _ _ _ H) | now intros ->].
Qed.

Lemma playlist_sensors_listen_elsewhere_witness :
  map state_topic_of (filter reads_a_field (discovery_messages sample_handler))
  = [ Some "{self.device_id}/state/playlist";
      Some "{self.device_id}/state/playlist";
      Some "{self.device_id}/state/playlist";
      Some "dune_weaver/state/playlist" ]
  /\ "{self.device_id}/state/playlist" <> "dune_weaver/state/playlist".
Proof.
  destruct (playlist_sensors_listen_elsewhere sample_handler eq_refl)
    as [Hlist Hsame].
  split; [exact Hlist |].
  intros H. apply Hsame in H. discriminate H.
Defined.
